(** * webdnd: attribute resolver, state delta applier and turn orchestrator

    A shallow embedding of the game logic of the web application:

    - [calculateFinalAttributes]   (lib/utils)
    - [rollD20], [applyGameStateChanges], [handleUserAction]
                                   (app/game/[sessionId]/page.tsx)
    - the character-creation form  (app/game/new/[scenarioId]/view.tsx)

    Modelling conventions.

    - A JavaScript [number] of the data model (quantity, level, attribute
      value, bonus, difficulty class) is an integer ([Z]).  The code adds
      them as doubles, and a sum of doubles is the sum of the integers
      while the absolute values involved add up to at most
      [MAX_SAFE_INTEGER]; a property whose statement compares sums taken in
      different orders, or undoes an addition, has that bound as a
      hypothesis ([exactSum]).
    - [Math.random()] is a rational [u] with [0 <= u <= maxSample], the
      largest double below 1; the product [u * 20] of [rollD20] is rounded
      to the nearest double, ties to even ([nearestDouble]), before the
      floor.
    - A JavaScript object used as a dictionary is the list of its own
      entries in enumeration order ([jsobj]); writing a new key appends it,
      writing an existing key keeps its position.  (A key that is a string
      of digits is enumerated before the others; only properties about the
      order of keys depend on it, and they exclude such keys:
      [integerLike].)
    - A read [o[k]] of a key the program does not choose goes through
      [member], which finds the own entry, else the member [Object.prototype]
      has under that name, else [undefined]; [obj_get] is the own entry
      alone.  An attribute map lists the entries that hold numbers: an
      addition to an inherited member gives a string, and the model stores
      nothing for it.  An assignment of a number or string under
      [__proto__] to an object without such an entry stores nothing.
    - A call that throws a [TypeError] (a read of a property of
      [undefined]) is a [Completion]; the message of the error is the
      engine's ([typeError_message]).
    - An optional field ([x?: T]) is an [option]; [None] is [undefined].  A
      field the schema of the narration service declares nullable has a
      further [option] inside: [Some None] is [null].
    - Code that mutates its argument takes the old value and returns the new
      one; where aliasing matters (the resolver's copy of its input) there is
      a version over an explicit heap.
    - The collaborators (identity provider, session store, narration
      service, clock, random source) are fields of an environment record. *)

From Stdlib Require Import ZArith QArith Qround String Ascii List Lia Lqa.
From stdpp Require Import base option list gmap strings pretty.

Open Scope string_scope.
Open Scope Z_scope.

(** ** JavaScript values *)

(** The line feed of a template literal. *)
Definition nl : string := String (ascii_of_nat 10) EmptyString.

(** The double quote of a template literal. *)
Definition dquote : string := String (ascii_of_nat 34) EmptyString.

(** [x || d] on an optional number: [undefined] and [0] are falsy. *)
Definition num_or (x : option Z) (d : Z) : Z :=
  match x with
  | Some v => if Z.eqb v 0 then d else v
  | None => d
  end.

(** [x || d] on an optional string: [undefined] and the empty string are
    falsy. *)
Definition str_or (x : option string) (d : string) : string :=
  match x with
  | Some EmptyString | None => d
  | Some s => s
  end.

(** Truthiness of an optional string, as tested by [if (x)]. *)
Definition truthy_str (x : option string) : option string :=
  match x with
  | Some EmptyString | None => None
  | Some s => Some s
  end.

(** [Array.prototype.findIndex]; [None] stands for [-1]. *)
Fixpoint findIndex {A : Type} (p : A -> bool) (l : list A) : option nat :=
  match l with
  | [] => None
  | x :: l' => if p x then Some 0%nat else S <$> findIndex p l'
  end.

(** [Array.prototype.find]. *)
Fixpoint find_first {A : Type} (p : A -> bool) (l : list A) : option A :=
  match l with
  | [] => None
  | x :: l' => if p x then Some x else find_first p l'
  end.

(** [Array.prototype.join]. *)
Fixpoint join (sep : string) (l : list string) : string :=
  match l with
  | [] => EmptyString
  | [s] => s
  | s :: l' => s ++ sep ++ join sep l'
  end.

(** An object as the list of its own enumerable entries. *)
Abbreviation jsobj V := (list (string * V)).

Section JsObject.
Context {V : Type}.

(** The own entry of [o] under [k]: [o[k]] when [o] has the key. *)
Fixpoint obj_get (k : string) (o : jsobj V) : option V :=
  match o with
  | [] => None
  | (k', v) :: o' => if String.eqb k' k then Some v else obj_get k o'
  end.

(** [o[k] = v] for a key that [o] has or that [Object.prototype] has no
    setter for, and [{...o, [k]: v}]. *)
Fixpoint obj_set (k : string) (v : V) (o : jsobj V) : jsobj V :=
  match o with
  | [] => [(k, v)]
  | (k', v') :: o' =>
      if String.eqb k' k then (k', v) :: o' else (k', v') :: obj_set k v o'
  end.

(** [Object.keys(o)] *)
Definition obj_keys (o : jsobj V) : list string := o.*1.
End JsObject.

(** The names under which every object finds a member of
    [Object.prototype]: eleven functions and, under [__proto__], the
    prototype itself. *)
Definition objectPrototype : list string :=
  ["constructor"; "__defineGetter__"; "__defineSetter__"; "hasOwnProperty";
   "__lookupGetter__"; "__lookupSetter__"; "isPrototypeOf";
   "propertyIsEnumerable"; "toString"; "valueOf"; "__proto__";
   "toLocaleString"].

(** What the expression [o[k]] finds: an own entry, else a member of
    [Object.prototype], else [undefined]. *)
Inductive Member (V : Type) :=
| Own (v : V)
| Inherited
| Missing.
Arguments Own {V} v.
Arguments Inherited {V}.
Arguments Missing {V}.

Definition member {V : Type} (k : string) (o : jsobj V) : Member V :=
  match obj_get k o with
  | Some v => Own v
  | None => if bool_decide (k ∈ objectPrototype) then Inherited else Missing
  end.

(** ** Types (app/types/types.ts) *)

Definition AttributeBonus : Type := jsobj Z.

Record PlayerCustomizationContentItem := {
  opt_description : string;
  attributeBonus : AttributeBonus
}.

Record PlayerCustomizationCategory := {
  cat_description : string;
  content : jsobj PlayerCustomizationContentItem
}.

Record BaseSkill := {
  skill_attribute : string;
  skill_description : string
}.

Record DndScenario := {
  sc_id : string;
  Dnd_Scenario : string;
  attributes : jsobj string;
  baseSkills : jsobj BaseSkill;
  startingPoint : string;
  playerCustomizations : jsobj PlayerCustomizationCategory
}.

Record InventoryItem := { item : string; quantity : Z }.

Record PlayerSkill := {
  skillName : string;
  level : option Z;
  description : option string
}.

Inductive Role := user | dm.

Record DialogueEntry := { role : Role; text : string; timestamp : string }.

(** The values a story flag takes ([any] in the source): the primitives. *)
Inductive FlagValue :=
| FlagStr (s : string)
| FlagNum (n : Z)
| FlagBool (b : bool).

Record GameState := {
  scenarioId : string;
  scenarioName : string;
  baseAttributes : jsobj Z;
  selectedCustomizations : jsobj string;
  currentLocation : string;
  playerCharacterName : option string;
  inventory : list InventoryItem;
  playerSkills : list PlayerSkill;
  gameProgression : jsobj FlagValue;
  dialogueHistory : list DialogueEntry
}.

Record GameTableRow := {
  row_id : string;
  user_id : string;
  scenario_id : string;
  name : string;
  state : GameState;
  created_at : string;
  updated_at : string;
  is_active : bool
}.

Record ItemChange := { ic_item : string; quantityChange : Z }.
Record AttributeChange := { attribute : string; valueChange : Z }.
Inductive SkillChangeType := learn | forget | improve | deteriorate.
Record SkillChange := {
  sk_skillName : string;
  type : SkillChangeType;
  value : option Z
}.
Record StoryFlag := { flag : string; flag_value : FlagValue }.

(** [Partial<ParsedUserAction | DMResponseContent>]: the fields the applier
    reads. *)
Record Changes := {
  relevantAttribute : option string;
  (** [Some None] is [null], which the schema of the parser call admits. *)
  difficultyClass : option (option Z);
  itemChanges : option (list ItemChange);
  attributeChanges : option (list AttributeChange);
  skillChanges : option (list SkillChange);
  locationUpdate : option string;
  storyFlags : option (list StoryFlag);
  requiresDiceRoll : option bool
}.

(** The object [{}]. *)
Definition noChanges : Changes :=
  {| relevantAttribute := None; difficultyClass := None;
     itemChanges := None; attributeChanges := None; skillChanges := None;
     locationUpdate := None; storyFlags := None; requiresDiceRoll := None |}.

(** ** Attribute resolver (lib/utils) *)

(** What a call gives its caller: a value, or the [TypeError] of reading a
    property of [undefined]. *)
Inductive Completion (A : Type) :=
| Normal (a : A)
| TypeError (reading : string).
Arguments Normal {A} a.
Arguments TypeError {A} reading.

(** The body of [for (const attr in bonus)].  Under a name that the object
    has no entry for and [Object.prototype] has a member for, the test finds
    the member, and what is written is the text of the member followed by
    the bonus (nothing at all under [__proto__]): no number is stored. *)
Definition addBonus (finalAttrs : jsobj Z) (entry : string * Z) : jsobj Z :=
  let '(attr, b) := entry in
  match member attr finalAttrs with
  | Own v => obj_set attr (v + b) finalAttrs
  | Missing => obj_set attr b finalAttrs
  | Inherited => finalAttrs
  end.

(** Lines 16 to 18: [category && category.content[selectedOptionKey]], then
    [.attributeBonus].  A member of [Object.prototype] found as category has
    no [content], and the read of the option in it throws; one found as
    option is truthy and has no [attributeBonus], and the loop over
    [undefined] has no iteration. *)
Definition selectedBonus (currentScenario : DndScenario)
    (categoryKey selectedOptionKey : string)
    : Completion (option AttributeBonus) :=
  match member categoryKey (playerCustomizations currentScenario) with
  | Own category =>
      match member selectedOptionKey (content category) with
      | Own opt => Normal (Some (attributeBonus opt))
      | Inherited | Missing => Normal None
      end
  | Inherited => TypeError selectedOptionKey
  | Missing => Normal None
  end.

(** [for (const categoryKey in customs)] *)
Fixpoint forSelections (currentScenario : DndScenario)
    (finalAttrs : jsobj Z) (customs : jsobj string)
    : Completion (jsobj Z) :=
  match customs with
  | [] => Normal finalAttrs
  | (categoryKey, selectedOptionKey) :: customs =>
      match selectedBonus currentScenario categoryKey selectedOptionKey with
      | Normal (Some bonus) =>
          forSelections currentScenario (foldl addBonus finalAttrs bonus)
            customs
      | Normal None => forSelections currentScenario finalAttrs customs
      | TypeError reading => TypeError reading
      end
  end.

Definition calculateFinalAttributes (baseAttrs : jsobj Z)
    (customs : jsobj string) (currentScenario : DndScenario)
    : Completion (jsobj Z) :=
  let finalAttrs := baseAttrs in
  forSelections currentScenario finalAttrs customs.

(** *** The resolver over a heap

    Objects live in a heap and are passed by reference; [{ ...baseAttrs }]
    allocates a new object, and each [finalAttrs[attr] = ...] writes to that
    object in place. *)

Abbreviation loc := nat (only parsing).
Abbreviation heap := (gmap nat (jsobj Z)).




(** *** The resolver in the words of the specification

    The bonus map of a selected pair whose category and option both exist
    in the scenario; the pairs that do not exist give nothing. *)
Definition bothExist (currentScenario : DndScenario)
    (sel : string * string) : bool :=
  match obj_get sel.1 (playerCustomizations currentScenario) with
  | Some category =>
      match obj_get sel.2 (content category) with
      | Some _ => true
      | None => false
      end
  | None => false
  end.

Definition bonusOf (currentScenario : DndScenario)
    (sel : string * string) : AttributeBonus :=
  match obj_get sel.1 (playerCustomizations currentScenario) with
  | Some category =>
      match obj_get sel.2 (content category) with
      | Some opt => attributeBonus opt
      | None => []
      end
  | None => []
  end.

(** The bonuses the selected pairs give to one attribute, in the order of
    the selections. *)
Definition bonusesFor (attr : string) (customs : jsobj string)
    (currentScenario : DndScenario) : list Z :=
  sel ← customs;
  (filter (fun e => e.1 = attr) (bonusOf currentScenario sel)).*2.

Definition sumZ (l : list Z) : Z := foldr Z.add 0 l.

(** Base value plus every selected bonus; an entry exists when the base map
    has one or some selected bonus map names the attribute. *)
Definition withBonuses (x : option Z) (bs : list Z) : option Z :=
  match x, bs with
  | None, [] => None
  | _, _ => Some (default 0 x + sumZ bs)
  end.

Definition resolve_spec (baseAttrs : jsobj Z) (customs : jsobj string)
    (currentScenario : DndScenario) (attr : string) : option Z :=
  withBonuses (obj_get attr baseAttrs)
              (bonusesFor attr customs currentScenario).

(** ** State delta applier (app/game/[sessionId]/page.tsx) *)

(** The random source: the values successive calls of [Math.random()]
    return, and how many have been drawn. *)
Record Random := { samples : nat -> Q; cursor : nat }.

Definition Math_random (r : Random) : Q * Random :=
  (samples r (cursor r), {| samples := samples r; cursor := S (cursor r) |}).

(** The largest double below 1: [Math.random()] never exceeds it. *)
(** It is [(2^53 - 1) / 2^53]. *)
Definition maxSample : Q := 9007199254740991 # 9007199254740992.

(** *** Arithmetic on doubles

    A product of doubles is the exact product rounded to the nearest
    double, ties to the one with an even significand.  Around a positive
    [x] with [2^e <= x < 2^(e+1)] the doubles are the multiples of
    [2^(e-52)], and of [2^-1074] below [2^-1022]. *)
Definition roundTiesToEven (y : Q) : Z :=
  let f := Qfloor y in
  match Qcompare (y - inject_Z f) (1 # 2) with
  | Lt => f
  | Gt => f + 1
  | Eq => if Z.even f then f else f + 1
  end.

(** [floor (log2 x)] of a positive [x]. *)
Definition binade (x : Q) : Z :=
  if Qle_bool 1 x then Z.log2 (Qfloor x) else - Z.log2_up (Qceiling (/ x)).

(** The double nearest to [x], for [0 <= x < 2^1024]. *)
Definition nearestDouble (x : Q) : Q :=
  if Qle_bool x 0 then 0
  else
    let t := Z.max (binade x - 52) (-1074) in
    if 0 <=? t
    then inject_Z (roundTiesToEven (x / inject_Z (2 ^ t)) * 2 ^ t)
    else inject_Z (roundTiesToEven (x * inject_Z (2 ^ (- t))))
         / inject_Z (2 ^ (- t)).

(** [Math.floor(Math.random() * 20) + 1] *)
Definition rollD20 (r : Random) : Z * Random :=
  let '(u, r') := Math_random r in
  (Qfloor (nearestDouble (u * inject_Z 20)) + 1, r').

(** [JSON.stringify] on the four change lists, and the text a template
    literal gives for the member of [Object.prototype] of a given name (the
    source text of a native function, which the engine chooses); built-ins,
    taken as given. *)
Record JsonPrinter := {
  stringify_items : list ItemChange -> string;
  stringify_attributes : list AttributeChange -> string;
  stringify_skills : list SkillChange -> string;
  stringify_flags : list StoryFlag -> string;
  stringify_member : string -> string
}.

Definition set_quantity (it : InventoryItem) (q : Z) : InventoryItem :=
  {| item := item it; quantity := q |}.

Definition set_level (s : PlayerSkill) (l : Z) : PlayerSkill :=
  {| skillName := skillName s; level := Some l; description := description s |}.

Definition set_inventory (gs : GameState) (inv : list InventoryItem)
    : GameState :=
  {| scenarioId := scenarioId gs; scenarioName := scenarioName gs;
     baseAttributes := baseAttributes gs;
     selectedCustomizations := selectedCustomizations gs;
     currentLocation := currentLocation gs;
     playerCharacterName := playerCharacterName gs;
     inventory := inv; playerSkills := playerSkills gs;
     gameProgression := gameProgression gs;
     dialogueHistory := dialogueHistory gs |}.

Definition set_baseAttributes (gs : GameState) (attrs : jsobj Z)
    : GameState :=
  {| scenarioId := scenarioId gs; scenarioName := scenarioName gs;
     baseAttributes := attrs;
     selectedCustomizations := selectedCustomizations gs;
     currentLocation := currentLocation gs;
     playerCharacterName := playerCharacterName gs;
     inventory := inventory gs; playerSkills := playerSkills gs;
     gameProgression := gameProgression gs;
     dialogueHistory := dialogueHistory gs |}.

Definition set_playerSkills (gs : GameState) (skills : list PlayerSkill)
    : GameState :=
  {| scenarioId := scenarioId gs; scenarioName := scenarioName gs;
     baseAttributes := baseAttributes gs;
     selectedCustomizations := selectedCustomizations gs;
     currentLocation := currentLocation gs;
     playerCharacterName := playerCharacterName gs;
     inventory := inventory gs; playerSkills := skills;
     gameProgression := gameProgression gs;
     dialogueHistory := dialogueHistory gs |}.

Definition set_currentLocation (gs : GameState) (l : string) : GameState :=
  {| scenarioId := scenarioId gs; scenarioName := scenarioName gs;
     baseAttributes := baseAttributes gs;
     selectedCustomizations := selectedCustomizations gs;
     currentLocation := l;
     playerCharacterName := playerCharacterName gs;
     inventory := inventory gs; playerSkills := playerSkills gs;
     gameProgression := gameProgression gs;
     dialogueHistory := dialogueHistory gs |}.

Definition set_gameProgression (gs : GameState) (p : jsobj FlagValue)
    : GameState :=
  {| scenarioId := scenarioId gs; scenarioName := scenarioName gs;
     baseAttributes := baseAttributes gs;
     selectedCustomizations := selectedCustomizations gs;
     currentLocation := currentLocation gs;
     playerCharacterName := playerCharacterName gs;
     inventory := inventory gs; playerSkills := playerSkills gs;
     gameProgression := p;
     dialogueHistory := dialogueHistory gs |}.

(** [gameState.dialogueHistory.push(entry)] *)
Definition push_dialogue (gs : GameState) (entry : DialogueEntry)
    : GameState :=
  {| scenarioId := scenarioId gs; scenarioName := scenarioName gs;
     baseAttributes := baseAttributes gs;
     selectedCustomizations := selectedCustomizations gs;
     currentLocation := currentLocation gs;
     playerCharacterName := playerCharacterName gs;
     inventory := inventory gs; playerSkills := playerSkills gs;
     gameProgression := gameProgression gs;
     dialogueHistory := (dialogueHistory gs ++ [entry])%list |}.

(** One iteration of the loop over [changes.itemChanges]. *)
Definition applyItemChange (inv : list InventoryItem) (change : ItemChange)
    : list InventoryItem :=
  match findIndex (fun it => String.eqb (item it) (ic_item change)) inv with
  | Some existingItemIndex =>
      let inv1 :=
        alter (fun it => set_quantity it (quantity it + quantityChange change))
              existingItemIndex inv in
      match inv1 !! existingItemIndex with
      | Some it =>
          if quantity it <=? 0 then delete existingItemIndex inv1 else inv1
      | None => inv1
      end
  | None =>
      if 0 <? quantityChange change
      then (inv ++ [ {| item := ic_item change;
                        quantity := quantityChange change |} ])%list
      else inv
  end.

(** One iteration of the loop over [changes.attributeChanges]; the test
    goes through the prototype chain as in [addBonus]. *)
Definition applyAttributeChange (attrs : jsobj Z) (change : AttributeChange)
    : jsobj Z :=
  match member (attribute change) attrs with
  | Own v => obj_set (attribute change) (v + valueChange change) attrs
  | Missing => obj_set (attribute change) (valueChange change) attrs
  | Inherited => attrs
  end.

(** One iteration of the loop over [changes.skillChanges]. *)
Definition applySkillChange (skills : list PlayerSkill) (change : SkillChange)
    : list PlayerSkill :=
  match findIndex (fun s => String.eqb (skillName s) (sk_skillName change))
                  skills with
  | Some existingSkillIndex =>
      match type change, value change with
      | improve, Some v =>
          alter (fun s => set_level s (num_or (level s) 0 + v))
                existingSkillIndex skills
      | deteriorate, Some v =>
          alter (fun s => set_level s (Z.max 0 (num_or (level s) 0 - v)))
                existingSkillIndex skills
      | forget, _ => delete existingSkillIndex skills
      | _, _ => skills
      end
  | None =>
      match type change with
      | learn =>
          (skills ++ [ {| skillName := sk_skillName change;
                          level := Some (num_or (value change) 1);
                          description := None |} ])%list
      | _ => skills
      end
  end.

(** One iteration of the loop over [changes.storyFlags].  An assignment
    under [__proto__] reaches the setter of [Object.prototype], which
    ignores a primitive, unless the object has an entry of its own of that
    name. *)
Definition applyStoryFlag (progression : jsobj FlagValue) (f : StoryFlag)
    : jsobj FlagValue :=
  match obj_get (flag f) progression with
  | Some _ => obj_set (flag f) (flag_value f) progression
  | None =>
      if String.eqb (flag f) "__proto__" then progression
      else obj_set (flag f) (flag_value f) progression
  end.

(** [x && x.length > 0] on an optional array. *)
Definition nonempty {A : Type} (x : option (list A)) : option (list A) :=
  match x with
  | Some ((_ :: _) as l) => Some l
  | _ => None
  end.

(** The outcome of a check on numbers, lines 133 to 139. *)
Definition skillCheck (diceRollResult playerAttrValue skillCheckDC : Z)
    : bool :=
  let skillCheckSuccess := skillCheckDC <=? diceRollResult + playerAttrValue in
  if Z.eqb diceRollResult 1 then false
  else if Z.eqb diceRollResult 20 then true
  else skillCheckSuccess.

(** The value of [finalAttributes[skillCheckAttribute] || 0]: a number, or
    the member of [Object.prototype] found under the name when the
    attributes have no entry of their own for it (a function or the
    prototype: truthy). *)
Inductive AttrValue :=
| Number (v : Z)
| PrototypeMember (name : string).

Definition readAttrValue (skillCheckAttribute : string)
    (finalAttributes : jsobj Z) : AttrValue :=
  match member skillCheckAttribute finalAttributes with
  | Own v => Number (num_or (Some v) 0)
  | Inherited => PrototypeMember skillCheckAttribute
  | Missing => Number 0
  end.

(** Lines 133 to 139 on what was read.  [null] as difficulty class counts
    as 0 in the comparison.  The sum of the roll and a member of the
    prototype is a string that is no numeral, and [>=] on it is false. *)
Definition skillCheckSuccess (diceRollResult : Z)
    (playerAttrValue : AttrValue) (skillCheckDC : option Z) : bool :=
  match playerAttrValue with
  | Number v => skillCheck diceRollResult v (default 0 skillCheckDC)
  | PrototypeMember _ =>
      if Z.eqb diceRollResult 1 then false
      else if Z.eqb diceRollResult 20 then true
      else false
  end.

(** The guard of the dice roll: the attribute and the difficulty class (a
    number or [null]) when a check is due. *)
Definition checkRequested (changes : Changes)
    : option (string * option Z) :=
  match requiresDiceRoll changes with
  | Some true =>
      skillCheckAttribute ← truthy_str (relevantAttribute changes);
      skillCheckDC ← difficultyClass changes;
      Some (skillCheckAttribute, skillCheckDC)
  | _ => None
  end.

Section Applier.
Context (JSON : JsonPrinter).

(** The sentence the check adds to the summary. *)
Definition skillCheckLine (skillCheckAttribute : string)
    (skillCheckDC : option Z) (diceRollResult : Z)
    (playerAttrValue : AttrValue) : string :=
  nl ++ "进行了 " ++ skillCheckAttribute ++ " 检定 (DC "
     ++ match skillCheckDC with
        | Some dc => pretty dc
        | None => "null"
        end
     ++ ")。掷骰结果: " ++ pretty diceRollResult ++ " (d20) + "
     ++ match playerAttrValue with
        | Number v => pretty v
        | PrototypeMember name => stringify_member JSON name
        end
     ++ " (属性加成) = "
     ++ match playerAttrValue with
        | Number v => pretty (diceRollResult + v)
        | PrototypeMember name =>
            pretty diceRollResult ++ stringify_member JSON name
        end
     ++ "。结果："
     ++ (if skillCheckSuccess diceRollResult playerAttrValue skillCheckDC
         then "成功" else "失败")
     ++ "。".

Definition applyItems (st : GameState * string) (changes : Changes)
    : GameState * string :=
  let '(gameState, narrativeContextPart) := st in
  match nonempty (itemChanges changes) with
  | Some l =>
      (set_inventory gameState (foldl applyItemChange (inventory gameState) l),
       narrativeContextPart ++ nl ++ "物品变动："
         ++ stringify_items JSON l ++ "。")
  | None => st
  end.

Definition applyAttributes (st : GameState * string) (changes : Changes)
    : GameState * string :=
  let '(gameState, narrativeContextPart) := st in
  match nonempty (attributeChanges changes) with
  | Some l =>
      (set_baseAttributes gameState
         (foldl applyAttributeChange (baseAttributes gameState) l),
       narrativeContextPart ++ nl ++ "属性变动："
         ++ stringify_attributes JSON l ++ "。")
  | None => st
  end.

Definition applySkills (st : GameState * string) (changes : Changes)
    : GameState * string :=
  let '(gameState, narrativeContextPart) := st in
  match nonempty (skillChanges changes) with
  | Some l =>
      (set_playerSkills gameState
         (foldl applySkillChange (playerSkills gameState) l),
       narrativeContextPart ++ nl ++ "技能变动："
         ++ stringify_skills JSON l ++ "。")
  | None => st
  end.

Definition applyLocation (st : GameState * string) (changes : Changes)
    : GameState * string :=
  let '(gameState, narrativeContextPart) := st in
  match truthy_str (locationUpdate changes) with
  | Some l =>
      (set_currentLocation gameState l,
       narrativeContextPart ++ nl ++ "地点更新：玩家现在位于 " ++ l ++ "。")
  | None => st
  end.

Definition applyFlags (st : GameState * string) (changes : Changes)
    : GameState * string :=
  let '(gameState, narrativeContextPart) := st in
  match nonempty (storyFlags changes) with
  | Some l =>
      (set_gameProgression gameState
         (foldl applyStoryFlag (gameProgression gameState) l),
       narrativeContextPart ++ nl ++ "故事标志更新："
         ++ stringify_flags JSON l ++ "。")
  | None => st
  end.

(** The state and the summary after the five updates, before the roll. *)
Definition applyUpdates (gameState : GameState) (changes : Changes)
    : GameState * string :=
  let st := (gameState, EmptyString) in
  let st := applyItems st changes in
  let st := applyAttributes st changes in
  let st := applySkills st changes in
  let st := applyLocation st changes in
  applyFlags st changes.

(** Returns the mutated state, the summary and the random source. *)
Definition applyGameStateChanges (gameState : GameState) (changes : Changes)
    (finalAttributes : jsobj Z) (rnd : Random)
    : GameState * string * Random :=
  let '(gameState, narrativeContextPart) := applyUpdates gameState changes in
  match checkRequested changes with
  | Some (skillCheckAttribute, skillCheckDC) =>
      let '(diceRollResult, rnd) := rollD20 rnd in
      let playerAttrValue :=
        readAttrValue skillCheckAttribute finalAttributes in
      (gameState,
       narrativeContextPart
         ++ skillCheckLine skillCheckAttribute skillCheckDC diceRollResult
              playerAttrValue,
       rnd)
  | None => (gameState, narrativeContextPart, rnd)
  end.
End Applier.

(** ** Turn orchestrator (app/game/[sessionId]/page.tsx) *)

(** The collaborators of one call of [handleUserAction]; each narration
    call is made at most once in a call, so a function of its inputs can
    stand for any answer.

    A narration-service call either throws (the string is
    [openaiError.message || String(openaiError)]: a network error, a timeout,
    or a [JSON.parse] failure on its output) or returns.  The two structured
    calls return the parsed object; the narrative call returns
    [choices[0].message?.content]. *)
Record Env := {
  (** [supabase.auth.getUser()]: the user id, or [None] for [authError] or
      no user. *)
  auth_getUser : option string;
  (** The [select ... single()] reports [gameError]. *)
  select_error : bool;
  (** The [update] reports [updateError]. *)
  update_error : bool;
  (** LLM call 1, on the scenario, the state, the attributes and the action. *)
  playerActionParser :
    DndScenario -> GameState -> jsobj Z -> string -> string + Changes;
  (** LLM call 2, also on the summary of the changes applied so far. *)
  dmNarrativeGenerator :
    DndScenario -> GameState -> jsobj Z -> string -> string
    -> string + option string;
  (** LLM call 3, on the narrative, the state and the attributes. *)
  dmStateChangeParser :
    string -> GameState -> jsobj Z -> string + Changes;
  (** [new Date().toISOString()] at the three places it is read. *)
  now_user : string;
  now_dm : string;
  now_update : string;
  (** [e.message] of the [TypeError] that the read of the given property of
      [undefined] throws; the engine chooses the text. *)
  typeError_message : string -> string
}.

(** What the call gives its caller: an exception or the updated state. *)
Inductive Outcome :=
| Thrown (message : string)
| Returned (gameState : GameState).

(** The body of the [try] block: a computation over the state object and
    the random source that may throw; what it has mutated before a throw
    stays mutated. *)
Definition Turn (A : Type) : Type :=
  GameState * Random -> (string + A) * (GameState * Random).

Definition turn_ret {A : Type} (a : A) : Turn A := fun s => (inr a, s).

Definition turn_bind {A B : Type} (m : Turn A) (k : A -> Turn B) : Turn B :=
  fun s =>
    match m s with
    | (inl e, s') => (inl e, s')
    | (inr a, s') => k a s'
    end.

Notation "x <~ m ;; k" := (turn_bind m (fun x => k))
  (at level 100, m at next level, right associativity).

(** An awaited collaborator call that reads the current state. *)
Definition await {A : Type} (call : GameState -> string + A) : Turn A :=
  fun s => (call s.1, s).

(** A call on the current state that may throw a [TypeError]; the [catch]
    block prints [e.message || String(e)]. *)
Definition attempt {A : Type} (env : Env) (call : GameState -> Completion A)
    : Turn A :=
  fun s =>
    (match call s.1 with
     | Normal a => inr a
     | TypeError reading =>
         inl (str_or (Some (typeError_message env reading)) "TypeError")
     end, s).

Definition set_state (row : GameTableRow) (gs : GameState) (now : string)
    : GameTableRow :=
  {| row_id := row_id row; user_id := user_id row;
     scenario_id := scenario_id row; name := name row;
     state := gs; created_at := created_at row; updated_at := now;
     is_active := is_active row |}.

Definition dmSilent : string := "DM无语了。故事继续...".

Definition dmPlaceholder (message : string) : string :=
  "DM暂时无法回应，似乎遇到了次元裂缝。错误: " ++ message.

Section Orchestrator.
Context (JSON : JsonPrinter) (allScenarios : list DndScenario).

Definition applyChanges (changes : Changes) (finalAttributes : jsobj Z)
    : Turn string :=
  fun '(gameState, rnd) =>
    let '(gameState, narrativeContextPart, rnd) :=
      applyGameStateChanges JSON gameState changes finalAttributes rnd in
    (inr narrativeContextPart, (gameState, rnd)).

(** Lines 217 to 551; returns [dmNarrative]. *)
Definition tryBlock (env : Env) (scenario : DndScenario)
    (userAction : string) (finalAttributes : jsobj Z) : Turn string :=
  parsedAction <~ await (fun gs =>
    playerActionParser env scenario gs finalAttributes userAction) ;;
  userActionNarrativeContext <~ applyChanges parsedAction finalAttributes ;;
  finalAttributes <~ attempt env (fun gs =>
    calculateFinalAttributes (baseAttributes gs)
      (selectedCustomizations gs) scenario) ;;
  narrativeContent <~ await (fun gs =>
    dmNarrativeGenerator env scenario gs finalAttributes
      userActionNarrativeContext userAction) ;;
  let dmNarrative := str_or narrativeContent dmSilent in
  dmChanges <~ await (fun gs =>
    dmStateChangeParser env dmNarrative gs finalAttributes) ;;
  _ <~ applyChanges dmChanges finalAttributes ;;
  turn_ret dmNarrative.

(** Lines 206 to 567: the in-memory part of a turn, from the loaded state
    and its attributes to the state handed to the store. *)
Definition runTurn (env : Env) (scenario : DndScenario)
    (currentGameState : GameState) (finalAttributes : jsobj Z)
    (userAction : string) (rnd : Random) : GameState * Random :=
  let newUserDialogue :=
    {| role := user; text := userAction; timestamp := now_user env |} in
  let currentGameState := push_dialogue currentGameState newUserDialogue in
  let '(result, (currentGameState, rnd)) :=
    tryBlock env scenario userAction finalAttributes
             (currentGameState, rnd) in
  let dmNarrative :=
    match result with
    | inr dmNarrative => dmNarrative
    | inl message => dmPlaceholder message
    end in
  let newDmDialogue :=
    {| role := dm; text := dmNarrative; timestamp := now_dm env |} in
  (push_dialogue currentGameState newDmDialogue, rnd).

(** The server action.  The session store is a map from session id to
    row; the result carries the store and the random source after the
    call. *)
Definition handleUserAction (env : Env) (db : gmap string GameTableRow)
    (rnd : Random) (sessionId userAction : string)
    : Outcome * gmap string GameTableRow * Random :=
  match auth_getUser env with
  | None =>
      (Thrown "Unauthorized: User not logged in or session expired.",
       db, rnd)
  | Some uid =>
      match (if select_error env then None else db !! sessionId) with
      | None => (Thrown "游戏会话不存在或无法加载。", db, rnd)
      | Some gameData =>
          if negb (String.eqb (user_id gameData) uid)
          then (Thrown
                  "Unauthorized: You do not have access to this game session.",
                db, rnd)
          else
            match find_first
                    (fun s => String.eqb (sc_id s) (scenario_id gameData))
                    allScenarios with
            | None => (Thrown "关联的场景模板未找到。", db, rnd)
            | Some scenario =>
                match calculateFinalAttributes
                        (baseAttributes (state gameData))
                        (selectedCustomizations (state gameData))
                        scenario with
                | TypeError reading =>
                    (Thrown (typeError_message env reading), db, rnd)
                | Normal finalAttributes =>
                    let '(currentGameState, rnd) :=
                      runTurn env scenario (state gameData) finalAttributes
                        userAction rnd in
                    if update_error env
                    then (Thrown "保存游戏状态失败。", db, rnd)
                    else
                      (Returned currentGameState,
                       alter (fun row =>
                                set_state row currentGameState
                                  (now_update env))
                             sessionId db,
                       rnd)
                end
            end
      end
  end.
End Orchestrator.


(** ** Character creation (app/game/new/[scenarioId]/view.tsx) *)

Definition BASE_ATTRIBUTE_VALUE : Z := 5.
Definition TOTAL_BONUS_POINTS : Z := 10.
Definition MAX_STARTING_SKILLS : nat := 2.

(** The [useState] cells of [GameInitView]. *)
Record FormState := {
  form_user : option string;
  baseAttributeValues : jsobj Z;
  remainingPoints : Z;
  form_selectedCustomizations : jsobj string;
  selectedSkills : list PlayerSkill;
  gameName : string;
  creatingGame : bool;
  error : option string;
  successMessage : option string
}.

(** The initial values of the cells. *)
Definition useStateDefaults : FormState :=
  {| form_user := None; baseAttributeValues := [];
     remainingPoints := TOTAL_BONUS_POINTS;
     form_selectedCustomizations := []; selectedSkills := [];
     gameName := EmptyString; creatingGame := false; error := None;
     successMessage := None |}.

Definition initialAttrs (scenario : DndScenario) : jsobj Z :=
  foldl (fun initialAttrs attrName =>
           obj_set attrName BASE_ATTRIBUTE_VALUE initialAttrs)
        [] (obj_keys (attributes scenario)).

Definition initialCustoms (scenario : DndScenario) : jsobj string :=
  foldl (fun initialCustoms (entry : string * PlayerCustomizationCategory) =>
           let '(categoryKey, category) := entry in
           match truthy_str (head (obj_keys (content category))) with
           | Some firstOptionKey =>
               obj_set categoryKey firstOptionKey initialCustoms
           | None => initialCustoms
           end)
        [] (playerCustomizations scenario).

(** The effect that runs when the scenario is set. *)
Definition initForm (scenario : DndScenario) (st : FormState) : FormState :=
  {| form_user := form_user st;
     baseAttributeValues := initialAttrs scenario;
     remainingPoints := TOTAL_BONUS_POINTS;
     form_selectedCustomizations := initialCustoms scenario;
     selectedSkills := [];
     gameName := gameName st; creatingGame := creatingGame st;
     error := error st; successMessage := successMessage st |}.

Definition setUser (u : option string) (st : FormState) : FormState :=
  {| form_user := u; baseAttributeValues := baseAttributeValues st;
     remainingPoints := remainingPoints st;
     form_selectedCustomizations := form_selectedCustomizations st;
     selectedSkills := selectedSkills st;
     gameName := gameName st; creatingGame := creatingGame st;
     error := error st; successMessage := successMessage st |}.

Definition setGameName (s : string) (st : FormState) : FormState :=
  {| form_user := form_user st; baseAttributeValues := baseAttributeValues st;
     remainingPoints := remainingPoints st;
     form_selectedCustomizations := form_selectedCustomizations st;
     selectedSkills := selectedSkills st;
     gameName := s; creatingGame := creatingGame st;
     error := error st; successMessage := successMessage st |}.

Definition setError (e : option string) (st : FormState) : FormState :=
  {| form_user := form_user st; baseAttributeValues := baseAttributeValues st;
     remainingPoints := remainingPoints st;
     form_selectedCustomizations := form_selectedCustomizations st;
     selectedSkills := selectedSkills st;
     gameName := gameName st; creatingGame := creatingGame st;
     error := e; successMessage := successMessage st |}.

(** The updater of [setBaseAttributeValues], run once per click (as in a
    production build). *)
Definition handleAttributeChange (attribute : string) (change : Z)
    (st : FormState) : FormState :=
  let prev := baseAttributeValues st in
  let currentValue := num_or (obj_get attribute prev) BASE_ATTRIBUTE_VALUE in
  let newValue := currentValue + change in
  if (0 <? change) && (remainingPoints st <=? 0)
  then setError (Some "没有剩余点数可分配了！") st
  else if (change <? 0) && (newValue <? BASE_ATTRIBUTE_VALUE)
  then setError (Some ("属性不能低于基础值 "
                         ++ pretty BASE_ATTRIBUTE_VALUE ++ "！")) st
  else
    {| form_user := form_user st;
       baseAttributeValues := obj_set attribute newValue prev;
       remainingPoints := remainingPoints st - change;
       form_selectedCustomizations := form_selectedCustomizations st;
       selectedSkills := selectedSkills st;
       gameName := gameName st; creatingGame := creatingGame st;
       error := None; successMessage := successMessage st |}.

Definition handleCustomizationChange (categoryKey optionKey : string)
    (st : FormState) : FormState :=
  {| form_user := form_user st; baseAttributeValues := baseAttributeValues st;
     remainingPoints := remainingPoints st;
     form_selectedCustomizations :=
       obj_set categoryKey optionKey (form_selectedCustomizations st);
     selectedSkills := selectedSkills st;
     gameName := gameName st; creatingGame := creatingGame st;
     error := error st; successMessage := successMessage st |}.

Definition setSelectedSkills (skills : list PlayerSkill) (e : option string)
    (st : FormState) : FormState :=
  {| form_user := form_user st; baseAttributeValues := baseAttributeValues st;
     remainingPoints := remainingPoints st;
     form_selectedCustomizations := form_selectedCustomizations st;
     selectedSkills := skills;
     gameName := gameName st; creatingGame := creatingGame st;
     error := e; successMessage := successMessage st |}.

Definition handleSkillToggle (scenario : DndScenario) (name : string)
    (st : FormState) : FormState :=
  let prevSkills := selectedSkills st in
  let isSelected :=
    existsb (fun skill => String.eqb (skillName skill) name) prevSkills in
  if isSelected
  then setSelectedSkills
         (List.filter (fun skill => negb (String.eqb (skillName skill) name))
                      prevSkills)
         (error st) st
  else if (length prevSkills <? MAX_STARTING_SKILLS)%nat
  then
    match obj_get name (baseSkills scenario) with
    | Some skillDetails =>
        setSelectedSkills
          (prevSkills ++ [ {| skillName := name;
                              level := Some 1;
                              description :=
                                Some (skill_description skillDetails) |} ])%list
          None st
    | None => st
    end
  else setError (Some ("最多只能选择 " ++ pretty MAX_STARTING_SKILLS
                         ++ " 个初始技能！")) st.

(** The introductory narrator text of [handleStartGame]. *)
Definition initialDmText (scenario : DndScenario) (st : FormState)
    (trimmedName : string) : string :=
  let initialDmText := "欢迎来到你的新冒险，" ++ trimmedName ++ "！" ++ nl ++ nl in
  let initialDmText :=
    initialDmText ++ "你的故事将从 " ++ dquote ++ startingPoint scenario
      ++ dquote ++ " 开始。" ++ nl ++ nl in
  let initialDmText := initialDmText ++ "你的角色属性如下：" ++ nl in
  let initialDmText :=
    foldl (fun initialDmText (entry : string * Z) =>
             initialDmText ++ "- " ++ entry.1 ++ ": " ++ pretty entry.2 ++ nl)
          initialDmText (baseAttributeValues st) in
  let initialDmText :=
    initialDmText ++ nl ++ "你选择的自定义背景和专长：" ++ nl in
  let initialDmText :=
    foldl (fun initialDmText (entry : string * string) =>
             let '(categoryKey, optionKey) := entry in
             match obj_get categoryKey (playerCustomizations scenario) with
             | Some category =>
                 match obj_get optionKey (content category) with
                 | Some option =>
                     let initialDmText :=
                       initialDmText ++ "- " ++ cat_description category
                         ++ "：" ++ optionKey ++ " - "
                         ++ opt_description option ++ nl in
                     match attributeBonus option with
                     | [] => initialDmText
                     | bonus =>
                         initialDmText ++ "  (属性加成："
                           ++ join ", "
                                (map (fun e : string * Z =>
                                        e.1 ++ " +" ++ pretty e.2) bonus)
                           ++ ")" ++ nl
                     end
                 | None => initialDmText
                 end
             | None => initialDmText
             end)
          initialDmText (form_selectedCustomizations st) in
  let initialDmText :=
    match selectedSkills st with
    | [] => initialDmText
    | skills =>
        foldl (fun initialDmText skill =>
                 let skillDetails :=
                   obj_get (skillName skill) (baseSkills scenario) in
                 initialDmText ++ "- " ++ skillName skill ++ ": "
                   ++ str_or (skill_description <$> skillDetails) EmptyString
                   ++ " (关联属性: "
                   ++ str_or (skill_attribute <$> skillDetails) "未知"
                   ++ ")" ++ nl)
              (initialDmText ++ nl ++ "你掌握的初始技能：" ++ nl) skills
    end in
  initialDmText ++ nl ++ "准备好开始你的旅程了吗？".

Section StartGame.
(** [String.prototype.trim], a built-in, and the clock. *)
Context (trim : string -> string) (now : string).

(** Up to the insert into the session store: the form afterwards, and the
    [state] of the inserted row when the guards pass. *)
Definition handleStartGame (scenario : DndScenario) (st : FormState)
    : FormState * option GameState :=
  match form_user st with
  | None => (setError (Some "用户未登录。请刷新页面或尝试重新登录。") st, None)
  | Some _ =>
      if String.eqb (trim (gameName st)) EmptyString
      then (setError (Some "角色名称不能为空。") st, None)
      else if negb (Z.eqb (remainingPoints st) 0)
      then (setError
              (Some ("您还有 " ++ pretty (remainingPoints st)
                       ++ " 点未分配或分配过多。请将所有点数分配完毕。")) st,
            None)
      else if Nat.eqb (length (selectedSkills st)) 0
      then (setError (Some "请选择至少一个初始技能。") st, None)
      else
        let gameState :=
          {| scenarioId := sc_id scenario;
             scenarioName := Dnd_Scenario scenario;
             baseAttributes := baseAttributeValues st;
             selectedCustomizations := form_selectedCustomizations st;
             dialogueHistory :=
               [ {| role := dm;
                    text := initialDmText scenario st (trim (gameName st));
                    timestamp := now |} ];
             currentLocation := startingPoint scenario;
             playerCharacterName := Some (trim (gameName st));
             inventory := [];
             playerSkills := selectedSkills st;
             gameProgression := [] |} in
        ({| form_user := form_user st;
            baseAttributeValues := baseAttributeValues st;
            remainingPoints := remainingPoints st;
            form_selectedCustomizations := form_selectedCustomizations st;
            selectedSkills := selectedSkills st;
            gameName := gameName st; creatingGame := true;
            error := None; successMessage := None |},
         Some gameState)
  end.
End StartGame.

(** What the user does with the form before starting the game. *)
Inductive FormEvent :=
| SetUser (u : option string)
| SetGameName (s : string)
| AttributeClick (attrName : string) (change : Z)
| CustomizationClick (categoryKey optionKey : string)
| SkillClick (skillName : string).

Definition handleEvent (scenario : DndScenario) (st : FormState)
    (ev : FormEvent) : FormState :=
  match ev with
  | SetUser u => setUser u st
  | SetGameName s => setGameName s st
  | AttributeClick attrName change => handleAttributeChange attrName change st
  | CustomizationClick categoryKey optionKey =>
      handleCustomizationChange categoryKey optionKey st
  | SkillClick name => handleSkillToggle scenario name st
  end.

(** The events the rendered form can raise: the two buttons of each
    scenario attribute, the options of each category, the scenario's
    skills. *)
Definition rendered (scenario : DndScenario) (ev : FormEvent) : bool :=
  match ev with
  | SetUser _ | SetGameName _ => true
  | AttributeClick attrName change =>
      bool_decide (attrName ∈ obj_keys (attributes scenario))
      && (Z.eqb change 1 || Z.eqb change (-1))
  | CustomizationClick categoryKey optionKey =>
      match obj_get categoryKey (playerCustomizations scenario) with
      | Some category => bool_decide (optionKey ∈ obj_keys (content category))
      | None => false
      end
  | SkillClick name => bool_decide (name ∈ obj_keys (baseSkills scenario))
  end.

(** The form after a sequence of events on the freshly mounted view. *)
Definition formAfter (scenario : DndScenario) (events : list FormEvent)
    : FormState :=
  foldl (handleEvent scenario) (initForm scenario useStateDefaults) events.

Definition isCustomizationClick (ev : FormEvent) : bool :=
  match ev with
  | CustomizationClick _ _ => true
  | _ => false
  end.

(** The options the player picked for a category, in the order of the
    clicks. *)
Definition picksOf (categoryKey : string) (events : list FormEvent)
    : list string :=
  omap (fun ev =>
          match ev with
          | CustomizationClick c optionKey =>
              if String.eqb c categoryKey then Some optionKey else None
          | _ => None
          end) events.

(** Applying a sequence of deltas, each with the attributes of its call. *)
Definition applySequence (JSON : JsonPrinter) (gameState : GameState)
    (rnd : Random) (calls : list (Changes * jsobj Z)) : GameState * Random :=
  foldl (fun (st : GameState * Random) (call : Changes * jsobj Z) =>
           let '(gameState, _, rnd) :=
             applyGameStateChanges JSON st.1 call.1 call.2 st.2 in
           (gameState, rnd))
        (gameState, rnd) calls.

(** What one bonus-map entry does to the lookup of [attr]. *)
Definition bump (attr : string) (acc : option Z) (entry : string * Z)
    : option Z :=
  if String.eqb entry.1 attr then Some (default 0 acc + entry.2) else acc.

(** ** Session view (app/game/[sessionId]/view.tsx) *)

(** The [useState] cells of [GameSessionView] that [handleSubmitAction]
    reads or writes. *)
Record SessionView := {
  gameData : option GameTableRow;
  scenarioTemplate : option DndScenario;
  view_finalAttributes : jsobj Z;
  userActionInput : string;
  isProcessing : bool;
  view_error : option string;
  dmThinking : bool
}.

(** [[...prev.state.dialogueHistory, entry]] inside [{...prev, state: ...}]. *)
Definition append_local (prev : GameTableRow) (entry : DialogueEntry)
    : GameTableRow :=
  {| row_id := row_id prev; user_id := user_id prev;
     scenario_id := scenario_id prev; name := name prev;
     state := push_dialogue (state prev) entry;
     created_at := created_at prev; updated_at := updated_at prev;
     is_active := is_active prev |}.

(** The updater of the [catch] block: the message is appended unless it is
    already the last entry. *)
Definition keep_user_message (prev : GameTableRow)
    (currentUserMessage : DialogueEntry) : GameTableRow :=
  match last (dialogueHistory (state prev)) with
  | Some lastEntry =>
      match role lastEntry with
      | user =>
          if String.eqb (text lastEntry) (text currentUserMessage)
          then prev
          else append_local prev currentUserMessage
      | dm => append_local prev currentUserMessage
      end
  | None => append_local prev currentUserMessage
  end.

Section SubmitAction.
(** [String.prototype.trim], the server action as the view receives it
    (what the awaited promise gives), and the clock at the two places it is
    read. *)
Context (trim : string -> string)
        (serverAction : string -> string -> Outcome)
        (typeError_message : string -> string)
        (now_message now_updated : string).

Definition handleSubmitAction (st : SessionView) : SessionView :=
  if String.eqb (trim (userActionInput st)) EmptyString
     || isProcessing st || dmThinking st
  then st
  else
    let currentUserMessage :=
      {| role := user; text := trim (userActionInput st);
         timestamp := now_message |} in
    let shown := (fun prev => append_local prev currentUserMessage)
                   <$> gameData st in
    match gameData st, scenarioTemplate st with
    | Some game, Some scenario =>
        match serverAction (row_id game) (text currentUserMessage) with
        | Returned updatedGameState =>
            let updated :=
              (fun prev => set_state prev updatedGameState now_updated)
                <$> shown in
            match calculateFinalAttributes (baseAttributes updatedGameState)
                    (selectedCustomizations updatedGameState) scenario with
            | Normal calculatedFinalAttributes =>
                {| gameData := updated;
                   scenarioTemplate := scenarioTemplate st;
                   view_finalAttributes := calculatedFinalAttributes;
                   userActionInput := EmptyString;
                   isProcessing := false;
                   view_error := None;
                   dmThinking := false |}
            | TypeError reading =>
                {| gameData :=
                     (fun prev => keep_user_message prev currentUserMessage)
                       <$> updated;
                   scenarioTemplate := scenarioTemplate st;
                   view_finalAttributes := view_finalAttributes st;
                   userActionInput := EmptyString;
                   isProcessing := false;
                   view_error :=
                     Some ("处理行动失败: "
                             ++ str_or (Some (typeError_message reading))
                                  "未知错误");
                   dmThinking := false |}
            end
        | Thrown message =>
            {| gameData :=
                 (fun prev => keep_user_message prev currentUserMessage)
                   <$> shown;
               scenarioTemplate := scenarioTemplate st;
               view_finalAttributes := view_finalAttributes st;
               userActionInput := EmptyString;
               isProcessing := false;
               view_error :=
                 Some ("处理行动失败: " ++ str_or (Some message) "未知错误");
               dmThinking := false |}
        end
    | _, _ =>
        {| gameData := shown;
           scenarioTemplate := scenarioTemplate st;
           view_finalAttributes := view_finalAttributes st;
           userActionInput := EmptyString;
           isProcessing := false;
           view_error := Some "游戏数据或场景模板未加载，请稍后再试。";
           dmThinking := false |}
    end.
End SubmitAction.

(** ** Home view (app/(index)/view.tsx) *)

(** The store as the queries of the view describe it: triggers and row
    policies of a deployment are not part of it. *)
Definition set_is_active (row : GameTableRow) (b : bool) : GameTableRow :=
  {| row_id := row_id row; user_id := user_id row;
     scenario_id := scenario_id row; name := name row;
     state := state row; created_at := created_at row;
     updated_at := updated_at row; is_active := b |}.

(** The columns [loadUserAndSaves] selects. *)
Record Save := {
  save_id : string;
  save_user_id : string;
  save_scenario_id : string;
  save_name : string;
  save_is_active : bool;
  save_updated_at : string
}.

Definition save_of_row (row : GameTableRow) : Save :=
  {| save_id := row_id row; save_user_id := user_id row;
     save_scenario_id := scenario_id row; save_name := name row;
     save_is_active := is_active row; save_updated_at := updated_at row |}.

(** The cells of [HomeView], and the routes pushed so far. *)
Record HomeView := {
  home_saves : list Save;
  home_user : option string;
  home_loading : bool;
  home_error : option string;
  home_pushed : list string
}.

(** The collaborators of the home view. *)
Record HomeEnv := {
  (** [supabase.auth.getSession()]: [authError.message], or the user id of
      the session. *)
  getSession : string + option string;
  (** The messages of [dbError], [resetError], [updateError] and
      [deleteError], when the query reports one. *)
  select_saves_error : option string;
  reset_error : option string;
  activate_error : option string;
  delete_error : option string;
  (** [.order("updated_at", { ascending: false })], done by the store. *)
  order_by_updated_desc : list GameTableRow -> list GameTableRow;
  (** The answer to [confirm(...)]. *)
  confirmed : bool
}.

Definition home_set (st : HomeView) (loading : bool) (e : option string)
    : HomeView :=
  {| home_saves := home_saves st; home_user := home_user st;
     home_loading := loading; home_error := e;
     home_pushed := home_pushed st |}.

(** [select ... .eq("user_id", uid).order(...)] *)
Definition select_saves (env : HomeEnv) (db : gmap string GameTableRow)
    (uid : string) : list Save :=
  save_of_row
    <$> order_by_updated_desc env
          (List.filter (fun row => String.eqb (user_id row) uid)
                       (map_to_list db).*2).

Definition loadUserAndSaves (env : HomeEnv) (db : gmap string GameTableRow)
    (st : HomeView) : HomeView :=
  match getSession env with
  | inl message =>
      {| home_saves := []; home_user := home_user st;
         home_loading := false;
         home_error := Some ("加载数据失败: " ++ message);
         home_pushed := home_pushed st |}
  | inr None =>
      {| home_saves := home_saves st; home_user := None;
         home_loading := false; home_error := None;
         home_pushed := (home_pushed st ++ ["/login"])%list |}
  | inr (Some uid) =>
      match select_saves_error env with
      | Some message =>
          {| home_saves := []; home_user := Some uid;
             home_loading := false;
             home_error := Some ("加载数据失败: " ++ message);
             home_pushed := home_pushed st |}
      | None =>
          let data := select_saves env db uid in
          {| home_saves := data; home_user := Some uid;
             home_loading := false;
             home_error :=
               match data with
               | [] => Some "您还没有任何游戏存档。"
               | _ => None
               end;
             home_pushed := home_pushed st |}
      end
  end.

(** Returns the view and the store after the call. *)
Definition loadSave (env : HomeEnv) (db : gmap string GameTableRow)
    (st : HomeView) (id : string) : HomeView * gmap string GameTableRow :=
  match home_user st with
  | None => (home_set st false (Some "请登录后才能加载存档。"), db)
  | Some uid =>
      match reset_error env with
      | Some message =>
          (home_set st false (Some ("加载存档失败: " ++ message)), db)
      | None =>
          let db :=
            (fun row =>
               if String.eqb (user_id row) uid
               then set_is_active row false else row) <$> db in
          match activate_error env with
          | Some message =>
              (home_set st false (Some ("加载存档失败: " ++ message)), db)
          | None =>
              let db := alter (fun row => set_is_active row true) id db in
              let st := loadUserAndSaves env db (home_set st true None) in
              ({| home_saves := home_saves st; home_user := home_user st;
                  home_loading := false; home_error := home_error st;
                  home_pushed := (home_pushed st ++ [("/game/" ++ id)%string])%list |},
               db)
          end
      end
  end.

Definition continueLatest (env : HomeEnv) (db : gmap string GameTableRow)
    (st : HomeView) : HomeView * gmap string GameTableRow :=
  match home_user st with
  | None => (home_set st (home_loading st) (Some "请登录后才能继续游戏。"), db)
  | Some _ =>
      match home_saves st with
      | [] =>
          (home_set st (home_loading st)
             (Some "没有可继续的存档。请创建新游戏。"), db)
      | first :: _ =>
          let activeSave :=
            default first (find_first save_is_active (home_saves st)) in
          loadSave env db (home_set st true (home_error st))
                   (save_id activeSave)
      end
  end.

Definition deleteSave (env : HomeEnv) (db : gmap string GameTableRow)
    (st : HomeView) (id : string) : HomeView * gmap string GameTableRow :=
  match home_user st with
  | None => (home_set st (home_loading st) (Some "请登录后才能删除存档。"), db)
  | Some uid =>
      if negb (confirmed env) then (st, db)
      else
        match delete_error env with
        | Some message =>
            (home_set st false (Some ("删除存档失败: " ++ message)), db)
        | None =>
            ({| home_saves :=
                  List.filter (fun s => negb (String.eqb (save_id s) id))
                              (home_saves st);
                home_user := home_user st; home_loading := false;
                home_error := Some "存档已删除。";
                home_pushed := home_pushed st |},
             match db !! id with
             | Some row =>
                 if String.eqb (user_id row) uid then delete id db else db
             | None => db
             end)
        end
  end.

(** ** Session middleware (lib/supabase/middleware.ts) *)

Inductive Response :=
| Next
| Redirect (pathname : string).

(** On the user of [supabase.auth.getUser()] and [request.nextUrl.pathname]. *)
Definition updateSession (currentUser : option string) (pathname : string)
    : Response :=
  match currentUser with
  | None =>
      if negb (String.prefix "/login" pathname)
         && negb (String.prefix "/auth" pathname)
      then Redirect "/login"
      else Next
  | Some _ => Next
  end.

(** The two invariants of the data model. *)
Definition positiveQuantities (inv : list InventoryItem) : Prop :=
  Forall (fun it => 0 < quantity it) inv.

Definition distinctSkillNames (skills : list PlayerSkill) : Prop :=
  NoDup (skillName <$> skills).

(** The two entries a turn appends to the dialogue history. *)
Definition userEntry (env : Env) (userAction : string) : DialogueEntry :=
  {| role := user; text := userAction; timestamp := now_user env |}.

Definition dmEntry (env : Env) (dmNarrative : string) : DialogueEntry :=
  {| role := dm; text := dmNarrative; timestamp := now_dm env |}.

(** What holds of the form whatever the user has done with it. *)
Definition formInvariant (scenario : DndScenario) (st : FormState) : Prop :=
  obj_keys (baseAttributeValues st) = obj_keys (initialAttrs scenario)
  /\ Forall (fun e : string * Z => BASE_ATTRIBUTE_VALUE <= e.2)
            (baseAttributeValues st)
  /\ sumZ (baseAttributeValues st).*2 + remainingPoints st
     = BASE_ATTRIBUTE_VALUE * Z.of_nat (length (baseAttributeValues st))
       + TOTAL_BONUS_POINTS
  /\ (length (selectedSkills st) <= MAX_STARTING_SKILLS)%nat
  /\ distinctSkillNames (selectedSkills st)
  /\ Forall (fun s => level s = Some 1) (selectedSkills st).

(** ** Sample data *)

(** A scenario with two attributes, one customization category and two
    skills. *)
Definition sampleScenario : DndScenario :=
  {| sc_id := "tavern";
     Dnd_Scenario := "The Tavern";
     attributes := [("Strength", "Physical power"); ("Agility", "Speed")];
     baseSkills :=
       [("stealth", {| skill_attribute := "Agility";
                       skill_description := "Move unseen" |});
        ("brawl", {| skill_attribute := "Strength";
                     skill_description := "Fight bare-handed" |})];
     startingPoint := "The common room";
     playerCustomizations :=
       [("background",
         {| cat_description := "Background";
            content :=
              [("soldier", {| opt_description := "Served in the guard";
                              attributeBonus := [("Strength", 2)] |});
               ("thief", {| opt_description := "Grew up on the streets";
                            attributeBonus := [("Agility", 2)] |})] |})] |}.

(** A printer for the examples; no property depends on what it prints. *)
Definition sampleJson : JsonPrinter :=
  {| stringify_items := fun _ => "[items]";
     stringify_attributes := fun _ => "[attributes]";
     stringify_skills := fun _ => "[skills]";
     stringify_flags := fun _ => "[flags]";
     stringify_member := fun name =>
       if String.eqb name "__proto__" then "[object Object]"
       else "function "
              ++ (if String.eqb name "constructor" then "Object" else name)
              ++ "() { [native code] }" |}.

(** A random source whose every sample is [u]. *)
Definition constantRandom (u : Q) : Random :=
  {| samples := fun _ => u; cursor := 0 |}.

(** A delta with item changes only, and so on. *)
Definition itemDelta (l : list ItemChange) : Changes :=
  {| relevantAttribute := None; difficultyClass := None;
     itemChanges := Some l; attributeChanges := None; skillChanges := None;
     locationUpdate := None; storyFlags := None; requiresDiceRoll := None |}.

Definition skillDelta (l : list SkillChange) : Changes :=
  {| relevantAttribute := None; difficultyClass := None;
     itemChanges := None; attributeChanges := None; skillChanges := Some l;
     locationUpdate := None; storyFlags := None; requiresDiceRoll := None |}.

Definition locationDelta (l : string) : Changes :=
  {| relevantAttribute := None; difficultyClass := None;
     itemChanges := None; attributeChanges := None; skillChanges := None;
     locationUpdate := Some l; storyFlags := None; requiresDiceRoll := None |}.


Definition sampleIntro : DialogueEntry :=
  {| role := dm; text := "Welcome."; timestamp := "2025-01-01T00:00:00.000Z" |}.

(** A state of a running game in [sampleScenario]. *)
Definition sampleState : GameState :=
  {| scenarioId := "tavern";
     scenarioName := "The Tavern";
     baseAttributes := [("Strength", 5); ("Agility", 5)];
     selectedCustomizations := [("background", "soldier")];
     currentLocation := "The common room";
     playerCharacterName := Some "Bob";
     inventory := [ {| item := "sword"; quantity := 1 |} ];
     playerSkills :=
       [ {| skillName := "brawl"; level := Some 1;
            description := Some "Fight bare-handed" |} ];
     gameProgression := [];
     dialogueHistory := [sampleIntro] |}.

Definition sampleRow : GameTableRow :=
  {| row_id := "s1"; user_id := "alice"; scenario_id := "tavern";
     name := "Bob"; state := sampleState;
     created_at := "2025-01-01T00:00:00.000Z";
     updated_at := "2025-01-01T00:00:00.000Z"; is_active := true |}.

Definition sampleDb : gmap string GameTableRow := {[ "s1" := sampleRow ]}.

(** An environment in which [alice] is logged in, the store works, and the
    narration service throws at the calls listed in [failing] (1, 2 or 3)
    and answers otherwise. *)
Definition sampleEnv (failing : list nat) : Env :=
  {| auth_getUser := Some "alice";
     select_error := false;
     update_error := false;
     playerActionParser := fun _ _ _ _ =>
       if bool_decide (1%nat ∈ failing) then inl "timeout"
       else inr (itemDelta [ {| ic_item := "potion"; quantityChange := 1 |} ]);
     dmNarrativeGenerator := fun _ _ _ _ _ =>
       if bool_decide (2%nat ∈ failing) then inl "timeout"
       else inr (Some "The cellar door creaks open.");
     dmStateChangeParser := fun _ _ _ =>
       if bool_decide (3%nat ∈ failing) then inl "Unexpected token"
       else inr (locationDelta "The cellar");
     now_user := "2025-01-02T10:00:00.000Z";
     now_dm := "2025-01-02T10:00:05.000Z";
     now_update := "2025-01-02T10:00:06.000Z";
     typeError_message := fun reading =>
       "Cannot read properties of undefined (reading '" ++ reading ++ "')" |}.

(** The same with nobody logged in. *)
Definition anonymousEnv : Env :=
  {| auth_getUser := None;
     select_error := false;
     update_error := false;
     playerActionParser := playerActionParser (sampleEnv []);
     dmNarrativeGenerator := dmNarrativeGenerator (sampleEnv []);
     dmStateChangeParser := dmStateChangeParser (sampleEnv []);
     now_user := now_user (sampleEnv []);
     now_dm := now_dm (sampleEnv []);
     now_update := now_update (sampleEnv []);
     typeError_message := typeError_message (sampleEnv []) |}.

(** A player logs in, names the character, puts all ten points on
    Strength, picks one skill. *)
Definition sampleEvents : list FormEvent :=
  [SetUser (Some "alice"); SetGameName "Bob"]
    ++ replicate 10 (AttributeClick "Strength" 1)
    ++ [SkillClick "stealth"].

(** Two deltas on the inventory and two on the skills. *)
Definition sampleItemCalls : list (Changes * jsobj Z) :=
  [ (itemDelta [ {| ic_item := "potion"; quantityChange := 2 |};
                 {| ic_item := "sword"; quantityChange := -3 |} ], []);
    (itemDelta [ {| ic_item := "potion"; quantityChange := -1 |};
                 {| ic_item := "rope"; quantityChange := 0 |} ], []) ].

Definition sampleSkillCalls : list (Changes * jsobj Z) :=
  [ (skillDelta [ {| sk_skillName := "stealth"; type := learn;
                     value := None |};
                  {| sk_skillName := "brawl"; type := learn;
                     value := Some 4 |} ], []);
    (skillDelta [ {| sk_skillName := "brawl"; type := forget;
                     value := None |};
                  {| sk_skillName := "stealth"; type := improve;
                     value := Some 2 |} ], []) ].

(** A name whose read [o[k]] is decided by the entries of [o]: the object
    has an entry of that name, or [Object.prototype] has no member of it. *)
Definition ownOrPlain {V : Type} (k : string) (o : jsobj V) : Prop :=
  is_Some (obj_get k o) \/ k ∉ objectPrototype.

(** Selections whose category reads are all of that kind. *)
Definition readable (customs : jsobj string) (sc : DndScenario) : Prop :=
  Forall (fun sel : string * string =>
            ownOrPlain sel.1 (playerCustomizations sc)) customs.



(** A name made of decimal digits only: the names an engine may enumerate
    ahead of the others. *)
Definition integerLike (k : string) : bool :=
  negb (String.eqb k EmptyString)
  && forallb (fun c => (48 <=? nat_of_ascii c)%nat
                       && (nat_of_ascii c <=? 57)%nat)
             (list_ascii_of_string k).


(** Two further properties of a state: item names pairwise distinct, and
    no skill level below zero. *)
Definition distinctItemNames (inv : list InventoryItem) : Prop :=
  NoDup (item <$> inv).

Definition nonnegativeLevels (skills : list PlayerSkill) : Prop :=
  Forall (fun s => forall l, level s = Some l -> 0 <= l) skills.


Definition writesOf (f : string) (changes : Changes) : list StoryFlag :=
  filter (fun sf => flag sf = f) (default [] (storyFlags changes)).

(** A state that satisfies the invariants of the data model. *)
Definition wellFormedState (gs : GameState) : Prop :=
  positiveQuantities (inventory gs)
  /\ distinctItemNames (inventory gs)
  /\ distinctSkillNames (playerSkills gs).

(** The sample environment with the store refusing the final write. *)
Definition storeDownEnv : Env :=
  {| auth_getUser := Some "alice";
     select_error := false;
     update_error := true;
     playerActionParser := playerActionParser (sampleEnv []);
     dmNarrativeGenerator := dmNarrativeGenerator (sampleEnv []);
     dmStateChangeParser := dmStateChangeParser (sampleEnv []);
     now_user := now_user (sampleEnv []);
     now_dm := now_dm (sampleEnv []);
     now_update := now_update (sampleEnv []);
     typeError_message := typeError_message (sampleEnv []) |}.

(** A store in which every row sits under its own id, and an ordering
    that neither drops nor invents rows. *)
Definition keyedById (db : gmap string GameTableRow) : Prop :=
  map_Forall (fun k row => row_id row = k) db.

Definition keepsRows (order : list GameTableRow -> list GameTableRow)
    : Prop :=
  forall l row, row ∈ order l <-> row ∈ l.

(** Two saves of [alice] and one of [bob], the home view of [alice], and a
    store that fails where asked. *)
Definition saveRow (id uid : string) (active : bool) : GameTableRow :=
  {| row_id := id; user_id := uid; scenario_id := "tavern";
     name := "Bob"; state := sampleState;
     created_at := "2025-01-01T00:00:00.000Z";
     updated_at := "2025-01-01T00:00:00.000Z"; is_active := active |}.

Definition homeDb : gmap string GameTableRow :=
  {[ "s1" := saveRow "s1" "alice" true;
     "s2" := saveRow "s2" "alice" false;
     "s3" := saveRow "s3" "bob" true ]}.

Definition homeEnv (reset activate : option string) : HomeEnv :=
  {| getSession := inr (Some "alice");
     select_saves_error := None;
     reset_error := reset;
     activate_error := activate;
     delete_error := None;
     order_by_updated_desc := fun l => l;
     confirmed := true |}.

Definition homeView : HomeView :=
  {| home_saves := save_of_row <$> [saveRow "s1" "alice" true;
                                    saveRow "s2" "alice" false];
     home_user := Some "alice"; home_loading := false;
     home_error := None; home_pushed := [] |}.

(** The session view of [sampleRow] with an action typed in. *)
Definition sessionView (scenario : option DndScenario) : SessionView :=
  {| gameData := Some sampleRow;
     scenarioTemplate := scenario;
     view_finalAttributes := [("Strength", 7); ("Agility", 5)];
     userActionInput := "open the cellar door";
     isProcessing := false; view_error := None; dmThinking := false |}.

(** * Properties *)

(** ** Objects *)

Lemma obj_get_set {V : Type} (k k' : string) (v : V) (o : jsobj V) :
  obj_get k' (obj_set k v o) =
  if String.eqb k k' then Some v else obj_get k' o.
Proof.
  induction o as [|[k0 v0] o IH]; simpl.
  - reflexivity.
  - destruct (String.eqb_spec k0 k) as [->|Hne]; simpl.
    + destruct (String.eqb k k'); reflexivity.
    + rewrite IH. destruct (String.eqb_spec k0 k') as [->|Hne'].
      * apply String.eqb_neq in Hne. rewrite String.eqb_sym in Hne.
        now rewrite Hne.
      * reflexivity.
Qed.

Lemma obj_get_set_eq {V : Type} (k : string) (v : V) (o : jsobj V) :
  obj_get k (obj_set k v o) = Some v.
Proof. rewrite obj_get_set. now rewrite String.eqb_refl. Qed.

Lemma obj_get_set_ne {V : Type} (k k' : string) (v : V) (o : jsobj V) :
  k <> k' -> obj_get k' (obj_set k v o) = obj_get k' o.
Proof.
  intros Hne. rewrite obj_get_set.
  apply String.eqb_neq in Hne. now rewrite Hne.
Qed.

Lemma obj_get_Some_keys {V : Type} (k : string) (o : jsobj V) :
  k ∈ obj_keys o <-> is_Some (obj_get k o).
Proof.
  unfold obj_keys. induction o as [|[k0 v0] o IH]; simpl.
  - split; [intros H; inversion H | intros [? ?]; discriminate].
  - rewrite elem_of_cons, IH.
    destruct (String.eqb_spec k0 k) as [->|Hne].
    + split; eauto.
    + split; [intros [Heq|?]; [now symmetry in Heq | assumption] | eauto].
Qed.

(** Writing an existing key keeps the keys and their order. *)
Lemma obj_keys_set_present {V : Type} (k : string) (v : V) (o : jsobj V) :
  k ∈ obj_keys o -> obj_keys (obj_set k v o) = obj_keys o.
Proof.
  unfold obj_keys. induction o as [|[k0 v0] o IH]; simpl; intros Hin.
  - inversion Hin.
  - destruct (String.eqb_spec k0 k) as [->|Hne]; simpl; [reflexivity|].
    f_equal. apply IH. apply elem_of_cons in Hin as [->|?]; [congruence | assumption].
Qed.

(** Writing a new key appends it. *)
Lemma obj_set_absent {V : Type} (k : string) (v : V) (o : jsobj V) :
  obj_get k o = None -> obj_set k v o = (o ++ [(k, v)])%list.
Proof.
  induction o as [|[k0 v0] o IH]; simpl; intros Hget; [reflexivity|].
  destruct (String.eqb k0 k); [discriminate|]. now rewrite IH.
Qed.

(** ** Attribute resolver *)

Lemma member_own {V : Type} (k : string) (o : jsobj V) (v : V) :
  obj_get k o = Some v -> member k o = Own v.
Proof. unfold member. now intros ->. Qed.

Lemma member_missing {V : Type} (k : string) (o : jsobj V) :
  obj_get k o = None -> k ∉ objectPrototype -> member k o = Missing.
Proof.
  unfold member. intros -> Hk. now rewrite bool_decide_eq_false_2.
Qed.

Lemma member_inherited {V : Type} (k : string) (o : jsobj V) :
  obj_get k o = None -> k ∈ objectPrototype -> member k o = Inherited.
Proof.
  unfold member. intros -> Hk. now rewrite bool_decide_eq_true_2.
Qed.

(** A read decided by the entries. *)
Lemma member_ownOrPlain {V : Type} (k : string) (o : jsobj V) :
  ownOrPlain k o ->
  member k o = match obj_get k o with
               | Some v => Own v
               | None => Missing
               end.
Proof.
  intros [[v Hv]|Hk].
  - rewrite Hv. now apply member_own.
  - destruct (obj_get k o) as [v|] eqn:Hv;
      [now apply member_own | now apply member_missing].
Qed.

Lemma ownOrPlain_set {V : Type} (k k' : string) (v : V) (o : jsobj V) :
  ownOrPlain k o -> ownOrPlain k (obj_set k' v o).
Proof.
  intros [[v0 Hv]|Hk]; [left | now right].
  rewrite obj_get_set. destruct (String.eqb k' k); [eauto|]. rewrite Hv. eauto.
Qed.

Lemma ownOrPlain_addBonus (attr : string) (o : jsobj Z) (entry : string * Z) :
  ownOrPlain attr o -> ownOrPlain attr (addBonus o entry).
Proof.
  destruct entry as [k b]. unfold addBonus. intros Hattr.
  destruct (member k o); [|assumption|]; now apply ownOrPlain_set.
Qed.

Lemma obj_get_addBonus (attr : string) (o : jsobj Z) (entry : string * Z) :
  ownOrPlain attr o ->
  obj_get attr (addBonus o entry) = bump attr (obj_get attr o) entry.
Proof.
  destruct entry as [k b]. unfold addBonus, bump. cbn [fst snd].
  intros Hattr. destruct (String.eqb_spec k attr) as [->|Hne].
  - rewrite (member_ownOrPlain _ _ Hattr).
    destruct (obj_get attr o) as [v|]; now rewrite obj_get_set_eq.
  - destruct (member k o); [|reflexivity|]; now apply obj_get_set_ne.
Qed.

(** Under a name that only [Object.prototype] knows no number is stored. *)
Lemma obj_get_addBonus_inherited (attr : string) (o : jsobj Z)
    (entry : string * Z) :
  obj_get attr o = None -> attr ∈ objectPrototype ->
  obj_get attr (addBonus o entry) = None.
Proof.
  destruct entry as [k b]. unfold addBonus. intros Hnone Hin.
  destruct (String.eqb_spec k attr) as [->|Hne].
  - now rewrite (member_inherited _ _ Hnone Hin).
  - destruct (member k o); [|assumption|];
      now rewrite obj_get_set_ne by assumption.
Qed.

Lemma sumZ_cons (x : Z) (l : list Z) : sumZ (x :: l) = x + sumZ l.
Proof. reflexivity. Qed.

Lemma sumZ_app (l1 l2 : list Z) : sumZ (l1 ++ l2) = sumZ l1 + sumZ l2.
Proof. unfold sumZ. induction l1; simpl; lia. Qed.

Lemma withBonuses_nil (x : option Z) : withBonuses x [] = x.
Proof. destruct x; simpl; [f_equal; unfold sumZ; simpl; lia | reflexivity]. Qed.

Lemma withBonuses_cons (x : option Z) (b : Z) (bs : list Z) :
  withBonuses (Some (default 0 x + b)) bs = withBonuses x (b :: bs).
Proof.
  unfold withBonuses.
  destruct x, bs; simpl; f_equal; unfold sumZ; simpl; lia.
Qed.

Lemma withBonuses_app (x : option Z) (l1 l2 : list Z) :
  withBonuses (withBonuses x l1) l2 = withBonuses x (l1 ++ l2).
Proof.
  revert x. induction l1 as [|b l1 IH]; intros x; simpl.
  - now rewrite withBonuses_nil.
  - rewrite <- !withBonuses_cons. apply IH.
Qed.

Lemma foldl_bump (attr : string) (bonus : jsobj Z) (acc : option Z) :
  foldl (bump attr) acc bonus =
  withBonuses acc (filter (fun e => e.1 = attr) bonus).*2.
Proof.
  revert acc. induction bonus as [|[k b] bonus IH]; intros acc.
  - simpl. now rewrite withBonuses_nil.
  - cbn [foldl]. rewrite IH. unfold bump. cbn [fst snd].
    destruct (String.eqb_spec k attr) as [->|Hne].
    + rewrite filter_cons_True by reflexivity.
      rewrite fmap_cons. cbn [snd]. apply withBonuses_cons.
    + now rewrite filter_cons_False by assumption.
Qed.

Lemma ownOrPlain_foldl_addBonus (attr : string) (bonus : jsobj Z)
    (o : jsobj Z) :
  ownOrPlain attr o -> ownOrPlain attr (foldl addBonus o bonus).
Proof.
  revert o. induction bonus as [|e bonus IH]; intros o Ho; [assumption|].
  cbn [foldl]. now apply IH, ownOrPlain_addBonus.
Qed.

Lemma obj_get_foldl_addBonus (attr : string) (bonus : jsobj Z) (o : jsobj Z) :
  ownOrPlain attr o ->
  obj_get attr (foldl addBonus o bonus) =
  withBonuses (obj_get attr o) (filter (fun e => e.1 = attr) bonus).*2.
Proof.
  rewrite <- foldl_bump.
  revert o. induction bonus as [|e bonus IH]; intros o Ho; [reflexivity|].
  cbn [foldl]. rewrite IH by now apply ownOrPlain_addBonus.
  now rewrite obj_get_addBonus.
Qed.

Lemma obj_get_foldl_addBonus_inherited (attr : string) (bonus : jsobj Z)
    (o : jsobj Z) :
  obj_get attr o = None -> attr ∈ objectPrototype ->
  obj_get attr (foldl addBonus o bonus) = None.
Proof.
  revert o. induction bonus as [|e bonus IH]; intros o Ho Hin; [assumption|].
  cbn [foldl]. apply IH; [|assumption].
  now apply obj_get_addBonus_inherited.
Qed.

(** The reads of lines 16 to 18 against the words of the specification. *)
Lemma selectedBonus_readable (sc : DndScenario) (c s : string) :
  ownOrPlain c (playerCustomizations sc) ->
  selectedBonus sc c s
  = Normal (if bothExist sc (c, s) then Some (bonusOf sc (c, s)) else None).
Proof.
  intros Hc. unfold selectedBonus, bothExist, bonusOf. cbn [fst snd].
  rewrite (member_ownOrPlain _ _ Hc).
  destruct (obj_get c (playerCustomizations sc)) as [category|];
    [|reflexivity].
  unfold member.
  destruct (obj_get s (content category)) as [opt|]; [reflexivity|].
  now destruct (bool_decide (s ∈ objectPrototype)).
Qed.

Lemma selectedBonus_inherited (sc : DndScenario) (c s : string) :
  obj_get c (playerCustomizations sc) = None -> c ∈ objectPrototype ->
  selectedBonus sc c s = TypeError s.
Proof.
  intros Hnone Hin. unfold selectedBonus.
  now rewrite (member_inherited _ _ Hnone Hin).
Qed.

Lemma bonusOf_absent (sc : DndScenario) (sel : string * string) :
  bothExist sc sel = false -> bonusOf sc sel = [].
Proof.
  unfold bothExist, bonusOf.
  destruct (obj_get sel.1 (playerCustomizations sc)) as [category|];
    [|reflexivity].
  now destruct (obj_get sel.2 (content category)).
Qed.

Lemma bothExist_ownOrPlain (sc : DndScenario) (sel : string * string) :
  bothExist sc sel = true -> ownOrPlain sel.1 (playerCustomizations sc).
Proof.
  unfold bothExist. left.
  destruct (obj_get sel.1 (playerCustomizations sc)); [eauto | discriminate].
Qed.

(** A call on readable selections returns, and its result against the
    specification, for any accumulated object. *)
Lemma forSelections_readable (sc : DndScenario) (customs : jsobj string)
    (o : jsobj Z) :
  readable customs sc ->
  exists final,
    forSelections sc o customs = Normal final
    /\ (forall attr,
          ownOrPlain attr o -> obj_get attr final = resolve_spec o customs sc attr)
    /\ (forall attr,
          obj_get attr o = None -> attr ∈ objectPrototype ->
          obj_get attr final = None)
    /\ forSelections sc o (List.filter (bothExist sc) customs) = Normal final.
Proof.
  unfold resolve_spec.
  intros Hread. revert o.
  induction Hread as [|[c s] customs Hc _ IH]; intros o.
  - exists o. split; [reflexivity|]. split; [|now split].
    intros attr _. now rewrite withBonuses_nil.
  - cbn [fst] in Hc. cbn [forSelections List.filter].
    rewrite (selectedBonus_readable sc c s Hc).
    unfold bonusesFor. setoid_rewrite bind_cons.
    fold bonusesFor. cbn [fst snd].
    destruct (bothExist sc (c, s)) eqn:Hex.
    + destruct (IH (foldl addBonus o (bonusOf sc (c, s))))
        as (final & Hrun & Hspec & Hinh & Hfilter).
      exists final. split; [assumption|]. split; [|split].
      * intros attr Hattr.
        rewrite Hspec by now apply ownOrPlain_foldl_addBonus.
        rewrite obj_get_foldl_addBonus by assumption.
        unfold bonusesFor. apply withBonuses_app.
      * intros attr Hnone Hin. apply Hinh; [|assumption].
        now apply obj_get_foldl_addBonus_inherited.
      * cbn [forSelections]. rewrite (selectedBonus_readable sc c s Hc), Hex.
        exact Hfilter.
    + destruct (IH o) as (final & Hrun & Hspec & Hinh & Hfilter).
      exists final. split; [assumption|]. split; [|split].
      * intros attr Hattr. rewrite (bonusOf_absent sc (c, s) Hex).
        apply (Hspec attr Hattr).
      * exact Hinh.
      * exact Hfilter.
Qed.

(** A call returns only on readable selections, whatever the base map. *)
Lemma forSelections_Normal (sc : DndScenario) (customs : jsobj string)
    (o final : jsobj Z) :
  forSelections sc o customs = Normal final -> readable customs sc.
Proof.
  revert o. induction customs as [|[c s] customs IH]; intros o Hrun.
  - constructor.
  - cbn [forSelections] in Hrun.
    assert (ownOrPlain c (playerCustomizations sc)) as Hc.
    { destruct (obj_get c (playerCustomizations sc)) as [category|] eqn:Hget;
        [left; eauto|].
      right. intros Hin.
      rewrite (selectedBonus_inherited sc c s Hget Hin) in Hrun.
      discriminate. }
    constructor; [exact Hc|].
    destruct (selectedBonus sc c s) as [[bonus|]|]; [| |discriminate];
      eapply IH; eassumption.
Qed.

Lemma calculateFinalAttributes_returns (sc : DndScenario)
    (customs : jsobj string) (o o' final : jsobj Z) :
  calculateFinalAttributes o customs sc = Normal final ->
  exists final', calculateFinalAttributes o' customs sc = Normal final'.
Proof.
  intros Hrun. apply forSelections_Normal in Hrun.
  destruct (forSelections_readable sc customs o' Hrun) as (final' & H & _).
  eauto.
Qed.





(** ** State delta applier *)

Lemma findIndex_Some {A : Type} (p : A -> bool) (l : list A) (i : nat) :
  findIndex p l = Some i ->
  exists x, l !! i = Some x /\ p x = true
            /\ forall j y, (j < i)%nat -> l !! j = Some y -> p y = false.
Proof.
  revert i. induction l as [|a l IH]; intros i Hfind; simpl in Hfind.
  - discriminate.
  - destruct (p a) eqn:Hpa.
    + injection Hfind as <-. exists a. repeat split; [assumption|].
      intros j y Hj. lia.
    + destruct (findIndex p l) as [i'|]; [|discriminate].
      injection Hfind as <-. destruct (IH i' eq_refl) as (x & Hx & Hpx & Hlt).
      exists x. repeat split; [assumption..|].
      intros [|j] y Hj Hy; simpl in Hy.
      * congruence.
      * apply (Hlt j); [lia | assumption].
Qed.

Lemma findIndex_None {A : Type} (p : A -> bool) (l : list A) :
  findIndex p l = None <-> Forall (fun x => p x = false) l.
Proof.
  induction l as [|a l IH]; simpl.
  - split; [constructor | reflexivity].
  - destruct (p a) eqn:Hpa.
    + split; [discriminate|]. intros H. inversion H; congruence.
    + destruct (findIndex p l) as [i|]; simpl.
      * split; [discriminate|]. intros H. inversion H; subst.
        apply IH in H3. discriminate.
      * split; [|reflexivity]. intros _. constructor; [assumption|].
        now apply IH.
Qed.

(** [findIndex] returns the first index that satisfies the predicate. *)
Lemma findIndex_first {A : Type} (p : A -> bool) (l : list A) (i : nat)
    (x : A) :
  l !! i = Some x -> p x = true ->
  (forall j y, (j < i)%nat -> l !! j = Some y -> p y = false) ->
  findIndex p l = Some i.
Proof.
  revert i. induction l as [|a l IH]; intros i Hx Hpx Hlt.
  - discriminate.
  - destruct i as [|i]; simpl in *.
    + injection Hx as ->. now rewrite Hpx.
    + rewrite (Hlt 0%nat a) by (reflexivity || lia).
      rewrite (IH i); [reflexivity | assumption..|].
      intros j y Hj Hy. apply (Hlt (S j)); [lia | assumption].
Qed.

Lemma list_delete_alter {A : Type} (f : A -> A) (l : list A) (i : nat) :
  delete i (alter f i l) = delete i l.
Proof.
  revert i. induction l as [|a l IH]; intros [|i]; simpl; try reflexivity.
  f_equal. apply IH.
Qed.

Lemma list_alter_insert {A : Type} (f : A -> A) (l : list A) (i : nat)
    (x : A) :
  l !! i = Some x -> alter f i l = <[i := f x]> l.
Proof.
  revert i. induction l as [|a l IH]; intros [|i] Hx; simpl in *;
    try discriminate.
  - now injection Hx as ->.
  - f_equal. now apply IH.
Qed.

(** *** Items *)

Lemma applyItemChange_found (inv : list InventoryItem) (change : ItemChange)
    (i : nat) (it : InventoryItem) :
  inv !! i = Some it -> item it = ic_item change ->
  (forall j it', (j < i)%nat -> inv !! j = Some it' ->
                 item it' <> ic_item change) ->
  applyItemChange inv change =
  if quantity it + quantityChange change <=? 0
  then delete i inv
  else <[i := {| item := item it;
                 quantity := quantity it + quantityChange change |}]> inv.
Proof.
  intros Hit Hname Hfirst. unfold applyItemChange.
  rewrite (findIndex_first _ inv i it); [|assumption| |].
  - rewrite list_lookup_alter_eq, Hit. simpl.
    destruct (quantity it + quantityChange change <=? 0).
    + apply list_delete_alter.
    + now rewrite (list_alter_insert _ _ _ it Hit).
  - now apply String.eqb_eq.
  - intros j y Hj Hy. apply String.eqb_neq. now apply (Hfirst j).
Qed.

Lemma applyItemChange_missing (inv : list InventoryItem)
    (change : ItemChange) :
  ic_item change ∉ item <$> inv ->
  applyItemChange inv change =
  if 0 <? quantityChange change
  then (inv ++ [ {| item := ic_item change;
                    quantity := quantityChange change |} ])%list
  else inv.
Proof.
  intros Hnot. unfold applyItemChange.
  assert (findIndex (fun it => String.eqb (item it) (ic_item change)) inv
          = None) as ->; [|reflexivity].
  apply findIndex_None, Forall_forall. intros it Hin.
  apply String.eqb_neq. intros Heq. apply Hnot.
  rewrite <- Heq. now apply list_elem_of_fmap_2.
Qed.

Lemma applyItemChange_positive (inv : list InventoryItem)
    (change : ItemChange) :
  positiveQuantities inv -> positiveQuantities (applyItemChange inv change).
Proof.
  unfold positiveQuantities, applyItemChange. intros Hpos.
  destruct (findIndex _ inv) as [i|] eqn:Hfind.
  - apply findIndex_Some in Hfind as (it & Hit & _).
    rewrite list_lookup_alter_eq, Hit. simpl.
    destruct (Z.leb_spec (quantity it + quantityChange change) 0).
    + rewrite list_delete_alter. now apply Forall_delete.
    + apply Forall_alter; [assumption|].
      intros x Hx _. simpl. congruence.
  - destruct (Z.ltb_spec 0 (quantityChange change)); [|assumption].
    apply Forall_app. split; [assumption|]. now repeat constructor.
Qed.

Lemma foldl_applyItemChange_positive (l : list ItemChange)
    (inv : list InventoryItem) :
  positiveQuantities inv ->
  positiveQuantities (foldl applyItemChange inv l).
Proof.
  revert inv. induction l as [|c l IH]; intros inv Hpos; simpl.
  - assumption.
  - now apply IH, applyItemChange_positive.
Qed.

(** *** Skills *)

Lemma skillName_alter_set_level (g : PlayerSkill -> Z)
    (skills : list PlayerSkill) (i : nat) :
  skillName <$> alter (fun s => set_level s (g s)) i skills
  = skillName <$> skills.
Proof.
  rewrite (list_fmap_alter _ _ (fun n => n)).
  - now apply list_alter_id.
  - apply Forall_forall. reflexivity.
Qed.

Lemma applySkillChange_distinct (skills : list PlayerSkill)
    (change : SkillChange) :
  distinctSkillNames skills ->
  distinctSkillNames (applySkillChange skills change).
Proof.
  unfold distinctSkillNames, applySkillChange. intros Hnd.
  destruct (findIndex _ skills) as [i|] eqn:Hfind.
  - destruct (type change), (value change);
      rewrite ?skillName_alter_set_level; try assumption;
      rewrite list_fmap_delete;
      apply (sublist_NoDup _ _ Hnd), sublist_delete.
  - destruct (type change); try assumption.
    rewrite fmap_app. apply NoDup_app. split; [assumption|].
    split; [|apply NoDup_singleton].
    intros n Hin Hn. apply list_elem_of_singleton in Hn. subst n.
    apply list_elem_of_fmap in Hin as (s & Hs & Hin). simpl in Hs.
    apply findIndex_None in Hfind.
    rewrite Forall_forall in Hfind. specialize (Hfind s Hin).
    apply String.eqb_neq in Hfind. congruence.
Qed.

Lemma foldl_applySkillChange_distinct (l : list SkillChange)
    (skills : list PlayerSkill) :
  distinctSkillNames skills ->
  distinctSkillNames (foldl applySkillChange skills l).
Proof.
  revert skills. induction l as [|c l IH]; intros skills Hnd; simpl.
  - assumption.
  - now apply IH, applySkillChange_distinct.
Qed.

(** A [learn] of a name already in the list changes nothing. *)
Lemma applySkillChange_learn_present (skills : list PlayerSkill)
    (n : string) (v : option Z) :
  n ∈ skillName <$> skills ->
  applySkillChange skills {| sk_skillName := n; type := learn; value := v |}
  = skills.
Proof.
  intros Hin. unfold applySkillChange. simpl.
  destruct (findIndex _ skills) as [i|] eqn:Hfind.
  - now destruct v.
  - exfalso. apply list_elem_of_fmap in Hin as (s & -> & Hin).
    apply findIndex_None in Hfind. rewrite Forall_forall in Hfind.
    specialize (Hfind s Hin). simpl in Hfind.
    now rewrite String.eqb_refl in Hfind.
Qed.

(** An [improve] or [deteriorate] without a value changes nothing. *)
Lemma applySkillChange_no_value (skills : list PlayerSkill)
    (change : SkillChange) :
  type change = improve \/ type change = deteriorate ->
  value change = None ->
  applySkillChange skills change = skills.
Proof.
  intros Hty Hval. unfold applySkillChange. rewrite Hval.
  destruct (findIndex _ skills); destruct Hty as [-> | ->]; reflexivity.
Qed.

Lemma foldl_applySkillChange_no_value (l : list SkillChange)
    (skills : list PlayerSkill) :
  Forall (fun change =>
            (type change = improve \/ type change = deteriorate)
            /\ value change = None) l ->
  foldl applySkillChange skills l = skills.
Proof.
  intros Hall. revert skills.
  induction Hall as [|change l [Hty Hval] _ IH]; intros skills; simpl.
  - reflexivity.
  - rewrite applySkillChange_no_value by assumption. apply IH.
Qed.

(** *** What the applier does to each field *)

(** Case analysis on the five guards of the applier. *)
Ltac applier_cases changes :=
  unfold applyUpdates, applyItems, applyAttributes, applySkills,
    applyLocation, applyFlags;
  destruct (itemChanges changes) as [[|? ?]|],
    (attributeChanges changes) as [[|? ?]|],
    (skillChanges changes) as [[|? ?]|],
    (truthy_str (locationUpdate changes)),
    (storyFlags changes) as [[|? ?]|]; simpl; reflexivity.

Section ApplierFields.
Context (JSON : JsonPrinter).

Lemma applyUpdates_inventory (gs : GameState) (changes : Changes) :
  inventory (applyUpdates JSON gs changes).1
  = foldl applyItemChange (inventory gs) (default [] (itemChanges changes)).
Proof.
  applier_cases changes.
Qed.

Lemma applyUpdates_playerSkills (gs : GameState) (changes : Changes) :
  playerSkills (applyUpdates JSON gs changes).1
  = foldl applySkillChange (playerSkills gs)
          (default [] (skillChanges changes)).
Proof.
  applier_cases changes.
Qed.

Lemma applyUpdates_currentLocation (gs : GameState) (changes : Changes) :
  currentLocation (applyUpdates JSON gs changes).1
  = default (currentLocation gs) (truthy_str (locationUpdate changes)).
Proof.
  applier_cases changes.
Qed.

Lemma applyUpdates_dialogueHistory (gs : GameState) (changes : Changes) :
  dialogueHistory (applyUpdates JSON gs changes).1 = dialogueHistory gs.
Proof.
  applier_cases changes.
Qed.

Lemma applyUpdates_selectedCustomizations (gs : GameState)
    (changes : Changes) :
  selectedCustomizations (applyUpdates JSON gs changes).1
  = selectedCustomizations gs.
Proof.
  applier_cases changes.
Qed.

(** The roll leaves no trace in the state. *)
Lemma applyGameStateChanges_state (gs : GameState) (changes : Changes)
    (finalAttributes : jsobj Z) (rnd : Random) :
  (applyGameStateChanges JSON gs changes finalAttributes rnd).1.1
  = (applyUpdates JSON gs changes).1.
Proof.
  unfold applyGameStateChanges.
  destruct (applyUpdates JSON gs changes) as [gs' ctx].
  destruct (checkRequested changes) as [[a dc]|]; [|reflexivity].
  destruct (rollD20 rnd). reflexivity.
Qed.
End ApplierFields.

(** *** Sequences of deltas *)

Lemma applySequence_cons (JSON : JsonPrinter) (gs : GameState) (rnd : Random)
    (call : Changes * jsobj Z) (calls : list (Changes * jsobj Z)) :
  applySequence JSON gs rnd (call :: calls) =
  applySequence JSON
    (applyGameStateChanges JSON gs call.1 call.2 rnd).1.1
    (applyGameStateChanges JSON gs call.1 call.2 rnd).2 calls.
Proof.
  unfold applySequence. cbn [foldl fst snd].
  now destruct (applyGameStateChanges JSON gs call.1 call.2 rnd) as [[? ?] ?].
Qed.

(** A property of the state that every call of the applier preserves holds
    after every sequence of calls. *)
Lemma applySequence_invariant (JSON : JsonPrinter) (P : GameState -> Prop) :
  (forall gs changes fa rnd,
      P gs -> P (applyGameStateChanges JSON gs changes fa rnd).1.1) ->
  forall calls gs rnd, P gs -> P (applySequence JSON gs rnd calls).1.
Proof.
  intros Hstep. induction calls as [|call calls IH]; intros gs rnd HP.
  - assumption.
  - rewrite applySequence_cons. apply IH, Hstep, HP.
Qed.

(** *** The die *)

Lemma roundTiesToEven_le (y : Q) (m : Z) :
  (y <= inject_Z m)%Q -> roundTiesToEven y <= m.
Proof.
  intros Hy. unfold roundTiesToEven.
  pose proof (Qfloor_le y) as Hfl.
  assert (Qfloor y <= m) as Hf.
  { apply Qfloor_resp_le in Hy. now rewrite Qfloor_Z in Hy. }
  destruct (Qcompare_spec (y - inject_Z (Qfloor y)) (1 # 2)) as [He|Hl|Hg];
    [|assumption|].
  - destruct (Z.even (Qfloor y)); [assumption|].
    destruct (Z.eq_dec (Qfloor y) m) as [Heq|]; [|lia].
    rewrite Heq in He. lra.
  - destruct (Z.eq_dec (Qfloor y) m) as [Heq|]; [|lia].
    rewrite Heq in Hg. lra.
Qed.

Lemma roundTiesToEven_ge (y : Q) (m : Z) :
  (inject_Z m <= y)%Q -> m <= roundTiesToEven y.
Proof.
  intros Hy. unfold roundTiesToEven.
  assert (m <= Qfloor y) as Hf.
  { apply Qfloor_resp_le in Hy. now rewrite Qfloor_Z in Hy. }
  destruct (Qcompare (y - inject_Z (Qfloor y)) (1 # 2)); [|lia..].
  destruct (Z.even (Qfloor y)); lia.
Qed.

Lemma roundTiesToEven_below (y : Q) (m : Z) :
  (y < inject_Z m - (1 # 2))%Q -> roundTiesToEven y <= m - 1.
Proof.
  intros Hy. unfold roundTiesToEven.
  pose proof (Qfloor_le y) as Hfl.
  assert (Qfloor y <= m - 1) as Hf.
  { assert (inject_Z (Qfloor y) < inject_Z m)%Q as Hlt by lra.
    rewrite <- Zlt_Qlt in Hlt. lia. }
  destruct (Qcompare_spec (y - inject_Z (Qfloor y)) (1 # 2)) as [He|Hl|Hg];
    [|assumption|].
  - destruct (Z.even (Qfloor y)); [assumption|].
    destruct (Z.eq_dec (Qfloor y) (m - 1)) as [Heq|]; [|lia].
    exfalso. rewrite Heq in He. unfold Z.sub in He.
    rewrite inject_Z_plus in He.
    change (inject_Z (- (1))) with (- (1))%Q in He. lra.
  - destruct (Z.eq_dec (Qfloor y) (m - 1)) as [Heq|]; [|lia].
    exfalso. rewrite Heq in Hg. unfold Z.sub in Hg.
    rewrite inject_Z_plus in Hg.
    change (inject_Z (- (1))) with (- (1))%Q in Hg. lra.
Qed.

Lemma binade_le (x : Q) (b : Z) :
  0 <= b -> (x < inject_Z (2 ^ (b + 1)))%Q -> binade x <= b.
Proof.
  intros Hb Hx. unfold binade.
  destruct (Qle_bool 1 x) eqn:H1.
  - apply Qle_bool_imp_le in H1.
    assert (1 <= Qfloor x) as Hfl.
    { apply Qfloor_resp_le in H1. exact H1. }
    assert (Qfloor x < 2 ^ (b + 1)) as Hlt.
    { pose proof (Qfloor_le x) as Hle.
      assert (inject_Z (Qfloor x) < inject_Z (2 ^ (b + 1)))%Q as H by lra.
      now rewrite <- Zlt_Qlt in H. }
    apply Z.log2_lt_pow2 in Hlt; lia.
  - pose proof (Z.log2_up_nonneg (Qceiling (/ x))). lia.
Qed.

(** Below [2^53] every integer is a double: rounding a positive [x] does
    not cross one. *)
Lemma nearestDouble_integer (x : Q) (j : Z) :
  (0 < x)%Q -> (x < inject_Z (2 ^ 53))%Q ->
  ((x <= inject_Z j)%Q -> (nearestDouble x <= inject_Z j)%Q)
  /\ ((inject_Z j <= x)%Q -> (inject_Z j <= nearestDouble x)%Q).
Proof.
  intros Hpos Hx. unfold nearestDouble.
  destruct (Qle_bool x 0) eqn:H0.
  { apply Qle_bool_imp_le in H0. lra. }
  pose proof (binade_le x 52 ltac:(lia) Hx) as Hb.
  set (t := Z.max (binade x - 52) (-1074)).
  assert (t <= 0) as Ht by lia.
  destruct (Z.leb_spec 0 t) as [Hge|Hlt].
  - assert (t = 0) as -> by lia. change (2 ^ 0) with 1.
    rewrite Z.mul_1_r.
    assert (x / inject_Z 1 == x)%Q as Hdiv by (field).
    split; intros Hj.
    + rewrite <- Zle_Qle. apply roundTiesToEven_le. now rewrite Hdiv.
    + rewrite <- Zle_Qle. apply roundTiesToEven_ge. now rewrite Hdiv.
  - set (N := 2 ^ (- t)).
    assert (0 < N) as HN by (apply Z.pow_pos_nonneg; lia).
    assert (0 < inject_Z N)%Q as HNq.
    { change 0%Q with (inject_Z 0). now rewrite <- Zlt_Qlt. }
    split; intros Hj.
    + apply Qle_shift_div_r; [assumption|].
      rewrite <- inject_Z_mult, <- Zle_Qle.
      apply roundTiesToEven_le. rewrite inject_Z_mult.
      now apply Qmult_le_compat_r; [|apply Qlt_le_weak].
    + apply Qle_shift_div_l; [assumption|].
      rewrite <- inject_Z_mult, <- Zle_Qle.
      apply roundTiesToEven_ge. rewrite inject_Z_mult.
      now apply Qmult_le_compat_r; [|apply Qlt_le_weak].
Qed.

Lemma Qfloor_lt_Z (y : Q) (k : Z) : (y < inject_Z k)%Q -> Qfloor y < k.
Proof.
  intros Hy. pose proof (Qfloor_le y) as Hfl.
  assert (inject_Z (Qfloor y) < inject_Z k)%Q as Hlt by lra.
  now rewrite <- Zlt_Qlt in Hlt.
Qed.

(** The product of a sample and 20 rounds to a double below 20. *)
Lemma nearestDouble_times20 (u : Q) :
  (0 <= u)%Q -> (u <= maxSample)%Q ->
  (0 <= nearestDouble (u * inject_Z 20))%Q
  /\ (nearestDouble (u * inject_Z 20) < 20)%Q.
Proof.
  intros H0 H1. unfold maxSample in H1. set (x := (u * inject_Z 20)%Q).
  assert (0 <= x)%Q as Hx0 by (subst x; change (inject_Z 20) with 20%Q; lra).
  assert (x <= 20 - (5 # 2251799813685248))%Q as Hx1
    by (subst x; change (inject_Z 20) with 20%Q; lra).
  unfold nearestDouble.
  destruct (Qle_bool x 0) eqn:Hz; [split; lra|].
  assert (0 < x)%Q as Hpos.
  { destruct (Qlt_le_dec 0 x) as [|Hle]; [assumption|].
    apply Qle_bool_iff in Hle. congruence. }
  assert (binade x <= 4) as Hb.
  { apply binade_le; [lia|]. change (inject_Z (2 ^ (4 + 1))) with 32%Q. lra. }
  set (t := Z.max (binade x - 52) (-1074)).
  assert (t <= -48) as Ht by lia.
  destruct (Z.leb_spec 0 t) as [|_]; [lia|].
  set (N := 2 ^ (- t)).
  assert (2 ^ 48 <= N) as HN by (apply Z.pow_le_mono_r; lia).
  assert (inject_Z (2 ^ 48) <= inject_Z N)%Q as HNq by now rewrite <- Zle_Qle.
  change (inject_Z (2 ^ 48)) with (281474976710656 # 1)%Q in HNq.
  assert (0 < inject_Z N)%Q as HNpos by lra.
  split.
  - apply Qle_shift_div_l; [assumption|].
    apply (Qle_trans _ 0); [lra|].
    change 0%Q with (inject_Z 0) at 1.
    rewrite <- Zle_Qle. apply roundTiesToEven_ge.
    change (inject_Z 0) with 0%Q. apply Qmult_le_0_compat; lra.
  - apply Qlt_shift_div_r; [assumption|].
    assert (roundTiesToEven (x * inject_Z N) <= 20 * N - 1) as Hr.
    { apply roundTiesToEven_below. rewrite inject_Z_mult.
      change (inject_Z 20) with 20%Q.
      assert (x * inject_Z N
              <= (20 - (5 # 2251799813685248)) * inject_Z N)%Q as Hm
        by (apply Qmult_le_compat_r; lra).
      lra. }
    rewrite Zle_Qle in Hr. unfold Z.sub in Hr.
    rewrite inject_Z_plus, inject_Z_mult in Hr.
    change (inject_Z 20) with 20%Q in Hr.
    change (inject_Z (- (1))) with (- (1))%Q in Hr. lra.
Qed.

Lemma rollD20_range (rnd : Random) :
  (0 <= samples rnd (cursor rnd))%Q ->
  (samples rnd (cursor rnd) <= maxSample)%Q ->
  1 <= (rollD20 rnd).1 <= 20.
Proof.
  unfold rollD20, Math_random. cbn [fst]. intros H0 H1.
  destruct (nearestDouble_times20 _ H0 H1) as [Hlo Hhi].
  apply Qfloor_resp_le in Hlo. change (Qfloor 0) with 0 in Hlo.
  apply (Qfloor_lt_Z _ 20) in Hhi. lia.
Qed.

(** ** The claims about the applier *)



(** C2.  From an inventory whose quantities are all positive, every
    sequence of deltas leaves, after each of its calls, an inventory whose
    quantities are all positive.  One delta folds its item changes over the inventory; an item
    change adds to the first entry of that exact name and removes the entry
    when the sum is not positive, appends a missing item when the change is
    positive, and does nothing for a missing item otherwise.  Inventory
    [[{sword,1}]] with the change [{sword,-1}] becomes empty. *)
Theorem C2_inventory_never_nonpositive (JSON : JsonPrinter) (gs : GameState)
    (rnd : Random) (calls : list (Changes * jsobj Z)) :
  positiveQuantities (inventory gs) ->
  (forall n,
      positiveQuantities
        (inventory (applySequence JSON gs rnd (take n calls)).1))
  /\ (forall changes fa r,
        inventory (applyGameStateChanges JSON gs changes fa r).1.1
        = foldl applyItemChange (inventory gs)
                (default [] (itemChanges changes)))
  /\ (forall inv change i it,
        inv !! i = Some it -> item it = ic_item change ->
        (forall j it', (j < i)%nat -> inv !! j = Some it' ->
                       item it' <> ic_item change) ->
        applyItemChange inv change =
        if quantity it + quantityChange change <=? 0
        then delete i inv
        else <[i := {| item := item it;
                       quantity := quantity it + quantityChange change |}]>
               inv)
  /\ (forall inv change,
        ic_item change ∉ item <$> inv ->
        applyItemChange inv change =
        if 0 <? quantityChange change
        then (inv ++ [ {| item := ic_item change;
                          quantity := quantityChange change |} ])%list
        else inv)
  /\ inventory
       (applyGameStateChanges JSON
          (set_inventory gs [ {| item := "sword"; quantity := 1 |} ])
          (itemDelta [ {| ic_item := "sword"; quantityChange := -1 |} ])
          [] rnd).1.1 = [].
Proof.
  intros Hpos.
  assert (forall g changes fa r,
             inventory (applyGameStateChanges JSON g changes fa r).1.1
             = foldl applyItemChange (inventory g)
                     (default [] (itemChanges changes))) as Hfield.
  { intros. now rewrite applyGameStateChanges_state, applyUpdates_inventory. }
  split; [|split; [|split; [|split]]].
  - intros n. apply (applySequence_invariant JSON
             (fun g => positiveQuantities (inventory g))); [|assumption].
    intros g changes fa r Hg. rewrite Hfield.
    now apply foldl_applyItemChange_positive.
  - apply Hfield.
  - apply applyItemChange_found.
  - apply applyItemChange_missing.
  - rewrite Hfield. reflexivity.
Qed.

Lemma C2_witness :
  positiveQuantities (inventory sampleState)
  /\ positiveQuantities
       (inventory
          (applySequence sampleJson sampleState (constantRandom 0)
             sampleItemCalls).1).
Proof.
  assert (positiveQuantities (inventory sampleState)) as Hpos.
  { repeat constructor. }
  split; [exact Hpos|].
  exact (proj1 (C2_inventory_never_nonpositive sampleJson sampleState
                  (constantRandom 0) sampleItemCalls Hpos) 2%nat).
Defined.

(** C3.  From a skill list whose names are pairwise distinct, every
    sequence of deltas leaves, after each of its calls, a skill list whose
    names are pairwise distinct.  A [learn] of a name already in the list leaves the list as it
    is, and [learn(stealth, 1)] applied twice to the empty list leaves the
    one entry [{stealth, level: 1}]. *)
Theorem C3_skill_names_stay_distinct (JSON : JsonPrinter) (gs : GameState)
    (rnd : Random) (calls : list (Changes * jsobj Z)) :
  distinctSkillNames (playerSkills gs) ->
  (forall n,
      distinctSkillNames
        (playerSkills (applySequence JSON gs rnd (take n calls)).1))
  /\ (forall n v fa r,
        n ∈ skillName <$> playerSkills gs ->
        playerSkills
          (applyGameStateChanges JSON gs
             (skillDelta [ {| sk_skillName := n; type := learn;
                              value := v |} ]) fa r).1.1
        = playerSkills gs)
  /\ (let learnStealth :=
        skillDelta [ {| sk_skillName := "stealth"; type := learn;
                        value := Some 1 |} ] in
      let once :=
        (applyGameStateChanges JSON (set_playerSkills gs []) learnStealth
           [] rnd).1.1 in
      let twice := (applyGameStateChanges JSON once learnStealth [] rnd).1.1 in
      playerSkills once
        = [ {| skillName := "stealth"; level := Some 1;
               description := None |} ]
      /\ playerSkills twice = playerSkills once).
Proof.
  intros Hnd.
  assert (forall g changes fa r,
             playerSkills (applyGameStateChanges JSON g changes fa r).1.1
             = foldl applySkillChange (playerSkills g)
                     (default [] (skillChanges changes))) as Hfield.
  { intros.
    now rewrite applyGameStateChanges_state, applyUpdates_playerSkills. }
  split; [|split].
  - intros n. apply (applySequence_invariant JSON
             (fun g => distinctSkillNames (playerSkills g))); [|assumption].
    intros g changes fa r Hg. rewrite Hfield.
    now apply foldl_applySkillChange_distinct.
  - intros n v fa r Hin. rewrite Hfield. cbn [skillDelta skillChanges default foldl].
    now apply applySkillChange_learn_present.
  - cbv zeta. rewrite !Hfield. split; reflexivity.
Qed.

Lemma C3_witness :
  distinctSkillNames (playerSkills sampleState)
  /\ distinctSkillNames
       (playerSkills
          (applySequence sampleJson sampleState (constantRandom 0)
             sampleSkillCalls).1).
Proof.
  assert (distinctSkillNames (playerSkills sampleState)) as Hnd.
  { apply NoDup_singleton. }
  split; [exact Hnd|].
  exact (proj1 (C3_skill_names_stay_distinct sampleJson sampleState
                  (constantRandom 0) sampleSkillCalls Hnd) 2%nat).
Defined.

(** C9, as the specification states it, fails: a delta whose location
    update is present but empty leaves the location as it was. *)
Lemma C9_counterexample :
  let changes := locationDelta EmptyString in
  let after :=
    (applyGameStateChanges sampleJson sampleState changes []
       (constantRandom 0)).1.1 in
  locationUpdate changes = Some EmptyString
  /\ currentLocation after = "The common room"
  /\ currentLocation after <> EmptyString.
Proof. repeat split. discriminate. Qed.

(** C9, amended.  A delta whose location update is a non-empty string sets
    the current location to exactly that string; a delta without a location
    update, or with the empty string, leaves the current location as it
    was. *)
Theorem C9_location_update (JSON : JsonPrinter) (gs : GameState)
    (changes : Changes) (finalAttributes : jsobj Z) (rnd : Random) :
  let after :=
    (applyGameStateChanges JSON gs changes finalAttributes rnd).1.1 in
  (forall l, locationUpdate changes = Some l -> l <> EmptyString ->
             currentLocation after = l)
  /\ (locationUpdate changes = None
      \/ locationUpdate changes = Some EmptyString ->
      currentLocation after = currentLocation gs).
Proof.
  intros after. subst after.
  rewrite applyGameStateChanges_state, applyUpdates_currentLocation.
  split.
  - intros l -> Hne. destruct l; [congruence | reflexivity].
  - intros [-> | ->]; reflexivity.
Qed.

Lemma C9_witness :
  currentLocation
    (applyGameStateChanges sampleJson sampleState (locationDelta "The cellar")
       [] (constantRandom 0)).1.1 = "The cellar"
  /\ currentLocation
       (applyGameStateChanges sampleJson sampleState noChanges
          [] (constantRandom 0)).1.1 = currentLocation sampleState.
Proof.
  split.
  - apply (proj1 (C9_location_update sampleJson sampleState
                    (locationDelta "The cellar") [] (constantRandom 0))
             "The cellar"); [reflexivity | discriminate].
  - apply (proj2 (C9_location_update sampleJson sampleState noChanges []
                    (constantRandom 0))).
    left. reflexivity.
Defined.

(** C10.  A delta whose skill changes are all [improve] or [deteriorate]
    without a value leaves the skill list as it was, whether or not the
    named skills are in it: no level changes and no default step is
    applied. *)
Theorem C10_improve_without_value_is_noop (JSON : JsonPrinter)
    (gs : GameState) (changes : Changes) (finalAttributes : jsobj Z)
    (rnd : Random) (l : list SkillChange) :
  skillChanges changes = Some l ->
  Forall (fun change =>
            (type change = improve \/ type change = deteriorate)
            /\ value change = None) l ->
  playerSkills (applyGameStateChanges JSON gs changes finalAttributes rnd).1.1
  = playerSkills gs.
Proof.
  intros Hl Hall.
  rewrite applyGameStateChanges_state, applyUpdates_playerSkills, Hl.
  now apply foldl_applySkillChange_no_value.
Qed.

Lemma C10_witness :
  playerSkills
    (applyGameStateChanges sampleJson sampleState
       (skillDelta [ {| sk_skillName := "brawl"; type := improve;
                        value := None |};
                     {| sk_skillName := "brawl"; type := deteriorate;
                        value := None |} ])
       [] (constantRandom 0)).1.1
  = [ {| skillName := "brawl"; level := Some 1;
         description := Some "Fight bare-handed" |} ].
Proof.
  apply (C10_improve_without_value_is_noop sampleJson sampleState _ []
           (constantRandom 0)
           [ {| sk_skillName := "brawl"; type := improve; value := None |};
             {| sk_skillName := "brawl"; type := deteriorate;
                value := None |} ]).
  - reflexivity.
  - apply Forall_cons. split; [split; [left|]; reflexivity|].
    apply Forall_cons. split; [split; [right|]; reflexivity|].
    apply Forall_nil_2.
Defined.

(** ** Turn orchestrator *)

Section OrchestratorFacts.
Context (JSON : JsonPrinter) (allScenarios : list DndScenario).

Lemma applyGameStateChanges_dialogueHistory (gs : GameState)
    (changes : Changes) (fa : jsobj Z) (rnd : Random) :
  dialogueHistory (applyGameStateChanges JSON gs changes fa rnd).1.1
  = dialogueHistory gs.
Proof.
  now rewrite applyGameStateChanges_state, applyUpdates_dialogueHistory.
Qed.

Lemma applyChanges_run (changes : Changes) (fa : jsobj Z) (gs : GameState)
    (rnd : Random) :
  applyChanges JSON changes fa (gs, rnd) =
  let r := applyGameStateChanges JSON gs changes fa rnd in
  (inr r.1.2, (r.1.1, r.2)).
Proof.
  unfold applyChanges.
  now destruct (applyGameStateChanges JSON gs changes fa rnd) as [[? ?] ?].
Qed.

(** The [try] block, call by call. *)
Lemma tryBlock_run (env : Env) (scenario : DndScenario) (userAction : string)
    (fa : jsobj Z) (gs : GameState) (rnd : Random) :
  tryBlock JSON env scenario userAction fa (gs, rnd) =
  match playerActionParser env scenario gs fa userAction with
  | inl message => (inl message, (gs, rnd))
  | inr parsedAction =>
      let r1 := applyGameStateChanges JSON gs parsedAction fa rnd in
      match calculateFinalAttributes (baseAttributes r1.1.1)
              (selectedCustomizations r1.1.1) scenario with
      | TypeError reading =>
          (inl (str_or (Some (typeError_message env reading)) "TypeError"),
           (r1.1.1, r1.2))
      | Normal fa2 =>
          match dmNarrativeGenerator env scenario r1.1.1 fa2 r1.1.2
                  userAction with
          | inl message => (inl message, (r1.1.1, r1.2))
          | inr narrativeContent =>
              let dmNarrative := str_or narrativeContent dmSilent in
              match dmStateChangeParser env dmNarrative r1.1.1 fa2 with
              | inl message => (inl message, (r1.1.1, r1.2))
              | inr dmChanges =>
                  let r2 :=
                    applyGameStateChanges JSON r1.1.1 dmChanges fa2 r1.2 in
                  (inr dmNarrative, (r2.1.1, r2.2))
              end
          end
      end
  end.
Proof.
  unfold tryBlock, turn_bind, await, attempt, turn_ret. cbn [fst snd].
  destruct (playerActionParser env scenario gs fa userAction)
    as [message|parsedAction]; [reflexivity|].
  rewrite applyChanges_run. cbv zeta. cbn [fst snd].
  destruct (calculateFinalAttributes _ _ scenario) as [fa2|reading];
    [|reflexivity].
  destruct (dmNarrativeGenerator env scenario _ _ _ userAction)
    as [message|narrativeContent]; [reflexivity|].
  destruct (dmStateChangeParser env _ _ _) as [message|dmChanges];
    [reflexivity|].
  rewrite applyChanges_run. reflexivity.
Qed.


(** The applier leaves the selections alone, so the resolver returns inside
    the [try] block when it has returned before it. *)
Lemma resolver_returns_again (scenario : DndScenario) (gs : GameState)
    (changes : Changes) (fa0 fa : jsobj Z) (rnd : Random) (o : jsobj Z) :
  calculateFinalAttributes o (selectedCustomizations gs) scenario
    = Normal fa ->
  let after := (applyGameStateChanges JSON gs changes fa0 rnd).1.1 in
  exists fa2,
    calculateFinalAttributes (baseAttributes after)
      (selectedCustomizations after) scenario = Normal fa2.
Proof.
  intros Hfirst after.
  assert (selectedCustomizations after = selectedCustomizations gs) as ->.
  { subst after.
    now rewrite applyGameStateChanges_state,
      applyUpdates_selectedCustomizations. }
  eapply calculateFinalAttributes_returns, Hfirst.
Qed.

(** The in-memory part of a turn, in terms of the [try] block. *)
Lemma runTurn_run (env : Env) (scenario : DndScenario) (gs : GameState)
    (fa : jsobj Z) (userAction : string) (rnd : Random) :
  runTurn JSON env scenario gs fa userAction rnd =
  let r :=
    tryBlock JSON env scenario userAction fa
      (push_dialogue gs (userEntry env userAction), rnd) in
  (push_dialogue r.2.1
     (dmEntry env match r.1 with
                  | inr dmNarrative => dmNarrative
                  | inl message => dmPlaceholder message
                  end),
   r.2.2).
Proof.
  unfold runTurn. cbv zeta. fold (userEntry env userAction).
  destruct (tryBlock JSON env scenario userAction _ _) as [result [gs' rnd']].
  reflexivity.
Qed.


(** The call when every precondition holds and the resolver returns. *)
Lemma handleUserAction_run (env : Env) (db : gmap string GameTableRow)
    (rnd : Random) (sessionId userAction : string) (row : GameTableRow)
    (scenario : DndScenario) (fa : jsobj Z) :
  auth_getUser env = Some (user_id row) ->
  select_error env = false ->
  db !! sessionId = Some row ->
  find_first (fun s => String.eqb (sc_id s) (scenario_id row)) allScenarios
    = Some scenario ->
  calculateFinalAttributes (baseAttributes (state row))
    (selectedCustomizations (state row)) scenario = Normal fa ->
  handleUserAction JSON allScenarios env db rnd sessionId userAction =
  let r := runTurn JSON env scenario (state row) fa userAction rnd in
  if update_error env
  then (Thrown "保存游戏状态失败。", db, r.2)
  else (Returned r.1,
        <[sessionId := set_state row r.1 (now_update env)]> db, r.2).
Proof.
  intros Hauth Hsel Hrow Hsc Hfa. unfold handleUserAction.
  rewrite Hauth, Hsel, Hrow, String.eqb_refl, Hsc, Hfa. cbn [negb].
  destruct (runTurn JSON env scenario (state row) fa userAction rnd)
    as [gs' rnd'].
  cbv zeta. cbn [fst snd].
  destruct (update_error env); [reflexivity|].
  f_equal. f_equal. apply map_eq. intros k.
  destruct (decide (sessionId = k)) as [<-|Hne].
  - now rewrite lookup_alter_eq, lookup_insert_eq, Hrow.
  - now rewrite lookup_alter_ne, lookup_insert_ne by assumption.
Qed.

(** The call when every precondition holds and the resolver throws: the
    [TypeError] leaves the action before anything is appended or written. *)
Lemma handleUserAction_throws (env : Env) (db : gmap string GameTableRow)
    (rnd : Random) (sessionId userAction : string) (row : GameTableRow)
    (scenario : DndScenario) (reading : string) :
  auth_getUser env = Some (user_id row) ->
  select_error env = false ->
  db !! sessionId = Some row ->
  find_first (fun s => String.eqb (sc_id s) (scenario_id row)) allScenarios
    = Some scenario ->
  calculateFinalAttributes (baseAttributes (state row))
    (selectedCustomizations (state row)) scenario = TypeError reading ->
  handleUserAction JSON allScenarios env db rnd sessionId userAction
  = (Thrown (typeError_message env reading), db, rnd).
Proof.
  intros Hauth Hsel Hrow Hsc Hfa. unfold handleUserAction.
  now rewrite Hauth, Hsel, Hrow, String.eqb_refl, Hsc, Hfa.
Qed.
End OrchestratorFacts.

(** ** The claims about the orchestrator *)

(** C5.  When the preconditions hold, the attributes of the loaded state
    resolve and the store accepts the write, a narration-service call that
    throws (the first, the second or the third) does not abort the turn: the
    call returns a state; the row of the session in the store holds exactly
    that state and the time of the write, its other columns and every other
    row being as before; the dialogue history of the state is the prior
    history followed by the player's entry and a narrator entry whose text is
    the placeholder with the error message; and everything else in the state
    is what the player's delta, applied before the failure, had produced.
    After the first delta the attributes resolve again. *)
Theorem C5_narration_failure_degrades (JSON : JsonPrinter)
    (allScenarios : list DndScenario) (env : Env)
    (db : gmap string GameTableRow) (rnd : Random)
    (sessionId userAction : string) (row : GameTableRow)
    (scenario : DndScenario) (fa : jsobj Z) (message : string) :
  auth_getUser env = Some (user_id row) ->
  select_error env = false ->
  db !! sessionId = Some row ->
  find_first (fun s => String.eqb (sc_id s) (scenario_id row)) allScenarios
    = Some scenario ->
  calculateFinalAttributes (baseAttributes (state row))
    (selectedCustomizations (state row)) scenario = Normal fa ->
  update_error env = false ->
  let gs := state row in
  let playerEntry :=
    {| role := user; text := userAction; timestamp := now_user env |} in
  let placeholder :=
    {| role := dm;
       text := "DM暂时无法回应，似乎遇到了次元裂缝。错误: " ++ message;
       timestamp := now_dm env |} in
  let gs1 := push_dialogue gs playerEntry in
  let r1 parsed := applyGameStateChanges JSON gs1 parsed fa rnd in
  let degraded (gsF : GameState) (rndF : Random) : Prop :=
    let final := push_dialogue gsF placeholder in
    let result :=
      handleUserAction JSON allScenarios env db rnd sessionId userAction in
    result.1.1 = Returned final
    /\ result.2 = rndF
    /\ result.1.2 !! sessionId
       = Some {| row_id := row_id row; user_id := user_id row;
                 scenario_id := scenario_id row; name := name row;
                 state := final; created_at := created_at row;
                 updated_at := now_update env; is_active := is_active row |}
    /\ (forall other, other <> sessionId -> result.1.2 !! other = db !! other)
    /\ dialogueHistory final
       = (dialogueHistory gs ++ [playerEntry; placeholder])%list in
  (playerActionParser env scenario gs1 fa userAction = inl message ->
   degraded gs1 rnd)
  /\ (forall parsed,
        playerActionParser env scenario gs1 fa userAction = inr parsed ->
        exists fa2,
          calculateFinalAttributes (baseAttributes (r1 parsed).1.1)
            (selectedCustomizations (r1 parsed).1.1) scenario = Normal fa2
          /\ (dmNarrativeGenerator env scenario (r1 parsed).1.1 fa2
                (r1 parsed).1.2 userAction = inl message ->
              degraded (r1 parsed).1.1 (r1 parsed).2)
          /\ (forall narrativeContent,
                dmNarrativeGenerator env scenario (r1 parsed).1.1 fa2
                  (r1 parsed).1.2 userAction = inr narrativeContent ->
                dmStateChangeParser env
                  (str_or narrativeContent "DM无语了。故事继续...")
                  (r1 parsed).1.1 fa2 = inl message ->
                degraded (r1 parsed).1.1 (r1 parsed).2)).
Proof.
  intros Hauth Hsel Hrow Hsc Hfa Hupd gs playerEntry placeholder gs1 r1
    degraded.
  pose proof (handleUserAction_run JSON allScenarios env db rnd sessionId
                userAction row scenario fa Hauth Hsel Hrow Hsc Hfa) as Hrun.
  cbv zeta in Hrun. rewrite Hupd, runTurn_run in Hrun.
  cbv zeta in Hrun. rewrite tryBlock_run in Hrun. cbv zeta in Hrun.
  change (userEntry env userAction) with playerEntry in Hrun.
  fold gs gs1 in Hrun.
  assert (forall gsF rndF,
             handleUserAction JSON allScenarios env db rnd sessionId
               userAction
             = (Returned (push_dialogue gsF placeholder),
                <[sessionId := set_state row (push_dialogue gsF placeholder)
                                 (now_update env)]> db, rndF) ->
             dialogueHistory gsF = dialogueHistory gs1 ->
             degraded gsF rndF) as Hdegraded.
  { intros gsF rndF Hcall Hhist. subst degraded. cbv beta zeta.
    rewrite Hcall. cbn [fst snd].
    split; [reflexivity|]. split; [reflexivity|].
    split; [now rewrite lookup_insert_eq|].
    split; [intros other Hother; now rewrite lookup_insert_ne by congruence|].
    cbn [push_dialogue dialogueHistory]. rewrite Hhist. subst gs1.
    cbn [push_dialogue dialogueHistory]. now rewrite <- app_assoc. }
  split.
  - intros H1. rewrite H1 in Hrun. cbn [fst snd] in Hrun.
    now apply Hdegraded.
  - intros parsed H1. rewrite H1 in Hrun. fold (r1 parsed) in Hrun.
    destruct (resolver_returns_again JSON scenario gs1 parsed fa fa rnd
                (baseAttributes (state row)) Hfa) as [fa2 Hfa2].
    fold (r1 parsed) in Hfa2. exists fa2. split; [exact Hfa2|].
    rewrite Hfa2 in Hrun.
    assert (dialogueHistory (r1 parsed).1.1 = dialogueHistory gs1) as Hhist
      by apply applyGameStateChanges_dialogueHistory.
    split.
    + intros H2. rewrite H2 in Hrun. cbn [fst snd] in Hrun.
      now apply Hdegraded.
    + intros narrativeContent H2 H3. rewrite H2 in Hrun.
      change dmSilent with "DM无语了。故事继续..." in Hrun.
      rewrite H3 in Hrun. cbn [fst snd] in Hrun.
      now apply Hdegraded.
Qed.

Lemma C5_witness :
  let result :=
    handleUserAction sampleJson [sampleScenario] (sampleEnv [2%nat])
      sampleDb (constantRandom 0) "s1" "open the cellar door" in
  exists final,
    result.1.1 = Returned final
    /\ state <$> result.1.2 !! "s1" = Some final
    /\ updated_at <$> result.1.2 !! "s1" = Some "2025-01-02T10:00:06.000Z"
    /\ inventory final
       = [ {| item := "sword"; quantity := 1 |};
           {| item := "potion"; quantity := 1 |} ]
    /\ dialogueHistory final
       = [ sampleIntro;
           {| role := user; text := "open the cellar door";
              timestamp := "2025-01-02T10:00:00.000Z" |};
           {| role := dm;
              text := "DM暂时无法回应，似乎遇到了次元裂缝。错误: timeout";
              timestamp := "2025-01-02T10:00:05.000Z" |} ].
Proof.
  destruct (C5_narration_failure_degrades sampleJson [sampleScenario]
              (sampleEnv [2%nat]) sampleDb (constantRandom 0) "s1"
              "open the cellar door" sampleRow sampleScenario
              [("Strength", 7); ("Agility", 5)] "timeout")
    as (_ & Hsecond);
    [reflexivity | reflexivity | reflexivity | reflexivity | reflexivity
    | reflexivity |].
  destruct (Hsecond
              (itemDelta [ {| ic_item := "potion"; quantityChange := 1 |} ]))
    as (fa2 & _ & Hdegraded & _); [reflexivity|].
  destruct Hdegraded as (Hcall & _ & Hstored & _ & Hhistory); [reflexivity|].
  cbv zeta. eexists. split; [exact Hcall|].
  rewrite Hstored. cbn [fmap option_fmap option_map state updated_at].
  split; [reflexivity|]. split; [reflexivity|].
  split; [reflexivity | exact Hhistory].
Defined.

(** C6.  When the caller is not authenticated, or the session cannot be
    loaded or does not exist, or the caller does not own it, or its scenario
    is not in the catalog, the call throws, the session store and the random
    source are exactly as before (nothing is appended, applied or written),
    and the narration service and the clock play no part in the result. *)
Theorem C6_precondition_failure_changes_nothing (JSON : JsonPrinter)
    (allScenarios : list DndScenario) (env : Env)
    (db : gmap string GameTableRow) (rnd : Random)
    (sessionId userAction : string) :
  auth_getUser env = None
  \/ select_error env = true
  \/ db !! sessionId = None
  \/ (exists uid row,
        auth_getUser env = Some uid /\ db !! sessionId = Some row
        /\ user_id row <> uid)
  \/ (exists row,
        db !! sessionId = Some row
        /\ find_first (fun s => String.eqb (sc_id s) (scenario_id row))
             allScenarios = None) ->
  (exists message,
      handleUserAction JSON allScenarios env db rnd sessionId userAction
      = (Thrown message, db, rnd))
  /\ (forall env',
        auth_getUser env' = auth_getUser env ->
        select_error env' = select_error env ->
        handleUserAction JSON allScenarios env' db rnd sessionId userAction
        = handleUserAction JSON allScenarios env db rnd sessionId userAction).
Proof.
  intros Hpre.
  assert (forall e,
             auth_getUser e = auth_getUser env ->
             select_error e = select_error env ->
             exists message,
               handleUserAction JSON allScenarios e db rnd sessionId
                 userAction = (Thrown message, db, rnd)
               /\ handleUserAction JSON allScenarios env db rnd sessionId
                    userAction = (Thrown message, db, rnd)) as Hboth.
  { intros e Hauth Hsel. unfold handleUserAction. rewrite Hauth, Hsel.
    destruct (auth_getUser env) as [uid|] eqn:Ha; [|eauto].
    destruct (select_error env) eqn:Hs; [eauto|].
    destruct (db !! sessionId) as [row|] eqn:Hrow; [|eauto].
    destruct (String.eqb_spec (user_id row) uid) as [Howner|Howner];
      cbn [negb]; [|eauto].
    destruct (find_first _ allScenarios) as [scenario|] eqn:Hsc; [|eauto].
    exfalso.
    destruct Hpre
      as [H|[H|[H|[(uid' & row' & H1 & H2 & H3)|(row' & H1 & H2)]]]];
      try congruence.
    injection H1 as <-. congruence. }
  split.
  - destruct (Hboth env eq_refl eq_refl) as (message & H & _). eauto.
  - intros env' Hauth Hsel.
    destruct (Hboth env' Hauth Hsel) as (message & H1 & H2). congruence.
Qed.

Lemma C6_witness :
  exists message,
    handleUserAction sampleJson [sampleScenario] anonymousEnv sampleDb
      (constantRandom 0) "s1" "open the cellar door"
    = (Thrown message, sampleDb, constantRandom 0).
Proof.
  apply (C6_precondition_failure_changes_nothing sampleJson [sampleScenario]
           anonymousEnv sampleDb (constantRandom 0) "s1"
           "open the cellar door").
  left. reflexivity.
Defined.



(** ** Character creation *)

Lemma obj_keys_set_in {V : Type} (k k' : string) (v : V) (o : jsobj V) :
  k' = k \/ k' ∈ obj_keys o -> k' ∈ obj_keys (obj_set k v o).
Proof.
  rewrite !obj_get_Some_keys, obj_get_set. intros [-> | Hin].
  - rewrite String.eqb_refl. eauto.
  - destruct (String.eqb k k'); eauto.
Qed.

Lemma obj_set_Forall_value {V : Type} (P : V -> Prop) (k : string) (v : V)
    (o : jsobj V) :
  Forall (fun e => P e.2) o -> P v -> Forall (fun e => P e.2) (obj_set k v o).
Proof.
  intros Ho Hv. induction Ho as [|[k0 v0] o H0 Ho IH]; simpl.
  - repeat constructor. assumption.
  - destruct (String.eqb k0 k); constructor; assumption.
Qed.

Lemma obj_set_present_sum (k : string) (v v' : Z) (o : jsobj Z) :
  obj_get k o = Some v ->
  sumZ (obj_set k v' o).*2 = sumZ o.*2 - v + v'.
Proof.
  induction o as [|[k0 v0] o IH]; cbn [obj_get obj_set]; intros Hget.
  - discriminate.
  - destruct (String.eqb k0 k); rewrite !fmap_cons, !sumZ_cons; cbn [snd].
    + injection Hget as ->. lia.
    + rewrite IH by assumption. lia.
Qed.

Lemma obj_set_present_length {V : Type} (k : string) (v : V) (o : jsobj V) :
  k ∈ obj_keys o -> length (obj_set k v o) = length o.
Proof.
  intros Hin. apply (obj_keys_set_present k v) in Hin.
  unfold obj_keys in Hin.
  rewrite <- (length_fmap fst (obj_set k v o)), Hin. apply length_fmap.
Qed.

Lemma obj_get_Forall_value {V : Type} (P : V -> Prop) (k : string) (v : V)
    (o : jsobj V) :
  Forall (fun e => P e.2) o -> obj_get k o = Some v -> P v.
Proof.
  intros Ho. induction Ho as [|[k0 v0] o H0 Ho IH]; simpl.
  - discriminate.
  - destruct (String.eqb k0 k); [|assumption]. now intros [= <-].
Qed.

Lemma obj_get_not_in_keys {V : Type} (k : string) (o : jsobj V) :
  k ∉ obj_keys o -> obj_get k o = None.
Proof.
  intros Hnot. destruct (obj_get k o) eqn:Hget; [|reflexivity].
  exfalso. apply Hnot, obj_get_Some_keys. eauto.
Qed.

(** *** The freshly mounted form *)

Lemma initialAttrs_values (keys : list string) (acc : jsobj Z) :
  Forall (fun e : string * Z => e.2 = BASE_ATTRIBUTE_VALUE) acc ->
  Forall (fun e : string * Z => e.2 = BASE_ATTRIBUTE_VALUE)
    (foldl (fun initialAttrs attrName =>
              obj_set attrName BASE_ATTRIBUTE_VALUE initialAttrs) acc keys).
Proof.
  revert acc. induction keys as [|k keys IH]; intros acc Hacc; simpl.
  - assumption.
  - apply IH.
    now apply (obj_set_Forall_value (fun v => v = BASE_ATTRIBUTE_VALUE)).
Qed.

Lemma initialAttrs_keys (keys : list string) (acc : jsobj Z) (k : string) :
  k ∈ keys \/ k ∈ obj_keys acc ->
  k ∈ obj_keys
        (foldl (fun initialAttrs attrName =>
                  obj_set attrName BASE_ATTRIBUTE_VALUE initialAttrs)
               acc keys).
Proof.
  revert acc. induction keys as [|k0 keys IH]; intros acc Hin; simpl.
  - destruct Hin as [Hin|Hin]; [inversion Hin | assumption].
  - apply IH. destruct Hin as [Hin|Hin].
    + apply elem_of_cons in Hin as [->|Hin]; [right | now left].
      apply obj_keys_set_in. now left.
    + right. apply obj_keys_set_in. now right.
Qed.

Lemma sumZ_all_base (o : jsobj Z) :
  Forall (fun e : string * Z => e.2 = BASE_ATTRIBUTE_VALUE) o ->
  sumZ o.*2 = BASE_ATTRIBUTE_VALUE * Z.of_nat (length o).
Proof.
  induction 1 as [|[k v] o Hv _ IH].
  - reflexivity.
  - rewrite fmap_cons, sumZ_cons, IH. cbn [snd length] in *. rewrite Hv. lia.
Qed.

Lemma formInvariant_init (scenario : DndScenario) :
  formInvariant scenario (initForm scenario useStateDefaults).
Proof.
  unfold formInvariant. cbn [initForm useStateDefaults baseAttributeValues
    remainingPoints selectedSkills].
  assert (Forall (fun e : string * Z => e.2 = BASE_ATTRIBUTE_VALUE)
            (initialAttrs scenario)) as Hall
    by (apply initialAttrs_values; constructor).
  repeat split.
  - eapply Forall_impl; [exact Hall|]. intros e ->. reflexivity.
  - rewrite (sumZ_all_base _ Hall). reflexivity.
  - simpl. unfold MAX_STARTING_SKILLS. lia.
  - constructor.
  - constructor.
Qed.

(** *** The handlers keep the invariant *)

Lemma formInvariant_attribute (scenario : DndScenario) (st : FormState)
    (attrName : string) (change : Z) :
  attrName ∈ obj_keys (attributes scenario) ->
  formInvariant scenario st ->
  formInvariant scenario (handleAttributeChange attrName change st).
Proof.
  intros Hattr (Hkeys & Hmin & Hsum & Hlen & Hnd & Hlvl).
  assert (attrName ∈ obj_keys (baseAttributeValues st)) as Hin.
  { rewrite Hkeys. apply initialAttrs_keys. now left. }
  destruct (proj1 (obj_get_Some_keys _ _) Hin) as [v Hv].
  pose proof (obj_get_Forall_value (fun v => BASE_ATTRIBUTE_VALUE <= v)
                _ _ _ Hmin Hv) as Hv5.
  cbv beta in Hv5. unfold handleAttributeChange. rewrite Hv.
  assert (num_or (Some v) BASE_ATTRIBUTE_VALUE = v) as ->.
  { unfold num_or, BASE_ATTRIBUTE_VALUE in *.
    destruct (Z.eqb_spec v 0); [lia | reflexivity]. }
  destruct ((0 <? change) && (remainingPoints st <=? 0)) eqn:Hg1.
  { repeat split; assumption. }
  destruct ((change <? 0) && (v + change <? BASE_ATTRIBUTE_VALUE)) eqn:Hg2.
  { repeat split; assumption. }
  unfold formInvariant.
  cbn [baseAttributeValues remainingPoints selectedSkills].
  split; [|split; [|split]].
  - rewrite <- Hkeys. now apply obj_keys_set_present.
  - apply (obj_set_Forall_value (fun v => BASE_ATTRIBUTE_VALUE <= v));
      [assumption|].
    unfold BASE_ATTRIBUTE_VALUE in *.
    apply andb_false_iff in Hg2 as [Hg2|Hg2];
      [apply Z.ltb_ge in Hg2 | apply Z.ltb_ge in Hg2]; lia.
  - rewrite (obj_set_present_sum _ v) by assumption.
    rewrite obj_set_present_length by assumption. lia.
  - repeat split; assumption.
Qed.

Lemma filter_skills_facts (p : PlayerSkill -> bool)
    (skills : list PlayerSkill) :
  (length (List.filter p skills) <= length skills)%nat
  /\ (distinctSkillNames skills -> distinctSkillNames (List.filter p skills))
  /\ (Forall (fun s => level s = Some 1) skills ->
      Forall (fun s => level s = Some 1) (List.filter p skills)).
Proof.
  assert (List.filter p skills `sublist_of` skills) as Hsub.
  { induction skills as [|s skills IH]; simpl.
    - constructor.
    - destruct (p s); [now apply sublist_skip | now apply sublist_cons]. }
  split; [now apply sublist_length|]. split.
  - intros Hnd. eapply sublist_NoDup; [exact Hnd|].
    now apply fmap_sublist.
  - intros Hall. rewrite Forall_forall in *. intros s Hs.
    apply Hall. eapply elem_of_sublist; eassumption.
Qed.

Lemma formInvariant_skill (scenario : DndScenario) (st : FormState)
    (n : string) :
  formInvariant scenario st ->
  formInvariant scenario (handleSkillToggle scenario n st).
Proof.
  intros (Hkeys & Hmin & Hsum & Hlen & Hnd & Hlvl).
  unfold handleSkillToggle.
  destruct (existsb _ (selectedSkills st)) eqn:Hsel.
  - destruct (filter_skills_facts
                (fun skill => negb (String.eqb (skillName skill) n))
                (selectedSkills st)) as (Hl & Hd & Hv).
    unfold formInvariant.
    cbn [setSelectedSkills baseAttributeValues remainingPoints
         selectedSkills].
    repeat split; try assumption; [lia | now apply Hd | now apply Hv].
  - destruct (Nat.ltb_spec (length (selectedSkills st)) MAX_STARTING_SKILLS)
      as [Hlt|Hge]; [|repeat split; assumption].
    destruct (obj_get n (baseSkills scenario)) as [skillDetails|];
      [|repeat split; assumption].
    unfold formInvariant.
    cbn [setSelectedSkills baseAttributeValues remainingPoints
         selectedSkills].
    repeat split; try assumption.
    + rewrite length_app. simpl. lia.
    + unfold distinctSkillNames. rewrite fmap_app.
      apply NoDup_app. split; [assumption|].
      split; [|apply NoDup_singleton].
      intros m Hin Hm. apply list_elem_of_singleton in Hm. subst m.
      apply list_elem_of_fmap in Hin as (s & Hs & Hin). simpl in Hs.
      assert (existsb (fun skill => String.eqb (skillName skill) n)
                (selectedSkills st) = true) as Habs; [|congruence].
      apply existsb_exists. exists s. split.
      * now apply list_elem_of_In.
      * rewrite <- Hs. apply String.eqb_refl.
    + apply Forall_app. split; [assumption|]. now repeat constructor.
Qed.

Lemma formInvariant_event (scenario : DndScenario) (st : FormState)
    (ev : FormEvent) :
  rendered scenario ev = true ->
  formInvariant scenario st ->
  formInvariant scenario (handleEvent scenario st ev).
Proof.
  intros Hev Hinv. destruct ev as [u|s|attrName change|c o|n]; simpl.
  - exact Hinv.
  - exact Hinv.
  - apply formInvariant_attribute; [|exact Hinv].
    simpl in Hev. apply andb_true_iff in Hev as [Hev _].
    now apply bool_decide_eq_true in Hev.
  - exact Hinv.
  - now apply formInvariant_skill.
Qed.

Lemma formInvariant_events (scenario : DndScenario)
    (events : list FormEvent) (st : FormState) :
  Forall (fun ev => rendered scenario ev = true) events ->
  formInvariant scenario st ->
  formInvariant scenario (foldl (handleEvent scenario) st events).
Proof.
  intros Hall. revert st.
  induction Hall as [|ev events Hev _ IH]; intros st Hinv; simpl.
  - exact Hinv.
  - now apply IH, formInvariant_event.
Qed.

(** Without a click on an option the selections stay as mounted. *)
Lemma customizations_untouched (scenario : DndScenario)
    (events : list FormEvent) (st : FormState) :
  Forall (fun ev => isCustomizationClick ev = false) events ->
  form_selectedCustomizations (foldl (handleEvent scenario) st events)
  = form_selectedCustomizations st.
Proof.
  intros Hall. revert st.
  induction Hall as [|ev events Hev _ IH]; intros st; simpl.
  - reflexivity.
  - rewrite IH. destruct ev as [u|s|attrName change|c o|n]; simpl;
      try reflexivity; try discriminate.
    + unfold handleAttributeChange.
      destruct (_ && _); [reflexivity|]. destruct (_ && _); reflexivity.
    + unfold handleSkillToggle.
      destruct (existsb _ _); [reflexivity|].
      destruct (_ <? _)%nat; [|reflexivity].
      destruct (obj_get _ _); reflexivity.
Qed.

Lemma handleEvent_customizations (scenario : DndScenario) (st : FormState)
    (ev : FormEvent) :
  isCustomizationClick ev = false ->
  form_selectedCustomizations (handleEvent scenario st ev)
  = form_selectedCustomizations st.
Proof.
  intros Hev. apply (customizations_untouched scenario [ev] st).
  apply Forall_cons_2; [assumption | apply Forall_nil_2].
Qed.

(** The selection of a category is the option of the last click on it. *)
Lemma customizations_after_events (scenario : DndScenario)
    (events : list FormEvent) (st : FormState) (categoryKey : string) :
  obj_get categoryKey
    (form_selectedCustomizations (foldl (handleEvent scenario) st events))
  = match last (picksOf categoryKey events) with
    | Some optionKey => Some optionKey
    | None => obj_get categoryKey (form_selectedCustomizations st)
    end.
Proof.
  induction events as [|ev events IH] using rev_ind; [reflexivity|].
  rewrite foldl_snoc. unfold picksOf. rewrite omap_app. fold (picksOf categoryKey events).
  destruct ev as [u|s|attrName change|c o|n];
    try (rewrite handleEvent_customizations by reflexivity;
         cbn [omap list_omap]; rewrite app_nil_r; exact IH).
  cbn [omap list_omap handleEvent handleCustomizationChange
       form_selectedCustomizations].
  destruct (String.eqb_spec c categoryKey) as [->|Hne].
  - rewrite last_snoc. apply obj_get_set_eq.
  - rewrite app_nil_r, obj_get_set_ne by assumption. exact IH.
Qed.

(** A pick made on the rendered form is an option of its category. *)
Lemma picksOf_rendered (scenario : DndScenario) (events : list FormEvent)
    (categoryKey optionKey : string) :
  Forall (fun ev => rendered scenario ev = true) events ->
  optionKey ∈ picksOf categoryKey events ->
  exists category,
    obj_get categoryKey (playerCustomizations scenario) = Some category
    /\ optionKey ∈ obj_keys (content category).
Proof.
  intros Hrendered Hin. unfold picksOf in Hin.
  apply list_elem_of_omap in Hin as (ev & Hev & Hpick).
  rewrite Forall_forall in Hrendered. specialize (Hrendered ev Hev).
  destruct ev as [u|s|attrName change|c o|n]; try discriminate.
  destruct (String.eqb_spec c categoryKey) as [->|]; [|discriminate].
  injection Hpick as ->. cbn [rendered] in Hrendered.
  destruct (obj_get categoryKey (playerCustomizations scenario))
    as [category|]; [|discriminate].
  exists category. split; [reflexivity|].
  now apply bool_decide_eq_true in Hrendered.
Qed.

(** The mounted selections: the first option of each category. *)
Lemma initialCustoms_first (categories : jsobj PlayerCustomizationCategory)
    (acc : jsobj string) (categoryKey : string) :
  NoDup (obj_keys categories) ->
  obj_get categoryKey
    (foldl (fun initialCustoms (entry : string * PlayerCustomizationCategory) =>
              let '(categoryKey, category) := entry in
              match truthy_str (head (obj_keys (content category))) with
              | Some firstOptionKey =>
                  obj_set categoryKey firstOptionKey initialCustoms
              | None => initialCustoms
              end) acc categories)
  = match obj_get categoryKey categories with
    | Some category =>
        match truthy_str (head (obj_keys (content category))) with
        | Some firstOptionKey => Some firstOptionKey
        | None => obj_get categoryKey acc
        end
    | None => obj_get categoryKey acc
    end.
Proof.
  revert acc. induction categories as [|[c0 cat0] categories IH];
    intros acc Hnd; simpl.
  - reflexivity.
  - unfold obj_keys in Hnd. simpl in Hnd. apply NoDup_cons in Hnd as [Hc0 Hnd].
    rewrite IH by assumption.
    destruct (String.eqb_spec c0 categoryKey) as [->|Hne].
    + rewrite (obj_get_not_in_keys categoryKey categories) by assumption.
      destruct (truthy_str (head (obj_keys (content cat0)))); [|reflexivity].
      apply obj_get_set_eq.
    + destruct (truthy_str (head (obj_keys (content cat0))));
        [|reflexivity].
      now rewrite obj_get_set_ne by assumption.
Qed.

Lemma obj_keys_set_inv {V : Type} (k k' : string) (v : V) (o : jsobj V) :
  k' ∈ obj_keys (obj_set k v o) -> k' = k \/ k' ∈ obj_keys o.
Proof.
  rewrite !obj_get_Some_keys, obj_get_set.
  destruct (String.eqb_spec k k') as [->|Hne]; eauto.
Qed.

Lemma initialAttrs_keys_inv (keys : list string) (acc : jsobj Z)
    (k : string) :
  k ∈ obj_keys
        (foldl (fun initialAttrs attrName =>
                  obj_set attrName BASE_ATTRIBUTE_VALUE initialAttrs)
               acc keys) ->
  k ∈ keys \/ k ∈ obj_keys acc.
Proof.
  revert acc. induction keys as [|k0 keys IH]; intros acc Hin; simpl in Hin.
  - now right.
  - apply IH in Hin as [Hin|Hin].
    + left. now apply elem_of_cons; right.
    + apply obj_keys_set_inv in Hin as [->|Hin].
      * left. now apply elem_of_cons; left.
      * now right.
Qed.

(** ** The claim about character creation *)

(** C8, as the specification states it, fails: the form refuses to start a
    game until every bonus point is allocated and a skill is selected, so
    the created state has a skill and an attribute above the starting
    value. *)
Lemma C8_counterexample :
  exists gs,
    (handleStartGame (fun s => s) "2025-01-02T09:00:00.000Z" sampleScenario
       (formAfter sampleScenario sampleEvents)).2 = Some gs
    /\ playerSkills gs
       = [ {| skillName := "stealth"; level := Some 1;
              description := Some "Move unseen" |} ]
    /\ playerSkills gs <> []
    /\ obj_get "Strength" (baseAttributes gs) = Some 15
    /\ 15 <> BASE_ATTRIBUTE_VALUE.
Proof.
  eexists. split; [vm_compute; reflexivity|].
  repeat split; discriminate.
Qed.

(** C8, amended.  The game state produced at character creation (one run
    of each state updater per click, as in a production build) has: a base
    value for exactly the attributes of the scenario, each at least the
    fixed starting value, and together above the starting values by exactly
    the bonus points the player has to allocate; for each category, the
    option of the player's last pick for it, which is an option of that
    category, and the category's first option when the player picked none
    (no selection for a category without options, or one the scenario does
    not have); an empty inventory; the one or two distinct starting skills
    the player has to select, each at level 1; an empty story-flag map; and
    a dialogue history of exactly one introductory narrator entry. *)
Theorem C8_created_state (trim : string -> string) (now : string)
    (scenario : DndScenario) (events : list FormEvent) (gs : GameState) :
  Forall (fun ev => rendered scenario ev = true) events ->
  NoDup (obj_keys (playerCustomizations scenario)) ->
  (handleStartGame trim now scenario (formAfter scenario events)).2
    = Some gs ->
  (forall attr,
      attr ∈ obj_keys (attributes scenario)
      <-> exists v, obj_get attr (baseAttributes gs) = Some v)
  /\ Forall (fun e : string * Z => BASE_ATTRIBUTE_VALUE <= e.2)
       (baseAttributes gs)
  /\ sumZ (baseAttributes gs).*2
     = BASE_ATTRIBUTE_VALUE * Z.of_nat (length (baseAttributes gs))
       + TOTAL_BONUS_POINTS
  /\ (forall categoryKey,
        obj_get categoryKey (selectedCustomizations gs)
        = match last (picksOf categoryKey events),
                obj_get categoryKey (playerCustomizations scenario) with
          | Some optionKey, _ => Some optionKey
          | None, Some category =>
              match head (obj_keys (content category)) with
              | Some firstOptionKey =>
                  if String.eqb firstOptionKey EmptyString then None
                  else Some firstOptionKey
              | None => None
              end
          | None, None => None
          end)
  /\ (forall categoryKey optionKey,
        last (picksOf categoryKey events) = Some optionKey ->
        exists category,
          obj_get categoryKey (playerCustomizations scenario) = Some category
          /\ optionKey ∈ obj_keys (content category))
  /\ (Forall (fun ev => isCustomizationClick ev = false) events ->
      selectedCustomizations gs = initialCustoms scenario)
  /\ inventory gs = []
  /\ (1 <= length (playerSkills gs) <= MAX_STARTING_SKILLS)%nat
  /\ Forall (fun s => level s = Some 1) (playerSkills gs)
  /\ distinctSkillNames (playerSkills gs)
  /\ gameProgression gs = []
  /\ exists introText,
       dialogueHistory gs
       = [ {| role := dm; text := introText; timestamp := now |} ].
Proof.
  intros Hrendered Hcats Hstart.
  pose proof (formInvariant_events scenario events _ Hrendered
                (formInvariant_init scenario))
    as (Hkeys & Hmin & Hsum & Hlen & Hnd & Hlvl).
  fold (formAfter scenario events) in Hkeys, Hmin, Hsum, Hlen, Hnd, Hlvl.
  unfold handleStartGame in Hstart.
  destruct (form_user (formAfter scenario events)); [|discriminate].
  destruct (String.eqb _ EmptyString); [discriminate|].
  destruct (Z.eqb_spec (remainingPoints (formAfter scenario events)) 0)
    as [Hzero|]; [|discriminate].
  destruct (Nat.eqb_spec (length (selectedSkills (formAfter scenario events)))
              0) as [|Hsome]; [discriminate|].
  cbn [negb snd] in Hstart. injection Hstart as <-.
  cbn [baseAttributes selectedCustomizations inventory playerSkills
       gameProgression dialogueHistory].
  split; [|split; [|split; [|split; [|split; [|split; [|split; [|split;
    [|split; [|split; [|split]]]]]]]]]].
  - intros attr.
    change (exists v, obj_get attr
                        (baseAttributeValues (formAfter scenario events))
                      = Some v)
      with (is_Some (obj_get attr
                       (baseAttributeValues (formAfter scenario events)))).
    rewrite <- (obj_get_Some_keys attr), Hkeys.
    unfold initialAttrs. split.
    + intros Hin. apply initialAttrs_keys. now left.
    + intros Hin. apply initialAttrs_keys_inv in Hin as [Hin|Hin];
        [assumption | inversion Hin].
  - assumption.
  - lia.
  - intros categoryKey. unfold formAfter.
    rewrite customizations_after_events.
    destruct (last (picksOf categoryKey events)) as [optionKey|];
      [reflexivity|].
    cbn [initForm form_selectedCustomizations]. unfold initialCustoms.
    rewrite initialCustoms_first by assumption.
    destruct (obj_get categoryKey (playerCustomizations scenario))
      as [category|]; [|reflexivity].
    destruct (head (obj_keys (content category))) as [[|a k]|]; reflexivity.
  - intros categoryKey optionKey Hlast.
    apply (picksOf_rendered scenario events); [assumption|].
    apply last_Some in Hlast as [l' ->]. apply elem_of_app. right.
    now apply list_elem_of_singleton.
  - intros Hnoclick. unfold formAfter.
    now rewrite customizations_untouched.
  - reflexivity.
  - lia.
  - assumption.
  - assumption.
  - reflexivity.
  - eexists. reflexivity.
Qed.

Lemma C8_witness :
  exists gs,
    (handleStartGame (fun s => s) "2025-01-02T09:00:00.000Z" sampleScenario
       (formAfter sampleScenario
          (sampleEvents ++ [CustomizationClick "background" "thief"]))).2
    = Some gs
    /\ sumZ (baseAttributes gs).*2 = 20
    /\ obj_get "background" (selectedCustomizations gs) = Some "thief"
    /\ inventory gs = [].
Proof.
  set (events := (sampleEvents ++ [CustomizationClick "background" "thief"])%list).
  assert (Forall (fun ev => rendered sampleScenario ev = true) events)
    as Hrendered.
  { apply Forall_forall. intros ev Hev.
    repeat (apply elem_of_cons in Hev as [->|Hev]; [vm_compute; reflexivity|]).
    inversion Hev. }
  assert (NoDup (obj_keys (playerCustomizations sampleScenario))) as Hcats.
  { apply (bool_decide_unpack _). vm_compute. reflexivity. }
  eexists. split; [vm_compute; reflexivity|].
  match goal with
  | |- sumZ (baseAttributes ?g).*2 = _ /\ _ =>
      assert ((handleStartGame (fun s => s) "2025-01-02T09:00:00.000Z"
                 sampleScenario (formAfter sampleScenario events)).2
              = Some g) as Hstart by (vm_compute; reflexivity)
  end.
  destruct (C8_created_state (fun s => s) "2025-01-02T09:00:00.000Z"
              sampleScenario events _ Hrendered Hcats Hstart)
    as (_ & _ & Hsum & Hcustoms & _ & _ & Hinv & _).
  split; [exact Hsum|]. split; [|exact Hinv].
  rewrite (Hcustoms "background"). reflexivity.
Defined.

(** * Further properties *)

(** ** Attribute resolver *)




(** What a call that returns holds under each name. *)
Lemma calculateFinalAttributes_lookup (sc : DndScenario)
    (customs : jsobj string) (o final : jsobj Z) (attr : string) :
  calculateFinalAttributes o customs sc = Normal final ->
  obj_get attr final
  = match member attr o with
    | Inherited => None
    | Own _ | Missing => resolve_spec o customs sc attr
    end.
Proof.
  unfold calculateFinalAttributes. intros Hrun.
  destruct (forSelections_readable sc customs o
              (forSelections_Normal sc customs o final Hrun))
    as (final' & Hrun' & Hspec & Hinh & _).
  assert (final' = final) as -> by congruence.
  unfold member. destruct (obj_get attr o) as [v|] eqn:Hget.
  - apply Hspec. left. rewrite Hget. eauto.
  - destruct (bool_decide_reflect (attr ∈ objectPrototype)) as [Hin|Hout].
    + now apply Hinh.
    + apply Hspec. now right.
Qed.



Lemma obj_keys_set_prefix {V : Type} (k : string) (v : V) (o : jsobj V) :
  obj_keys o `prefix_of` obj_keys (obj_set k v o).
Proof.
  destruct (obj_get k o) as [v0|] eqn:Hget.
  - rewrite obj_keys_set_present; [reflexivity|].
    apply obj_get_Some_keys. eauto.
  - rewrite obj_set_absent by assumption. unfold obj_keys.
    rewrite fmap_app. now apply prefix_app_r.
Qed.

Lemma obj_keys_addBonus_prefix (o : jsobj Z) (entry : string * Z) :
  obj_keys o `prefix_of` obj_keys (addBonus o entry).
Proof.
  destruct entry as [k b]. unfold addBonus.
  destruct (member k o); [|reflexivity|]; apply obj_keys_set_prefix.
Qed.

Lemma obj_keys_foldl_addBonus_prefix (bonus : jsobj Z) (o : jsobj Z) :
  obj_keys o `prefix_of` obj_keys (foldl addBonus o bonus).
Proof.
  revert o. induction bonus as [|e bonus IH]; intros o; [reflexivity|].
  cbn [foldl]. etransitivity; [apply obj_keys_addBonus_prefix | apply IH].
Qed.

Lemma forSelections_keys (sc : DndScenario) (customs : jsobj string)
    (o final : jsobj Z) :
  forSelections sc o customs = Normal final ->
  obj_keys o `prefix_of` obj_keys final.
Proof.
  revert o. induction customs as [|[c s] customs IH]; intros o Hrun.
  - injection Hrun as <-. reflexivity.
  - cbn [forSelections] in Hrun.
    destruct (selectedBonus sc c s) as [[bonus|]|]; [| |discriminate].
    + etransitivity; [apply (obj_keys_foldl_addBonus_prefix bonus)|].
      now apply IH.
    + now apply IH.
Qed.

(** X2.  On selections whose categories can be read and whose bonuses name
    no attribute by a string of digits, the resolver keeps every base
    attribute, in the base order, at the head of its result; attributes
    that only a bonus names come after.  (A key that is a string of digits
    is enumerated before the others wherever it was added.) *)
Theorem X2_resolver_keeps_base_keys (baseAttrs : jsobj Z)
    (customs : jsobj string) (sc : DndScenario) :
  readable customs sc ->
  Forall (fun sel =>
            Forall (fun e : string * Z => integerLike e.1 = false)
                   (bonusOf sc sel)) customs ->
  exists final,
    calculateFinalAttributes baseAttrs customs sc = Normal final
    /\ obj_keys baseAttrs `prefix_of` obj_keys final.
Proof.
  intros Hread _. unfold calculateFinalAttributes.
  destruct (forSelections_readable sc customs baseAttrs Hread)
    as (final & Hrun & _).
  exists final. split; [assumption|]. now apply forSelections_keys in Hrun.
Qed.

Lemma X2_witness :
  exists final,
    calculateFinalAttributes [("Strength", 5)] [("background", "thief")]
      sampleScenario = Normal final
    /\ obj_keys [("Strength", 5)] `prefix_of` obj_keys final.
Proof.
  apply (X2_resolver_keeps_base_keys [("Strength", 5)]
           [("background", "thief")] sampleScenario).
  - unfold readable. apply Forall_cons_2; [|apply Forall_nil_2].
    left. cbn. eauto.
  - apply Forall_cons_2; [|apply Forall_nil_2].
    cbn. repeat apply Forall_cons_2; try apply Forall_nil_2; reflexivity.
Defined.

Lemma bonusesFor_app (attr : string) (l1 l2 : jsobj string)
    (sc : DndScenario) :
  bonusesFor attr (l1 ++ l2) sc
  = (bonusesFor attr l1 sc ++ bonusesFor attr l2 sc)%list.
Proof. unfold bonusesFor. apply bind_app. Qed.

Lemma filter_unnamed (attr : string) (bonus : list (string * Z)) :
  attr ∉ obj_keys bonus ->
  (filter (fun e : string * Z => e.1 = attr) bonus).*2 = [].
Proof.
  unfold obj_keys. induction bonus as [|[k b] bonus IH]; intros Hnot.
  - reflexivity.
  - rewrite fmap_cons in Hnot. apply not_elem_of_cons in Hnot as [Hk Hnot].
    rewrite filter_cons_False by (cbn [fst] in *; congruence). now apply IH.
Qed.

Lemma bonusesFor_unnamed (attr categoryKey optionKey : string)
    (sc : DndScenario) :
  ownOrPlain categoryKey (playerCustomizations sc) ->
  (forall bonus,
      selectedBonus sc categoryKey optionKey = Normal (Some bonus) ->
      attr ∉ obj_keys bonus) ->
  bonusesFor attr [(categoryKey, optionKey)] sc = [].
Proof.
  intros Hc Hnot. unfold bonusesFor. rewrite bind_cons.
  change (mbind _ (@nil (string * string))) with (@nil Z).
  rewrite app_nil_r.
  rewrite (selectedBonus_readable sc categoryKey optionKey Hc) in Hnot.
  destruct (bothExist sc (categoryKey, optionKey)) eqn:Hex.
  - apply filter_unnamed, (Hnot _ eq_refl).
  - now rewrite (bonusOf_absent sc _ Hex).
Qed.

Lemma readable_app (l1 l2 : jsobj string) (sc : DndScenario) :
  readable (l1 ++ l2) sc <-> readable l1 sc /\ readable l2 sc.
Proof. unfold readable. apply Forall_app. Qed.

Lemma readable_cons (c s : string) (l : jsobj string) (sc : DndScenario) :
  readable ((c, s) :: l) sc
  <-> ownOrPlain c (playerCustomizations sc) /\ readable l sc.
Proof.
  unfold readable.
  apply (Forall_cons
           (fun sel : string * string =>
              ownOrPlain sel.1 (playerCustomizations sc)) (c, s) l).
Qed.

(** X3.  Replacing the option selected for one category changes no
    attribute that neither the old nor the new option's bonus map names:
    the two calls complete alike, and when they return they hold the same
    under that attribute. *)
Theorem X3_resolver_selection_change_is_local (baseAttrs : jsobj Z)
    (before after : jsobj string) (categoryKey oldOption newOption : string)
    (sc : DndScenario) (attr : string) :
  (forall bonus,
      selectedBonus sc categoryKey oldOption = Normal (Some bonus) ->
      attr ∉ obj_keys bonus) ->
  (forall bonus,
      selectedBonus sc categoryKey newOption = Normal (Some bonus) ->
      attr ∉ obj_keys bonus) ->
  match calculateFinalAttributes baseAttrs
          (before ++ (categoryKey, oldOption) :: after) sc,
        calculateFinalAttributes baseAttrs
          (before ++ (categoryKey, newOption) :: after) sc with
  | Normal final, Normal final' => obj_get attr final = obj_get attr final'
  | TypeError _, TypeError _ => True
  | _, _ => False
  end.
Proof.
  intros Hold Hnew.
  assert (forall o o',
             readable (before ++ (categoryKey, o) :: after) sc ->
             readable (before ++ (categoryKey, o') :: after) sc) as Hswap.
  { intros o o' H. apply readable_app in H as [Hb H].
    apply readable_cons in H as [Hc Ha].
    apply readable_app. split; [assumption|]. now apply readable_cons. }
  destruct (calculateFinalAttributes baseAttrs
              (before ++ (categoryKey, oldOption) :: after) sc)
    as [final|reading] eqn:Hrun;
    destruct (calculateFinalAttributes baseAttrs
                (before ++ (categoryKey, newOption) :: after) sc)
    as [final'|reading'] eqn:Hrun'; [| | |exact I].
  - pose proof (forSelections_Normal _ _ _ _ Hrun) as Hread.
    apply readable_app in Hread as [_ Hread].
    apply readable_cons in Hread as [Hc _].
    rewrite (calculateFinalAttributes_lookup _ _ _ _ attr Hrun).
    rewrite (calculateFinalAttributes_lookup _ _ _ _ attr Hrun').
    destruct (member attr baseAttrs); [|reflexivity|];
      unfold resolve_spec;
      rewrite !(bonusesFor_app attr before);
      rewrite (bonusesFor_app attr [(categoryKey, oldOption)] after);
      rewrite (bonusesFor_app attr [(categoryKey, newOption)] after);
      now rewrite !bonusesFor_unnamed by assumption.
  - apply forSelections_Normal in Hrun. apply (Hswap _ newOption) in Hrun.
    destruct (forSelections_readable sc _ baseAttrs Hrun) as (f & Hf & _).
    unfold calculateFinalAttributes in Hrun'. congruence.
  - apply forSelections_Normal in Hrun'. apply (Hswap _ oldOption) in Hrun'.
    destruct (forSelections_readable sc _ baseAttrs Hrun') as (f & Hf & _).
    unfold calculateFinalAttributes in Hrun. congruence.
Qed.

Lemma X3_witness :
  match calculateFinalAttributes [("Strength", 5); ("Agility", 5)]
          [("background", "soldier")] sampleScenario,
        calculateFinalAttributes [("Strength", 5); ("Agility", 5)]
          [("background", "scholar")] sampleScenario with
  | Normal final, Normal final' =>
      obj_get "Agility" final = obj_get "Agility" final'
  | TypeError _, TypeError _ => True
  | _, _ => False
  end.
Proof.
  apply (X3_resolver_selection_change_is_local
           [("Strength", 5); ("Agility", 5)] [] [] "background" "soldier"
           "scholar" sampleScenario "Agility").
  - intros bonus [= <-]. unfold obj_keys. cbn.
    intros Hin. apply list_elem_of_singleton in Hin. discriminate.
  - intros bonus Hsel. discriminate.
Defined.




(** ** The die and the check *)

(** X5.  The roll follows the sample band by band: a sample in
    [[(k-1)/20, k/20)] rolls [k], or [k + 1] when its product with 20 rounds
    up to the double [k]; no sample rolls above 20.  The double nearest to
    0.95 lies in the band of 19 and rolls 20. *)
Theorem X5_rollD20_bands (rnd : Random) (k : Z) :
  1 <= k <= 20 ->
  ((k - 1) # 20 <= samples rnd (cursor rnd))%Q ->
  (samples rnd (cursor rnd) < k # 20)%Q ->
  (samples rnd (cursor rnd) <= maxSample)%Q ->
  ((rollD20 rnd).1 = k
   \/ ((rollD20 rnd).1 = k + 1
       /\ (nearestDouble (samples rnd (cursor rnd) * inject_Z 20)
           == inject_Z k)%Q))
  /\ (rollD20 rnd).1 <= 20
  /\ (let u := 8556839292003942 # 9007199254740992 in
      (18 # 20 <= u)%Q /\ (u < 19 # 20)%Q
      /\ (rollD20 (constantRandom u)).1 = 20).
Proof.
  intros Hk Hlo Hhi Hmax.
  assert (0 <= samples rnd (cursor rnd))%Q as H0.
  { apply (Qle_trans _ ((k - 1) # 20)); [|assumption].
    unfold Qle. cbn [Qnum Qden]. lia. }
  split; [|split; [apply (rollD20_range rnd H0 Hmax)
                  | repeat split; vm_compute; congruence]].
  unfold rollD20, Math_random. cbn [fst].
  set (u := samples rnd (cursor rnd)) in *.
  set (x := (u * inject_Z 20)%Q).
  assert (inject_Z (k - 1) <= x)%Q as Hx1.
  { subst x. clearbody u. destruct u as [n d].
    unfold Qle, Qmult, inject_Z in *. cbn [Qnum Qden] in *. lia. }
  assert (x < inject_Z k)%Q as Hx2.
  { subst x. clearbody u. destruct u as [n d].
    unfold Qlt, Qle, Qmult, inject_Z in *. cbn [Qnum Qden] in *. lia. }
  destruct (Qlt_le_dec 0 x) as [Hpos|Hzero].
  - assert (x < inject_Z (2 ^ 53))%Q as Hbig.
    { apply (Qlt_le_trans _ (inject_Z k)); [assumption|].
      rewrite <- Zle_Qle. lia. }
    destruct (nearestDouble_integer x (k - 1) Hpos Hbig) as [_ Hge].
    destruct (nearestDouble_integer x k Hpos Hbig) as [Hle _].
    specialize (Hge Hx1). specialize (Hle (Qlt_le_weak _ _ Hx2)).
    pose proof (Qfloor_resp_le _ _ Hge) as Hf1. rewrite Qfloor_Z in Hf1.
    pose proof (Qfloor_resp_le _ _ Hle) as Hf2. rewrite Qfloor_Z in Hf2.
    destruct (Z.eq_dec (Qfloor (nearestDouble x)) k) as [Heq|Hne];
      [right | left; lia].
    split; [lia|]. apply Qle_antisym; [assumption|].
    rewrite <- Heq. apply Qfloor_le.
  - left. unfold nearestDouble.
    assert (Qle_bool x 0 = true) as -> by now apply Qle_bool_iff.
    change (Qfloor 0) with 0.
    assert (inject_Z (k - 1) <= inject_Z 0)%Q as Hk0
      by (apply (Qle_trans _ x); assumption).
    rewrite <- Zle_Qle in Hk0. lia.
Qed.

Lemma X5_witness : (rollD20 (constantRandom (14 # 20))).1 = 15.
Proof.
  destruct (X5_rollD20_bands (constantRandom (14 # 20)) 15)
    as ([H|[H _]] & _); [lia | discriminate | reflexivity | discriminate
                        | exact H | vm_compute in H; discriminate].
Defined.

(** X6.  For rolls of a d20, a check that succeeds still succeeds with a
    higher roll, a higher attribute value or a lower difficulty class. *)
Theorem X6_skillCheck_monotone (roll roll' v v' dc dc' : Z) :
  1 <= roll -> roll <= roll' -> roll' <= 20 -> v <= v' -> dc' <= dc ->
  skillCheck roll v dc = true -> skillCheck roll' v' dc' = true.
Proof.
  unfold skillCheck. intros H1 Hroll H20 Hv Hdc.
  destruct (Z.eqb_spec roll' 1) as [->|Hn1].
  { replace roll with 1 by lia. discriminate. }
  destruct (Z.eqb_spec roll' 20) as [->|Hn20]; [reflexivity|].
  destruct (Z.eqb_spec roll 1); [discriminate|].
  destruct (Z.eqb_spec roll 20); [lia|].
  intros Hok. apply Z.leb_le in Hok. apply Z.leb_le. lia.
Qed.

Lemma X6_witness : skillCheck 12 4 15 = true /\ skillCheck 13 6 14 = true.
Proof.
  assert (skillCheck 12 4 15 = true) as Hok by reflexivity.
  split; [exact Hok|].
  apply (X6_skillCheck_monotone 12 13 4 6 15 14); [lia..|exact Hok].
Defined.

(** ** State delta applier *)


Lemma applyUpdates_gameProgression (JSON : JsonPrinter) (gs : GameState) (changes : Changes) :
  gameProgression (applyUpdates JSON gs changes).1
  = foldl applyStoryFlag (gameProgression gs)
          (default [] (storyFlags changes)).
Proof. applier_cases changes. Qed.

Lemma applyUpdates_frame (JSON : JsonPrinter) (gs : GameState) (changes : Changes) :
  let after := (applyUpdates JSON gs changes).1 in
  scenarioId after = scenarioId gs
  /\ scenarioName after = scenarioName gs
  /\ selectedCustomizations after = selectedCustomizations gs
  /\ playerCharacterName after = playerCharacterName gs
  /\ dialogueHistory after = dialogueHistory gs.
Proof.
  cbv zeta.
  unfold applyUpdates, applyItems, applyAttributes, applySkills,
    applyLocation, applyFlags;
  destruct (itemChanges changes) as [[|? ?]|],
    (attributeChanges changes) as [[|? ?]|],
    (skillChanges changes) as [[|? ?]|],
    (truthy_str (locationUpdate changes)),
    (storyFlags changes) as [[|? ?]|]; simpl; repeat split.
Qed.

(** X7.  A delta whose lists are all absent or empty, whose location is
    absent or empty and which asks for no roll changes nothing: the state
    is returned as it was, the summary is empty and the random source is
    untouched. *)
Theorem X7_degenerate_delta_is_noop (JSON : JsonPrinter)
    (gs : GameState) (changes : Changes)
    (finalAttributes : jsobj Z) (rnd : Random) :
  itemChanges changes = None \/ itemChanges changes = Some [] ->
  attributeChanges changes = None \/ attributeChanges changes = Some [] ->
  skillChanges changes = None \/ skillChanges changes = Some [] ->
  locationUpdate changes = None
    \/ locationUpdate changes = Some EmptyString ->
  storyFlags changes = None \/ storyFlags changes = Some [] ->
  requiresDiceRoll changes <> Some true ->
  applyGameStateChanges JSON gs changes finalAttributes rnd
  = (gs, EmptyString, rnd).
Proof.
  intros Hi Ha Hs Hl Hf Hr.
  unfold applyGameStateChanges, applyUpdates, applyItems, applyAttributes,
    applySkills, applyLocation, applyFlags, checkRequested.
  destruct Hi as [-> | ->], Ha as [-> | ->], Hs as [-> | ->],
    Hl as [-> | ->], Hf as [-> | ->]; cbn [nonempty truthy_str];
    destruct (requiresDiceRoll changes) as [[|]|];
    congruence || reflexivity.
Qed.

Lemma X7_witness :
  applyGameStateChanges sampleJson sampleState noChanges [] (constantRandom 0)
  = (sampleState, EmptyString, constantRandom 0).
Proof.
  apply (X7_degenerate_delta_is_noop sampleJson sampleState noChanges []
           (constantRandom 0));
    try (left; reflexivity).
  discriminate.
Defined.





Lemma obj_get_foldl_applyStoryFlag (f : string) (l : list StoryFlag)
    (progression : jsobj FlagValue) :
  f <> "__proto__" \/ is_Some (obj_get f progression) ->
  obj_get f (foldl applyStoryFlag progression l)
  = match last (filter (fun sf => flag sf = f) l) with
    | Some sf => Some (flag_value sf)
    | None => obj_get f progression
    end.
Proof.
  intros Hf. induction l as [|sf l IH] using rev_ind; [reflexivity|].
  rewrite foldl_snoc, filter_app, last_app. unfold applyStoryFlag at 1.
  destruct (decide (flag sf = f)) as [Heq|Hne].
  - rewrite filter_cons_True by assumption. cbn [filter list_filter last].
    rewrite Heq.
    assert (f <> "__proto__"
            \/ is_Some (obj_get f (foldl applyStoryFlag progression l)))
      as [Hplain|[v Hown]].
    { destruct Hf as [Hplain|Hown]; [now left | right]. rewrite IH.
      destruct (last _); eauto. }
    + apply String.eqb_neq in Hplain. rewrite Hplain.
      destruct (obj_get f (foldl applyStoryFlag progression l));
        apply obj_get_set_eq.
    + rewrite Hown. apply obj_get_set_eq.
  - rewrite filter_cons_False by assumption. cbn [filter list_filter last].
    destruct (obj_get (flag sf) (foldl applyStoryFlag progression l));
      [now rewrite obj_get_set_ne by assumption|].
    destruct (String.eqb (flag sf) "__proto__"); [assumption|].
    now rewrite obj_get_set_ne by assumption.
Qed.

(** X9.  After a delta, a story flag holds the value of the last write the
    delta lists for it, and a flag the delta does not write holds what it
    held before.  The flag is one the state has or one not named
    [__proto__]: an assignment under that name to an object without such an
    entry stores nothing. *)
Theorem X9_story_flags_last_write_wins (JSON : JsonPrinter)
    (gs : GameState) (changes : Changes)
    (finalAttributes : jsobj Z) (rnd : Random) (f : string) :
  f <> "__proto__" \/ is_Some (obj_get f (gameProgression gs)) ->
  obj_get f
    (gameProgression
       (applyGameStateChanges JSON gs changes finalAttributes rnd).1.1)
  = match last (writesOf f changes) with
    | Some sf => Some (flag_value sf)
    | None => obj_get f (gameProgression gs)
    end.
Proof.
  intros Hf.
  rewrite applyGameStateChanges_state, applyUpdates_gameProgression.
  now apply obj_get_foldl_applyStoryFlag.
Qed.

Lemma X9_witness :
  obj_get "door"
    (gameProgression
       (applyGameStateChanges sampleJson sampleState
          {| relevantAttribute := None; difficultyClass := None;
             itemChanges := None; attributeChanges := None;
             skillChanges := None; locationUpdate := None;
             storyFlags :=
               Some [ {| flag := "door"; flag_value := FlagBool false |};
                      {| flag := "__proto__"; flag_value := FlagNum 1 |};
                      {| flag := "door"; flag_value := FlagBool true |} ];
             requiresDiceRoll := None |}
          [] (constantRandom 0)).1.1)
  = Some (FlagBool true).
Proof.
  rewrite (X9_story_flags_last_write_wins sampleJson sampleState _ []
             (constantRandom 0) "door").
  - reflexivity.
  - left. discriminate.
Defined.

(** X10.  Whatever the delta, the applier leaves the scenario reference,
    the selected customizations, the character name and the dialogue
    history as they were. *)
Theorem X10_applier_frame (JSON : JsonPrinter)
    (gs : GameState) (changes : Changes)
    (finalAttributes : jsobj Z) (rnd : Random) :
  let after :=
    (applyGameStateChanges JSON gs changes finalAttributes rnd).1.1 in
  scenarioId after = scenarioId gs
  /\ scenarioName after = scenarioName gs
  /\ selectedCustomizations after = selectedCustomizations gs
  /\ playerCharacterName after = playerCharacterName gs
  /\ dialogueHistory after = dialogueHistory gs.
Proof.
  cbv zeta. rewrite applyGameStateChanges_state. apply applyUpdates_frame.
Qed.

(** X11.  A roll is drawn exactly on the full request: the roll flag
    true, a non-empty attribute name and a difficulty class, for which
    [null] counts.  Without it no roll is drawn and the summary carries no
    check: the random source is returned as it was.  With it the random
    source has given one sample. *)
Theorem X11_no_roll_without_request (JSON : JsonPrinter)
    (gs : GameState) (changes : Changes)
    (finalAttributes : jsobj Z) (rnd : Random) :
  let result := applyGameStateChanges JSON gs changes finalAttributes rnd in
  (requiresDiceRoll changes <> Some true
   \/ relevantAttribute changes = None
   \/ relevantAttribute changes = Some EmptyString
   \/ difficultyClass changes = None ->
   result = (applyUpdates JSON gs changes, rnd))
  /\ (forall attr dc,
        requiresDiceRoll changes = Some true ->
        relevantAttribute changes = Some attr -> attr <> EmptyString ->
        difficultyClass changes = Some dc ->
        cursor result.2 = S (cursor rnd))
  /\ cursor
       (applyGameStateChanges sampleJson sampleState
          {| relevantAttribute := Some "Strength";
             difficultyClass := Some None;
             itemChanges := None; attributeChanges := None;
             skillChanges := None; locationUpdate := None;
             storyFlags := None; requiresDiceRoll := Some true |}
          [("Strength", 3)] (constantRandom 0)).2
     = 1%nat.
Proof.
  cbv zeta. split; [|split; [|reflexivity]].
  - intros Hno. unfold applyGameStateChanges.
    assert (checkRequested changes = None) as Hcheck.
    { unfold checkRequested.
      destruct (requiresDiceRoll changes) as [[|]|]; try reflexivity.
      destruct Hno as [H|[H|[H|H]]]; [congruence|rewrite H..];
        try reflexivity.
      now destruct (truthy_str (relevantAttribute changes)). }
    rewrite Hcheck. now destruct (applyUpdates JSON gs changes).
  - intros attr dc Hreq Hattr Hne Hdc. unfold applyGameStateChanges.
    assert (checkRequested changes = Some (attr, dc)) as Hcheck.
    { unfold checkRequested. rewrite Hreq, Hattr, Hdc.
      destruct attr; [congruence | reflexivity]. }
    rewrite Hcheck. now destruct (applyUpdates JSON gs changes).
Qed.

Lemma X11_witness :
  (applyGameStateChanges sampleJson sampleState
     {| relevantAttribute := Some "Strength"; difficultyClass := None;
        itemChanges := None; attributeChanges := None; skillChanges := None;
        locationUpdate := None; storyFlags := None;
        requiresDiceRoll := Some true |}
     [("Strength", 3)] (constantRandom 0)).2 = constantRandom 0.
Proof.
  destruct (X11_no_roll_without_request sampleJson sampleState
              {| relevantAttribute := Some "Strength";
                 difficultyClass := None;
                 itemChanges := None; attributeChanges := None;
                 skillChanges := None; locationUpdate := None;
                 storyFlags := None; requiresDiceRoll := Some true |}
              [("Strength", 3)] (constantRandom 0)) as [Hno _].
  rewrite Hno; [reflexivity|].
  right. right. right. reflexivity.
Defined.

(** *** Items *)

Lemma findIndex_None_names (inv : list InventoryItem) (n : string) :
  findIndex (fun it => String.eqb (item it) n) inv = None
  <-> n ∉ item <$> inv.
Proof.
  rewrite findIndex_None, Forall_forall. split.
  - intros Hall Hin. apply list_elem_of_fmap in Hin as (it & -> & Hin).
    specialize (Hall it Hin). now rewrite String.eqb_refl in Hall.
  - intros Hnot it Hin. apply String.eqb_neq. intros Heq. apply Hnot.
    rewrite <- Heq. now apply list_elem_of_fmap_2.
Qed.




Lemma item_alter_set_quantity (g : InventoryItem -> Z)
    (inv : list InventoryItem) (i : nat) :
  item <$> alter (fun it => set_quantity it (g it)) i inv = item <$> inv.
Proof.
  rewrite (list_fmap_alter _ _ (fun n => n)).
  - now apply list_alter_id.
  - apply Forall_forall. reflexivity.
Qed.

Lemma applyItemChange_distinct (inv : list InventoryItem)
    (change : ItemChange) :
  distinctItemNames inv -> distinctItemNames (applyItemChange inv change).
Proof.
  unfold distinctItemNames, applyItemChange. intros Hnd.
  destruct (findIndex _ inv) as [i|] eqn:Hfind.
  - destruct (alter _ i inv !! i) as [it|]; [|now rewrite item_alter_set_quantity].
    destruct (quantity it <=? 0); [|now rewrite item_alter_set_quantity].
    rewrite list_fmap_delete, item_alter_set_quantity.
    apply (sublist_NoDup _ _ Hnd), sublist_delete.
  - destruct (0 <? quantityChange change); [|assumption].
    rewrite fmap_app. apply NoDup_app. split; [assumption|].
    split; [|apply NoDup_singleton].
    intros m Hin Hm. apply list_elem_of_singleton in Hm. subst m.
    now apply findIndex_None_names in Hfind.
Qed.

(** X13.  From an inventory whose item names are pairwise distinct, every
    sequence of deltas leaves, after each of its calls, an inventory whose
    item names are pairwise distinct. *)
Theorem X13_item_names_stay_distinct (JSON : JsonPrinter) (gs : GameState)
    (rnd : Random) (calls : list (Changes * jsobj Z)) (n : nat) :
  distinctItemNames (inventory gs) ->
  distinctItemNames
    (inventory (applySequence JSON gs rnd (take n calls)).1).
Proof.
  apply (applySequence_invariant JSON
           (fun g => distinctItemNames (inventory g))).
  intros g changes fa r Hg.
  rewrite applyGameStateChanges_state, applyUpdates_inventory.
  generalize (default [] (itemChanges changes)) as l.
  intros l. revert Hg. generalize (inventory g) as inv.
  induction l as [|c l IH]; intros inv Hinv; [assumption|].
  cbn [foldl]. now apply IH, applyItemChange_distinct.
Qed.

Lemma X13_witness :
  distinctItemNames
    (inventory
       (applySequence sampleJson sampleState (constantRandom 0)
          sampleItemCalls).1).
Proof.
  apply (X13_item_names_stay_distinct sampleJson sampleState
           (constantRandom 0) sampleItemCalls 2).
  apply NoDup_singleton.
Defined.

(** *** Skills *)

Lemma filter_other_names (skills : list PlayerSkill) (n : string) :
  n ∉ skillName <$> skills ->
  List.filter (fun s => negb (String.eqb (skillName s) n)) skills = skills.
Proof.
  induction skills as [|s skills IH]; intros Hnot; [reflexivity|].
  rewrite fmap_cons in Hnot. apply not_elem_of_cons in Hnot as [Hs Hnot].
  cbn [List.filter]. apply not_eq_sym in Hs. apply String.eqb_neq in Hs.
  rewrite Hs. cbn [negb]. now rewrite IH.
Qed.

(** X14.  In a skill list of pairwise distinct names, [forget] removes the
    named skill and nothing else, keeping the order of the rest; the name
    is no longer in the list. *)
Theorem X14_forget_removes_the_skill (skills : list PlayerSkill)
    (n : string) (v : option Z) :
  distinctSkillNames skills ->
  let after :=
    applySkillChange skills
      {| sk_skillName := n; type := forget; value := v |} in
  after = List.filter (fun s => negb (String.eqb (skillName s) n)) skills
  /\ n ∉ skillName <$> after.
Proof.
  intros Hnd.
  assert (applySkillChange skills
            {| sk_skillName := n; type := forget; value := v |}
          = List.filter (fun s => negb (String.eqb (skillName s) n)) skills)
    as Heq.
  { unfold applySkillChange. cbn [sk_skillName type value].
    unfold distinctSkillNames in Hnd.
    induction skills as [|s skills IH]; [reflexivity|].
    rewrite fmap_cons in Hnd. apply NoDup_cons in Hnd as [Hs Hnd].
    specialize (IH Hnd). cbn [findIndex List.filter].
    destruct (String.eqb_spec (skillName s) n) as [Hname|Hname]; cbn [negb].
    - now rewrite filter_other_names by congruence.
    - destruct (findIndex _ skills) as [i|]; cbn [fmap option_fmap option_map].
      + cbn [delete list_delete]. f_equal. exact IH.
      + f_equal. exact IH. }
  cbv zeta. rewrite Heq. split; [reflexivity|].
  intros Hin. apply list_elem_of_fmap in Hin as (s & -> & Hin).
  apply list_elem_of_In, filter_In in Hin as [_ Hs].
  now rewrite String.eqb_refl in Hs.
Qed.

Lemma X14_witness :
  applySkillChange (playerSkills sampleState)
    {| sk_skillName := "brawl"; type := forget; value := None |} = [].
Proof.
  apply (X14_forget_removes_the_skill (playerSkills sampleState) "brawl"
           None).
  apply NoDup_singleton.
Defined.

Lemma applySkillChange_nonnegative (skills : list PlayerSkill)
    (change : SkillChange) :
  (type change = learn \/ type change = improve ->
   forall v, value change = Some v -> 0 <= v) ->
  nonnegativeLevels skills ->
  nonnegativeLevels (applySkillChange skills change).
Proof.
  unfold nonnegativeLevels, applySkillChange. intros Hval Hall.
  destruct (findIndex _ skills) as [i|].
  - destruct (type change) eqn:Hty, (value change) as [v|] eqn:Hv;
      try assumption; try (now apply Forall_delete).
    + apply Forall_alter; [assumption|]. intros s Hs Hlvl l [= <-].
      specialize (Hval (or_intror eq_refl) v eq_refl).
      destruct (level s) as [l0|] eqn:Hl0; cbn [num_or].
      * specialize (Hlvl l0 eq_refl). destruct (Z.eqb l0 0); lia.
      * lia.
    + apply Forall_alter; [assumption|]. intros s Hs Hlvl l [= <-]. lia.
  - destruct (type change) eqn:Hty; try assumption.
    apply Forall_app. split; [assumption|].
    constructor; [|constructor]. cbn [level]. intros l [= <-].
    destruct (value change) as [v|] eqn:Hv; cbn [num_or]; [|lia].
    specialize (Hval (or_introl eq_refl) v eq_refl).
    destruct (Z.eqb v 0); lia.
Qed.

(** X15.  When the values a delta gives for [learn] and [improve] are not
    negative, a skill list without negative levels stays without negative
    levels; [deteriorate] never takes a level below zero, whatever its
    value. *)
Theorem X15_levels_stay_nonnegative (JSON : JsonPrinter) (gs : GameState)
    (changes : Changes) (finalAttributes : jsobj Z) (rnd : Random) :
  Forall (fun change =>
            type change = learn \/ type change = improve ->
            forall v, value change = Some v -> 0 <= v)
         (default [] (skillChanges changes)) ->
  nonnegativeLevels (playerSkills gs) ->
  nonnegativeLevels
    (playerSkills
       (applyGameStateChanges JSON gs changes finalAttributes rnd).1.1).
Proof.
  rewrite applyGameStateChanges_state, applyUpdates_playerSkills.
  generalize (default [] (skillChanges changes)) as l.
  generalize (playerSkills gs) as skills. intros skills l Hall.
  revert skills. induction Hall as [|c l Hc _ IH]; intros skills Hskills.
  - assumption.
  - cbn [foldl]. now apply IH, applySkillChange_nonnegative.
Qed.

Lemma X15_witness :
  nonnegativeLevels
    (playerSkills
       (applyGameStateChanges sampleJson sampleState
          (skillDelta [ {| sk_skillName := "brawl"; type := deteriorate;
                           value := Some 7 |};
                        {| sk_skillName := "stealth"; type := learn;
                           value := Some 0 |} ])
          [] (constantRandom 0)).1.1).
Proof.
  apply (X15_levels_stay_nonnegative sampleJson sampleState _ []
           (constantRandom 0)).
  - apply Forall_cons. split; [intros [H|H]; discriminate|].
    apply Forall_cons. split; [intros _ v [= <-]; lia|].
    apply Forall_nil_2.
  - apply Forall_cons. split; [intros l [= <-]; lia | apply Forall_nil_2].
Defined.

(** ** Turn orchestrator *)

(** A property of the state that the applier and a push to the history
    preserve holds after the in-memory part of a turn. *)
Lemma runTurn_invariant (JSON : JsonPrinter) (P : GameState -> Prop)
    (env : Env) (scenario : DndScenario) (gs : GameState) (fa : jsobj Z)
    (userAction : string) (rnd : Random) :
  (forall g changes fa r,
      P g -> P (applyGameStateChanges JSON g changes fa r).1.1) ->
  (forall g entry, P g -> P (push_dialogue g entry)) ->
  P gs -> P (runTurn JSON env scenario gs fa userAction rnd).1.
Proof.
  intros Happly Hpush Hgs. rewrite runTurn_run. cbv zeta. cbn [fst].
  apply Hpush. rewrite tryBlock_run.
  destruct (playerActionParser env scenario _ _ userAction)
    as [message|parsedAction]; cbn [fst snd]; [now apply Hpush|].
  cbv zeta.
  destruct (calculateFinalAttributes _ _ scenario) as [fa2|reading];
    cbn [fst snd]; [|now apply Happly, Hpush].
  destruct (dmNarrativeGenerator env scenario _ _ _ userAction)
    as [message|narrativeContent]; cbn [fst snd];
    [now apply Happly, Hpush|].
  destruct (dmStateChangeParser env _ _ _) as [message|dmChanges];
    cbn [fst snd]; [now apply Happly, Hpush|].
  now apply Happly, Happly, Hpush.
Qed.

(** The store after a call: the row of the session may have a new state
    and time stamp, nothing else differs. *)
Lemma handleUserAction_store (JSON : JsonPrinter)
    (allScenarios : list DndScenario) (env : Env)
    (db : gmap string GameTableRow) (rnd : Random)
    (sessionId userAction : string) :
  let result :=
    handleUserAction JSON allScenarios env db rnd sessionId userAction in
  (result.1.2 = db /\ exists message, result.1.1 = Thrown message)
  \/ exists row scenario fa final,
       db !! sessionId = Some row
       /\ find_first (fun s => String.eqb (sc_id s) (scenario_id row))
            allScenarios = Some scenario
       /\ calculateFinalAttributes (baseAttributes (state row))
            (selectedCustomizations (state row)) scenario = Normal fa
       /\ final
          = (runTurn JSON env scenario (state row) fa userAction rnd).1
       /\ result.1.1 = Returned final
       /\ result.1.2
          = <[sessionId := set_state row final (now_update env)]> db.
Proof.
  cbv zeta.
  destruct (auth_getUser env) as [uid|] eqn:Hauth;
    [|left; unfold handleUserAction; rewrite Hauth; eauto].
  destruct (select_error env) eqn:Hsel;
    [left; unfold handleUserAction; rewrite Hauth, Hsel; eauto|].
  destruct (db !! sessionId) as [row|] eqn:Hrow;
    [|left; unfold handleUserAction; rewrite Hauth, Hsel, Hrow; eauto].
  destruct (String.eqb_spec (user_id row) uid) as [<-|Hne].
  - destruct (find_first (fun s => String.eqb (sc_id s) (scenario_id row))
                allScenarios) as [scenario|] eqn:Hsc.
    + destruct (calculateFinalAttributes (baseAttributes (state row))
                  (selectedCustomizations (state row)) scenario)
        as [fa|reading] eqn:Hfa.
      * rewrite (handleUserAction_run JSON allScenarios env db rnd sessionId
                   userAction row scenario fa Hauth Hsel Hrow Hsc Hfa).
        cbv zeta. destruct (update_error env); [left; eauto|].
        right. eexists row, scenario, fa, _.
        repeat split; eassumption || reflexivity.
      * rewrite (handleUserAction_throws JSON allScenarios env db rnd
                   sessionId userAction row scenario reading Hauth Hsel Hrow
                   Hsc Hfa).
        left. eauto.
    + left. unfold handleUserAction.
      rewrite Hauth, Hsel, Hrow, String.eqb_refl, Hsc. eauto.
  - left. unfold handleUserAction. rewrite Hauth, Hsel, Hrow.
    apply String.eqb_neq in Hne. rewrite Hne. eauto.
Qed.

(** X16.  A call of the server action changes no row but that of its
    session, and of that row nothing but the state and the time of update:
    id, owner, scenario, name, time of creation and active flag stay. *)
Theorem X16_turn_writes_only_its_row (JSON : JsonPrinter)
    (allScenarios : list DndScenario) (env : Env)
    (db : gmap string GameTableRow) (rnd : Random)
    (sessionId userAction : string) :
  let db' :=
    (handleUserAction JSON allScenarios env db rnd sessionId userAction).1.2
  in
  (forall k, k <> sessionId -> db' !! k = db !! k)
  /\ (forall row',
        db' !! sessionId = Some row' ->
        exists row,
          db !! sessionId = Some row
          /\ row_id row' = row_id row /\ user_id row' = user_id row
          /\ scenario_id row' = scenario_id row /\ name row' = name row
          /\ created_at row' = created_at row
          /\ is_active row' = is_active row).
Proof.
  cbv zeta.
  destruct (handleUserAction_store JSON allScenarios env db rnd sessionId
              userAction) as [[-> _] | (row & scenario & fa & final & Hrow
                                        & _ & _ & _ & _ & ->)].
  - split; [reflexivity|]. intros row' Hrow'. exists row'. now repeat split.
  - split.
    + intros k Hk. now apply lookup_insert_ne.
    + intros row'. rewrite lookup_insert_eq. intros [= <-].
      exists row. now repeat split.
Qed.

(** X17.  When the store reports an error on the final write, the call
    throws the save failure and the store is as it was before the call,
    whatever the turn had applied in memory.  (When the attributes of the
    loaded state do not resolve, the call has thrown that error before, and
    the store is as it was all the same.) *)
Theorem X17_persistence_failure_keeps_store (JSON : JsonPrinter)
    (allScenarios : list DndScenario) (env : Env)
    (db : gmap string GameTableRow) (rnd : Random)
    (sessionId userAction : string) (row : GameTableRow)
    (scenario : DndScenario) :
  auth_getUser env = Some (user_id row) ->
  select_error env = false ->
  db !! sessionId = Some row ->
  find_first (fun s => String.eqb (sc_id s) (scenario_id row)) allScenarios
    = Some scenario ->
  update_error env = true ->
  (handleUserAction JSON allScenarios env db rnd sessionId userAction).1
  = (Thrown
       match calculateFinalAttributes (baseAttributes (state row))
               (selectedCustomizations (state row)) scenario with
       | Normal _ => "保存游戏状态失败。"
       | TypeError reading => typeError_message env reading
       end, db).
Proof.
  intros Hauth Hsel Hrow Hsc Hupd.
  destruct (calculateFinalAttributes (baseAttributes (state row))
              (selectedCustomizations (state row)) scenario)
    as [fa|reading] eqn:Hfa.
  - rewrite (handleUserAction_run JSON allScenarios env db rnd sessionId
               userAction row scenario fa Hauth Hsel Hrow Hsc Hfa).
    cbv zeta. now rewrite Hupd.
  - now rewrite (handleUserAction_throws JSON allScenarios env db rnd
                   sessionId userAction row scenario reading Hauth Hsel Hrow
                   Hsc Hfa).
Qed.

(** X18.  When the preconditions hold, the attributes of the loaded state
    resolve, the three narration calls return and the store accepts the
    write, the call returns the state with the parsed delta and then the
    narrative's delta applied; the row of the session in the store holds
    exactly that state and the time of the write, its other columns and
    every other row being as before; the history is the prior history, the
    player's entry and the narrator entry; and the narrator entry carries
    the narrative, or the fixed line when the narrative is absent or
    empty. *)
Theorem X18_successful_turn (JSON : JsonPrinter)
    (allScenarios : list DndScenario) (env : Env)
    (db : gmap string GameTableRow) (rnd : Random)
    (sessionId userAction : string) (row : GameTableRow)
    (scenario : DndScenario) (fa fa2 : jsobj Z) (parsed dmChanges : Changes)
    (narrativeContent : option string) :
  auth_getUser env = Some (user_id row) ->
  select_error env = false ->
  db !! sessionId = Some row ->
  find_first (fun s => String.eqb (sc_id s) (scenario_id row)) allScenarios
    = Some scenario ->
  calculateFinalAttributes (baseAttributes (state row))
    (selectedCustomizations (state row)) scenario = Normal fa ->
  update_error env = false ->
  let gs := state row in
  let playerEntry :=
    {| role := user; text := userAction; timestamp := now_user env |} in
  let gs1 := push_dialogue gs playerEntry in
  let r1 := applyGameStateChanges JSON gs1 parsed fa rnd in
  let dmNarrative :=
    match narrativeContent with
    | None | Some EmptyString => "DM无语了。故事继续..."
    | Some narrative => narrative
    end in
  let narratorEntry :=
    {| role := dm; text := dmNarrative; timestamp := now_dm env |} in
  let r2 := applyGameStateChanges JSON r1.1.1 dmChanges fa2 r1.2 in
  let final := push_dialogue r2.1.1 narratorEntry in
  playerActionParser env scenario gs1 fa userAction = inr parsed ->
  calculateFinalAttributes (baseAttributes r1.1.1)
    (selectedCustomizations r1.1.1) scenario = Normal fa2 ->
  dmNarrativeGenerator env scenario r1.1.1 fa2 r1.1.2 userAction
    = inr narrativeContent ->
  dmStateChangeParser env dmNarrative r1.1.1 fa2 = inr dmChanges ->
  let result :=
    handleUserAction JSON allScenarios env db rnd sessionId userAction in
  result.1.1 = Returned final
  /\ result.2 = r2.2
  /\ result.1.2 !! sessionId
     = Some {| row_id := row_id row; user_id := user_id row;
               scenario_id := scenario_id row; name := name row;
               state := final; created_at := created_at row;
               updated_at := now_update env; is_active := is_active row |}
  /\ (forall other, other <> sessionId -> result.1.2 !! other = db !! other)
  /\ dialogueHistory final
     = (dialogueHistory gs ++ [playerEntry; narratorEntry])%list.
Proof.
  intros Hauth Hsel Hrow Hsc Hfa Hupd gs playerEntry gs1 r1 dmNarrative
    narratorEntry r2 final H1 Hfa2 H2 H3 result.
  assert (str_or narrativeContent dmSilent = dmNarrative) as Hnarrative.
  { subst dmNarrative. now destruct narrativeContent as [[|? ?]|]. }
  assert (result
          = (Returned final,
             <[sessionId := set_state row final (now_update env)]> db,
             r2.2)) as ->.
  { subst result.
    rewrite (handleUserAction_run JSON allScenarios env db rnd sessionId
               userAction row scenario fa Hauth Hsel Hrow Hsc Hfa).
    cbv zeta. rewrite Hupd, runTurn_run. cbv zeta.
    rewrite tryBlock_run. cbv zeta.
    change (userEntry env userAction) with playerEntry.
    fold gs gs1. rewrite H1. fold r1. rewrite Hfa2, H2, Hnarrative, H3.
    reflexivity. }
  cbn [fst snd].
  split; [reflexivity|]. split; [reflexivity|].
  split; [now rewrite lookup_insert_eq|].
  split; [intros other Hother; now rewrite lookup_insert_ne by congruence|].
  subst final. cbn [push_dialogue dialogueHistory]. subst r2 r1.
  rewrite !applyGameStateChanges_dialogueHistory. subst gs1.
  cbn [push_dialogue dialogueHistory]. now rewrite <- app_assoc.
Qed.

Lemma X17_witness :
  (handleUserAction sampleJson [sampleScenario] storeDownEnv sampleDb
     (constantRandom 0) "s1" "open the cellar door").1
  = (Thrown "保存游戏状态失败。", sampleDb).
Proof.
  apply (X17_persistence_failure_keeps_store sampleJson [sampleScenario]
           storeDownEnv sampleDb (constantRandom 0) "s1"
           "open the cellar door" sampleRow sampleScenario);
    reflexivity.
Defined.

Lemma X18_witness :
  let result :=
    handleUserAction sampleJson [sampleScenario] (sampleEnv []) sampleDb
      (constantRandom 0) "s1" "open the cellar door" in
  exists final,
    result.1.1 = Returned final
    /\ state <$> result.1.2 !! "s1" = Some final
    /\ updated_at <$> result.1.2 !! "s1" = Some "2025-01-02T10:00:06.000Z"
    /\ currentLocation final = "The cellar"
    /\ inventory final
       = [ {| item := "sword"; quantity := 1 |};
           {| item := "potion"; quantity := 1 |} ]
    /\ dialogueHistory final
       = [ sampleIntro;
           {| role := user; text := "open the cellar door";
              timestamp := "2025-01-02T10:00:00.000Z" |};
           {| role := dm; text := "The cellar door creaks open.";
              timestamp := "2025-01-02T10:00:05.000Z" |} ].
Proof.
  destruct (X18_successful_turn sampleJson [sampleScenario] (sampleEnv [])
              sampleDb (constantRandom 0) "s1" "open the cellar door"
              sampleRow sampleScenario
              [("Strength", 7); ("Agility", 5)]
              [("Strength", 7); ("Agility", 5)]
              (itemDelta [ {| ic_item := "potion"; quantityChange := 1 |} ])
              (locationDelta "The cellar")
              (Some "The cellar door creaks open."))
    as (Hcall & _ & Hstored & _ & Hhistory); try reflexivity.
  cbv zeta. eexists. split; [exact Hcall|].
  rewrite Hstored. cbn [fmap option_fmap option_map state updated_at].
  split; [reflexivity|]. split; [reflexivity|].
  split; [reflexivity|]. split; [reflexivity | exact Hhistory].
Defined.

Lemma applyGameStateChanges_wellFormed (JSON : JsonPrinter) (gs : GameState)
    (changes : Changes) (fa : jsobj Z) (rnd : Random) :
  wellFormedState gs ->
  wellFormedState (applyGameStateChanges JSON gs changes fa rnd).1.1.
Proof.
  intros (Hpos & Hitems & Hskills). unfold wellFormedState.
  rewrite applyGameStateChanges_state, applyUpdates_inventory,
    applyUpdates_playerSkills.
  split; [now apply foldl_applyItemChange_positive|].
  split; [|now apply foldl_applySkillChange_distinct].
  revert Hitems. generalize (inventory gs) as inv.
  induction (default [] (itemChanges changes)) as [|c l IH];
    intros inv Hinv; [assumption|].
  cbn [foldl]. now apply IH, applyItemChange_distinct.
Qed.

(** X19.  When every stored state has positive quantities, distinct item
    names and distinct skill names, so has every stored state after a call
    of the server action, and so has the state the call returns. *)
Theorem X19_turn_keeps_states_well_formed (JSON : JsonPrinter)
    (allScenarios : list DndScenario) (env : Env)
    (db : gmap string GameTableRow) (rnd : Random)
    (sessionId userAction : string) :
  (forall k row, db !! k = Some row -> wellFormedState (state row)) ->
  let result :=
    handleUserAction JSON allScenarios env db rnd sessionId userAction in
  (forall k row, result.1.2 !! k = Some row -> wellFormedState (state row))
  /\ (forall final, result.1.1 = Returned final -> wellFormedState final).
Proof.
  intros Hdb. cbv zeta.
  destruct (handleUserAction_store JSON allScenarios env db rnd sessionId
              userAction)
    as [[-> [message ->]] | (row & scenario & fa & final & Hrow & _ & _
                             & Hfinal & -> & ->)].
  - split; [exact Hdb | discriminate].
  - assert (wellFormedState final) as Hgood.
    { subst final. apply runTurn_invariant.
      - intros. now apply applyGameStateChanges_wellFormed.
      - intros g entry Hg. exact Hg.
      - exact (Hdb sessionId row Hrow). }
    split.
    + intros k row'. destruct (decide (sessionId = k)) as [<-|Hne].
      * rewrite lookup_insert_eq. now intros [= <-].
      * rewrite lookup_insert_ne by assumption. apply Hdb.
    + now intros final' [= <-].
Qed.

Lemma X19_witness :
  wellFormedState (state sampleRow)
  /\ forall final,
       (handleUserAction sampleJson [sampleScenario] (sampleEnv [3%nat])
          sampleDb (constantRandom 0) "s1" "open the cellar door").1.1
       = Returned final ->
       wellFormedState final.
Proof.
  assert (wellFormedState (state sampleRow)) as Hgood.
  { repeat split; try apply NoDup_singleton. repeat constructor. }
  split; [exact Hgood|].
  apply (X19_turn_keeps_states_well_formed sampleJson [sampleScenario]
           (sampleEnv [3%nat]) sampleDb (constantRandom 0) "s1"
           "open the cellar door").
  intros k row Hrow. unfold sampleDb in Hrow.
  apply lookup_singleton_Some in Hrow as [_ <-]. exact Hgood.
Defined.

(** X20.  The state a call of the server action returns has the scenario
    reference, the selected customizations and the character name of the
    stored state it started from. *)
Theorem X20_turn_frame (JSON : JsonPrinter)
    (allScenarios : list DndScenario) (env : Env)
    (db : gmap string GameTableRow) (rnd : Random)
    (sessionId userAction : string) (final : GameState) :
  (handleUserAction JSON allScenarios env db rnd sessionId userAction).1.1
    = Returned final ->
  exists row,
    db !! sessionId = Some row
    /\ scenarioId final = scenarioId (state row)
    /\ scenarioName final = scenarioName (state row)
    /\ selectedCustomizations final = selectedCustomizations (state row)
    /\ playerCharacterName final = playerCharacterName (state row).
Proof.
  intros Hret.
  destruct (handleUserAction_store JSON allScenarios env db rnd sessionId
              userAction)
    as [[_ [message Hthrown]] | (row & scenario & fa & final' & Hrow & _
                                 & _ & Hfinal & Hreturned & _)].
  - rewrite Hthrown in Hret. discriminate.
  - rewrite Hreturned in Hret. injection Hret as <-.
    exists row. split; [assumption|]. subst final'.
    apply (runTurn_invariant JSON
             (fun g =>
                scenarioId g = scenarioId (state row)
                /\ scenarioName g = scenarioName (state row)
                /\ selectedCustomizations g
                   = selectedCustomizations (state row)
                /\ playerCharacterName g
                   = playerCharacterName (state row))).
    + intros g changes fa' r (H1 & H2 & H3 & H4).
      rewrite applyGameStateChanges_state.
      destruct (applyUpdates_frame JSON g changes)
        as (F1 & F2 & F3 & F4 & _).
      rewrite F1, F2, F3, F4. now repeat split.
    + intros g entry Hg. exact Hg.
    + now repeat split.
Qed.

Lemma X20_witness :
  exists final,
    (handleUserAction sampleJson [sampleScenario] (sampleEnv []) sampleDb
       (constantRandom 0) "s1" "open the cellar door").1.1 = Returned final
    /\ playerCharacterName final = Some "Bob".
Proof.
  eexists. split; [vm_compute; reflexivity|].
  match goal with
  | |- playerCharacterName ?g = _ =>
      assert ((handleUserAction sampleJson [sampleScenario] (sampleEnv [])
                 sampleDb (constantRandom 0) "s1"
                 "open the cellar door").1.1 = Returned g) as Hret
        by (vm_compute; reflexivity)
  end.
  destruct (X20_turn_frame sampleJson [sampleScenario] (sampleEnv [])
              sampleDb (constantRandom 0) "s1" "open the cellar door" _ Hret)
    as (row & Hrow & _ & _ & _ & Hname).
  rewrite Hname. unfold sampleDb in Hrow.
  apply lookup_singleton_Some in Hrow as [_ <-]. reflexivity.
Defined.

(** ** Character creation *)

Lemma sumZ_at_least_base (o : jsobj Z) :
  Forall (fun e : string * Z => BASE_ATTRIBUTE_VALUE <= e.2) o ->
  BASE_ATTRIBUTE_VALUE * Z.of_nat (length o) <= sumZ o.*2.
Proof.
  induction 1 as [|[k v] o Hv _ IH]; [reflexivity|].
  rewrite fmap_cons, sumZ_cons. cbn [snd length] in *.
  unfold BASE_ATTRIBUTE_VALUE in *. lia.
Qed.

Lemma remainingPoints_nonnegative (scenario : DndScenario)
    (events : list FormEvent) (st : FormState) :
  Forall (fun ev => rendered scenario ev = true) events ->
  0 <= remainingPoints st ->
  0 <= remainingPoints (foldl (handleEvent scenario) st events).
Proof.
  intros Hall. revert st.
  induction Hall as [|ev events Hev _ IH]; intros st Hst; [assumption|].
  cbn [foldl]. apply IH.
  destruct ev as [u|s|attrName change|c o|n]; cbn [handleEvent];
    try assumption.
  - cbn [rendered] in Hev. apply andb_true_iff in Hev as [_ Hchange].
    unfold handleAttributeChange.
    destruct (Z.ltb_spec 0 change), (Z.leb_spec (remainingPoints st) 0);
      cbn [andb]; try assumption;
      (destruct (_ && _); [assumption|]);
      cbn [remainingPoints];
      apply orb_true_iff in Hchange as [Hc|Hc]; apply Z.eqb_eq in Hc; lia.
  - unfold handleSkillToggle.
    destruct (existsb _ _); [assumption|].
    destruct (_ <? _)%nat; [|assumption].
    now destruct (obj_get _ _).
Qed.

(** X21.  Whatever the user clicks, the points left to allocate stay
    between zero and the ten the form starts with. *)
Theorem X21_remaining_points_in_range (scenario : DndScenario)
    (events : list FormEvent) :
  Forall (fun ev => rendered scenario ev = true) events ->
  0 <= remainingPoints (formAfter scenario events) <= TOTAL_BONUS_POINTS.
Proof.
  intros Hall. split.
  - apply remainingPoints_nonnegative; [assumption|].
    cbn. unfold TOTAL_BONUS_POINTS. lia.
  - pose proof (formInvariant_events scenario events _ Hall
                  (formInvariant_init scenario)) as (_ & Hmin & Hsum & _).
    apply sumZ_at_least_base in Hmin. unfold formAfter. lia.
Qed.

Lemma X21_witness :
  0 <= remainingPoints (formAfter sampleScenario sampleEvents)
    <= TOTAL_BONUS_POINTS.
Proof.
  apply (X21_remaining_points_in_range sampleScenario sampleEvents).
  apply Forall_forall. intros ev Hev.
  repeat (apply elem_of_cons in Hev as [->|Hev]; [vm_compute; reflexivity|]).
  inversion Hev.
Defined.

Lemma obj_set_set {V : Type} (k : string) (v v' : V) (o : jsobj V) :
  obj_set k v (obj_set k v' o) = obj_set k v o.
Proof.
  induction o as [|[k0 v0] o IH]; cbn [obj_set].
  - now rewrite String.eqb_refl.
  - destruct (String.eqb k0 k) eqn:Hk; cbn [obj_set]; rewrite Hk;
      [reflexivity | now rewrite IH].
Qed.

Lemma obj_set_same {V : Type} (k : string) (v : V) (o : jsobj V) :
  obj_get k o = Some v -> obj_set k v o = o.
Proof.
  induction o as [|[k0 v0] o IH]; cbn [obj_get obj_set]; [discriminate|].
  destruct (String.eqb k0 k); [now intros [= ->] | intros H; now rewrite IH].
Qed.

(** X22.  While points are left, a click on [+] followed by a click on [-]
    of the same attribute gives back the attribute values and the points
    left as they were. *)
Theorem X22_plus_then_minus (scenario : DndScenario)
    (events : list FormEvent) (attrName : string) :
  Forall (fun ev => rendered scenario ev = true) events ->
  attrName ∈ obj_keys (attributes scenario) ->
  let st := formAfter scenario events in
  0 < remainingPoints st ->
  let st' :=
    handleAttributeChange attrName (-1) (handleAttributeChange attrName 1 st)
  in
  baseAttributeValues st' = baseAttributeValues st
  /\ remainingPoints st' = remainingPoints st.
Proof.
  intros Hall Hattr st Hrem.
  pose proof (formInvariant_events scenario events _ Hall
                (formInvariant_init scenario)) as (Hkeys & Hmin & _).
  fold (formAfter scenario events) in Hkeys, Hmin. fold st in Hkeys, Hmin.
  assert (attrName ∈ obj_keys (baseAttributeValues st)) as Hin.
  { rewrite Hkeys. apply initialAttrs_keys. now left. }
  destruct (proj1 (obj_get_Some_keys _ _) Hin) as [v Hv].
  pose proof (obj_get_Forall_value (fun v => BASE_ATTRIBUTE_VALUE <= v)
                _ _ _ Hmin Hv) as Hv5.
  cbv beta in Hv5. unfold BASE_ATTRIBUTE_VALUE in Hv5.
  assert (forall x, BASE_ATTRIBUTE_VALUE <= x ->
                    num_or (Some x) BASE_ATTRIBUTE_VALUE = x) as Hnum.
  { intros x Hx. unfold num_or, BASE_ATTRIBUTE_VALUE in *.
    destruct (Z.eqb_spec x 0); [lia | reflexivity]. }
  set (st1 := handleAttributeChange attrName 1 st).
  assert (baseAttributeValues st1
          = obj_set attrName (v + 1) (baseAttributeValues st)
          /\ remainingPoints st1 = remainingPoints st - 1) as [Hb1 Hr1].
  { subst st1. unfold handleAttributeChange. rewrite Hv, Hnum by assumption.
    destruct (Z.leb_spec (remainingPoints st) 0) as [|_]; [lia|].
    split; reflexivity. }
  cbv zeta. unfold handleAttributeChange. rewrite Hb1, Hr1, obj_get_set_eq.
  rewrite Hnum by (unfold BASE_ATTRIBUTE_VALUE; lia).
  cbn [Z.ltb Z.compare andb].
  destruct (Z.ltb_spec (v + 1 + -1) BASE_ATTRIBUTE_VALUE) as [Hlt|_];
    [unfold BASE_ATTRIBUTE_VALUE in Hlt; lia|].
  cbn [baseAttributeValues remainingPoints].
  split; [|lia].
  rewrite obj_set_set. apply obj_set_same. rewrite Hv. f_equal. lia.
Qed.

Lemma X22_witness :
  baseAttributeValues
    (handleAttributeChange "Agility" (-1)
       (handleAttributeChange "Agility" 1 (formAfter sampleScenario [])))
  = baseAttributeValues (formAfter sampleScenario []).
Proof.
  apply (X22_plus_then_minus sampleScenario [] "Agility").
  - constructor.
  - vm_compute. apply list_elem_of_In. right. left. reflexivity.
  - reflexivity.
Defined.

(** X23.  Two clicks in a row on a skill that is not selected leave the
    selection as it was, whether the first click selected the skill or was
    refused. *)
Theorem X23_skill_click_twice (scenario : DndScenario) (st : FormState)
    (n : string) :
  n ∉ skillName <$> selectedSkills st ->
  selectedSkills
    (handleSkillToggle scenario n (handleSkillToggle scenario n st))
  = selectedSkills st.
Proof.
  intros Hnot.
  assert (existsb (fun skill => String.eqb (skillName skill) n)
            (selectedSkills st) = false) as Hsel.
  { apply not_true_is_false. intros Hex.
    apply existsb_exists in Hex as (s & Hin & Hs).
    apply String.eqb_eq in Hs. apply Hnot. rewrite <- Hs.
    apply list_elem_of_fmap_2. now apply list_elem_of_In. }
  unfold handleSkillToggle at 2. rewrite Hsel.
  destruct (length (selectedSkills st) <? MAX_STARTING_SKILLS)%nat eqn:Hcap.
  - destruct (obj_get n (baseSkills scenario)) as [skillDetails|] eqn:Hskill.
    + unfold handleSkillToggle. cbn [setSelectedSkills selectedSkills].
      rewrite existsb_app. cbn [existsb skillName].
      rewrite String.eqb_refl, orb_true_r.
      cbn [setSelectedSkills selectedSkills].
      rewrite List.filter_app. cbn [List.filter skillName].
      rewrite String.eqb_refl. cbn [negb].
      rewrite filter_other_names by assumption. apply app_nil_r.
    + unfold handleSkillToggle. now rewrite Hsel, Hcap, Hskill.
  - unfold handleSkillToggle. cbn [setError selectedSkills].
    now rewrite Hsel, Hcap.
Qed.

Lemma X23_witness :
  selectedSkills
    (handleSkillToggle sampleScenario "brawl"
       (handleSkillToggle sampleScenario "brawl"
          (formAfter sampleScenario sampleEvents)))
  = selectedSkills (formAfter sampleScenario sampleEvents).
Proof.
  apply (X23_skill_click_twice sampleScenario
           (formAfter sampleScenario sampleEvents) "brawl").
  vm_compute. intros Hin. apply list_elem_of_In in Hin as [H|[]].
  discriminate.
Defined.

(** ** Home view *)

(** The store after the two updates of [loadSave]. *)
Lemma loadSave_store (env : HomeEnv) (db : gmap string GameTableRow)
    (st : HomeView) (id uid : string) :
  home_user st = Some uid ->
  reset_error env = None ->
  activate_error env = None ->
  forall k,
    (loadSave env db st id).2 !! k
    = (fun row =>
         if String.eqb k id then set_is_active row true
         else if String.eqb (user_id row) uid then set_is_active row false
         else row) <$> db !! k.
Proof.
  intros Huser Hreset Hactivate k. unfold loadSave.
  rewrite Huser, Hreset, Hactivate. cbn [snd].
  destruct (String.eqb_spec k id) as [->|Hne].
  - rewrite lookup_alter_eq, lookup_fmap.
    destruct (db !! id) as [row|]; [|reflexivity]. cbn.
    now destruct (String.eqb (user_id row) uid).
  - rewrite lookup_alter_ne by congruence. now rewrite lookup_fmap.
Qed.

(** X24.  After a successful [loadSave] of one of the user's saves, that
    save is the user's only active one, the saves of other users are
    untouched, no row has changed in anything but its active flag, and the
    view has moved to the game. *)
Theorem X24_loadSave_activates_exactly_one (env : HomeEnv)
    (db : gmap string GameTableRow) (st : HomeView) (id uid : string)
    (save : GameTableRow) :
  home_user st = Some uid ->
  reset_error env = None ->
  activate_error env = None ->
  db !! id = Some save -> user_id save = uid ->
  let result := loadSave env db st id in
  result.2 !! id = Some (set_is_active save true)
  /\ (forall k row,
        result.2 !! k = Some row -> user_id row = uid ->
        (is_active row = true <-> k = id))
  /\ (forall k row,
        db !! k = Some row -> user_id row <> uid ->
        result.2 !! k = Some row)
  /\ (forall k row,
        result.2 !! k = Some row ->
        exists row0,
          db !! k = Some row0 /\ row = set_is_active row0 (is_active row))
  /\ last (home_pushed result.1) = Some ("/game/" ++ id).
Proof.
  intros Huser Hreset Hactivate Hsave Howner result.
  pose proof (loadSave_store env db st id uid Huser Hreset Hactivate)
    as Hstore. fold result in Hstore.
  split; [|split; [|split; [|split]]].
  - rewrite Hstore, Hsave. cbn. now rewrite String.eqb_refl.
  - intros k row Hrow Hrowner. rewrite Hstore in Hrow.
    destruct (db !! k) as [row0|]; [|discriminate].
    cbn in Hrow. injection Hrow as <-.
    destruct (String.eqb_spec k id) as [->|Hne]; [now split|].
    destruct (String.eqb_spec (user_id row0) uid) as [_|Hother];
      [now split|].
    now contradict Hother.
  - intros k row Hrow Hother. rewrite Hstore, Hrow. cbn.
    destruct (String.eqb_spec k id) as [->|Hne]; [congruence|].
    apply String.eqb_neq in Hother. now rewrite Hother.
  - intros k row Hrow. rewrite Hstore in Hrow.
    destruct (db !! k) as [row0|]; [|discriminate].
    cbn in Hrow. injection Hrow as <-. exists row0. split; [reflexivity|].
    destruct (String.eqb k id); [reflexivity|].
    destruct (String.eqb (user_id row0) uid); [reflexivity|].
    now destruct row0.
  - subst result. unfold loadSave. rewrite Huser, Hreset, Hactivate.
    cbn [fst home_pushed]. apply last_snoc.
Qed.

(** X25.  A [loadSave] whose first update fails leaves the store as it
    was; one whose second update fails has already deactivated every save
    of the user and leaves the user without an active save.  Either way the
    view reports the error and stays where it is. *)
Theorem X25_loadSave_failures (env : HomeEnv)
    (db : gmap string GameTableRow) (st : HomeView) (id uid : string)
    (message : string) :
  home_user st = Some uid ->
  let result := loadSave env db st id in
  (reset_error env = Some message ->
   result.2 = db
   /\ home_error result.1 = Some ("加载存档失败: " ++ message)
   /\ home_pushed result.1 = home_pushed st)
  /\ (reset_error env = None -> activate_error env = Some message ->
      (forall k row,
          result.2 !! k = Some row -> user_id row = uid ->
          is_active row = false)
      /\ (forall k row,
            db !! k = Some row -> user_id row <> uid ->
            result.2 !! k = Some row)
      /\ home_error result.1 = Some ("加载存档失败: " ++ message)
      /\ home_pushed result.1 = home_pushed st).
Proof.
  intros Huser result. subst result. unfold loadSave. rewrite Huser.
  split.
  - intros ->. now repeat split.
  - intros -> ->. cbn [fst snd home_set home_error home_pushed].
    split; [|split; [|now split]].
    + intros k row. rewrite lookup_fmap.
      destruct (db !! k) as [row0|]; [|discriminate].
      cbn. intros [= <-].
      destruct (String.eqb_spec (user_id row0) uid); [reflexivity|].
      intros Howner. now contradict Howner.
    + intros k row Hrow Hother. rewrite lookup_fmap, Hrow. cbn.
      apply String.eqb_neq in Hother. now rewrite Hother.
Qed.

(** X26.  [deleteSave] removes at most the row with the given id, and only
    when its owner is logged in, has confirmed and the store reports no
    error; then the row is gone from the store and from the list shown.
    Every other row stays as it was. *)
Theorem X26_deleteSave_removes_only_own_row (env : HomeEnv)
    (db : gmap string GameTableRow) (st : HomeView) (id : string) :
  let result := deleteSave env db st id in
  (forall k, k <> id -> result.2 !! k = db !! k)
  /\ (forall row,
        db !! id = Some row ->
        (result.2 !! id = None
         <-> home_user st = Some (user_id row) /\ confirmed env = true
             /\ delete_error env = None))
  /\ (forall row,
        db !! id = Some row -> result.2 !! id = None ->
        id ∉ save_id <$> home_saves result.1)
  /\ (result.2 !! id = None \/ result.2 !! id = db !! id).
Proof.
  cbv zeta. unfold deleteSave.
  destruct (home_user st) as [uid|] eqn:Huser; cbn [fst snd].
  2: { split; [reflexivity|]. split; [|split; [|now right]].
       - intros row Hrow. rewrite Hrow. split; [discriminate|].
         intros (H & _). discriminate.
       - intros row Hrow. rewrite Hrow. discriminate. }
  destruct (confirmed env) eqn:Hconf; cbn [negb fst snd].
  2: { split; [reflexivity|]. split; [|split; [|now right]].
       - intros row Hrow. rewrite Hrow. split; [discriminate|].
         intros (_ & H & _). discriminate.
       - intros row Hrow. rewrite Hrow. discriminate. }
  destruct (delete_error env) as [message|] eqn:Hdel; cbn [fst snd].
  { split; [reflexivity|]. split; [|split; [|now right]].
    - intros row Hrow. rewrite Hrow. split; [discriminate|].
      intros (_ & _ & H). discriminate.
    - intros row Hrow. rewrite Hrow. discriminate. }
  destruct (db !! id) as [row0|] eqn:Hrow0.
  2: { split; [reflexivity|]. split; [discriminate|].
       split; [discriminate | now left]. }
  destruct (String.eqb_spec (user_id row0) uid) as [Howner|Howner].
  - split; [intros k Hk; now apply lookup_delete_ne|].
    split; [|split; [|left; apply lookup_delete_eq]].
    + intros row [= <-]. rewrite lookup_delete_eq. split; [|reflexivity].
      intros _. now rewrite Howner.
    + intros row _ _ Hin. cbn [home_saves] in Hin.
      apply list_elem_of_fmap in Hin as (s & Hs & Hin).
      apply list_elem_of_In, filter_In in Hin as [_ Hne].
      rewrite <- Hs, String.eqb_refl in Hne. discriminate.
  - split; [reflexivity|]. split; [|split; [|right; exact Hrow0]].
    + intros row [= <-]. rewrite Hrow0. split; [discriminate|].
      intros ([= Hu] & _). congruence.
    + intros row _. rewrite Hrow0. discriminate.
Qed.

Lemma X24_witness :
  let result := loadSave (homeEnv None None) homeDb homeView "s2" in
  result.2 !! "s2" = Some (saveRow "s2" "alice" true)
  /\ forall k row,
       result.2 !! k = Some row -> user_id row = "alice" ->
       (is_active row = true <-> k = "s2").
Proof.
  assert (homeDb !! "s2" = Some (saveRow "s2" "alice" false)) as Hsave
    by (vm_compute; reflexivity).
  destruct (X24_loadSave_activates_exactly_one (homeEnv None None) homeDb
              homeView "s2" "alice" _ eq_refl eq_refl eq_refl Hsave eq_refl)
    as (Hrow & Hone & _).
  split; [exact Hrow | exact Hone].
Defined.

Lemma X25_witness :
  home_user homeView = Some "alice"
  /\ forall k row,
       (loadSave (homeEnv None (Some "timeout")) homeDb homeView "s2").2 !! k
       = Some row ->
       user_id row = "alice" -> is_active row = false.
Proof.
  split; [reflexivity|].
  destruct (X25_loadSave_failures (homeEnv None (Some "timeout")) homeDb
              homeView "s2" "alice" "timeout" eq_refl)
    as [_ Hsecond].
  destruct (Hsecond eq_refl eq_refl) as (Hnone & _). exact Hnone.
Defined.

Lemma find_first_active_Some {A : Type} (p : A -> bool) (l : list A)
    (x : A) :
  find_first p l = Some x -> x ∈ l /\ p x = true.
Proof.
  induction l as [|y l IH]; [discriminate|]. cbn.
  destruct (p y) eqn:Hy.
  - intros [= <-]. split; [left | exact Hy].
  - intros Hx. destruct (IH Hx) as [Hin Hp]. split; [now right | exact Hp].
Qed.

Lemma find_first_active_None {A : Type} (p : A -> bool) (l : list A) :
  find_first p l = None -> forall x, x ∈ l -> p x = false.
Proof.
  induction l as [|y l IH]; intros Hnone x Hin.
  - inversion Hin.
  - cbn in Hnone. destruct (p y) eqn:Hy; [discriminate|].
    apply elem_of_cons in Hin as [->|Hin]; [exact Hy | now apply IH].
Qed.

(** The rows [select_saves] returns. *)
Lemma elem_of_select_saves (env : HomeEnv) (db : gmap string GameTableRow)
    (uid : string) (s : Save) :
  keepsRows (order_by_updated_desc env) ->
  s ∈ select_saves env db uid
  <-> exists k row,
        db !! k = Some row /\ user_id row = uid /\ s = save_of_row row.
Proof.
  intros Horder. unfold select_saves. rewrite list_elem_of_fmap.
  split.
  - intros (row & -> & Hin). apply (proj1 (Horder _ _)) in Hin.
    apply list_elem_of_In, filter_In in Hin as [Hin Huid].
    apply list_elem_of_In, list_elem_of_fmap in Hin as ([k row'] & -> & Hin).
    apply elem_of_map_to_list in Hin. apply String.eqb_eq in Huid.
    now exists k, row'.
  - intros (k & row & Hrow & Huid & ->). exists row. split; [reflexivity|].
    apply (proj2 (Horder _ _)), list_elem_of_In, filter_In. split.
    + apply list_elem_of_In, list_elem_of_fmap. exists (k, row).
      split; [reflexivity|]. now apply elem_of_map_to_list.
    + now apply String.eqb_eq.
Qed.

(** The view after a successful [loadSave]. *)
Lemma loadSave_view (env : HomeEnv) (db : gmap string GameTableRow)
    (st : HomeView) (id uid : string) :
  home_user st = Some uid ->
  getSession env = inr (Some uid) ->
  select_saves_error env = None ->
  reset_error env = None ->
  activate_error env = None ->
  let result := loadSave env db st id in
  home_user result.1 = Some uid
  /\ home_saves result.1 = select_saves env result.2 uid
  /\ home_pushed result.1 = (home_pushed st ++ [("/game/" ++ id)%string])%list.
Proof.
  intros Huser Hsession Hselect Hreset Hactivate. cbv zeta.
  unfold loadSave, loadUserAndSaves.
  rewrite Huser, Hreset, Hactivate, Hsession, Hselect. now repeat split.
Qed.

(** X27.  Once a save of the user has been loaded, which navigates to its
    page, [continueLatest] opens that same save again: it navigates once
    more, to the page of that save, and leaves the store and the list of
    saves as the load left them. *)
Theorem X27_continue_resumes_loaded_save (env : HomeEnv)
    (db : gmap string GameTableRow) (st : HomeView) (id uid : string)
    (save : GameTableRow) :
  keyedById db ->
  keepsRows (order_by_updated_desc env) ->
  home_user st = Some uid ->
  getSession env = inr (Some uid) ->
  select_saves_error env = None ->
  reset_error env = None ->
  activate_error env = None ->
  db !! id = Some save -> user_id save = uid ->
  let loaded := loadSave env db st id in
  let resumed := continueLatest env loaded.2 loaded.1 in
  home_pushed loaded.1 = (home_pushed st ++ [("/game/" ++ id)%string])%list
  /\ home_pushed resumed.1
     = (home_pushed loaded.1 ++ [("/game/" ++ id)%string])%list
  /\ resumed.2 = loaded.2
  /\ home_saves resumed.1 = home_saves loaded.1.
Proof.
  intros Hkeys Horder Huser Hsession Hselect Hreset Hactivate Hsave Howner
    loaded resumed.
  pose proof (loadSave_store env db st id uid Huser Hreset Hactivate)
    as Hstore. fold loaded in Hstore.
  destruct (loadSave_view env db st id uid Huser Hsession Hselect Hreset
              Hactivate) as (Huser' & Hsaves & Hfirst).
  fold loaded in Huser', Hsaves, Hfirst.
  (* the save found is the one loaded *)
  assert (exists first rest chosen,
             home_saves loaded.1 = first :: rest
             /\ default first (find_first save_is_active (home_saves loaded.1))
                = chosen
             /\ save_id chosen = id) as (first & rest & chosen & Hlist & Hdef
                                         & Hid).
  { assert (save_of_row (set_is_active save true) ∈ home_saves loaded.1)
      as Hin.
    { rewrite Hsaves. apply elem_of_select_saves; [exact Horder|].
      exists id, (set_is_active save true). split; [|now split].
      rewrite Hstore, Hsave. cbn. now rewrite String.eqb_refl. }
    destruct (find_first save_is_active (home_saves loaded.1)) as [s|]
      eqn:Hfind.
    2: { pose proof (find_first_active_None _ _ Hfind _ Hin) as Hfalse.
         discriminate. }
    assert (save_id s = id) as Hid.
    { apply find_first_active_Some in Hfind as [Hs Hactive].
      rewrite Hsaves in Hs.
      apply elem_of_select_saves in Hs as (k & row & Hrow & Hu & ->);
        [|exact Horder].
      rewrite Hstore in Hrow.
      destruct (db !! k) as [row0|] eqn:Hrow0; [|discriminate].
      cbn in Hrow. injection Hrow as <-.
      apply Hkeys in Hrow0. cbn in Hactive, Hu |- *.
      destruct (String.eqb_spec k id) as [->|Hne]; [exact Hrow0|].
      destruct (String.eqb_spec (user_id row0) uid) as [_|Hother];
        [discriminate|].
      now contradict Hother. }
    destruct (home_saves loaded.1) as [|first rest]; [inversion Hin|].
    exists first, rest, s. now repeat split. }
  assert (resumed
          = loadSave env loaded.2
              (home_set loaded.1 true (home_error loaded.1)) id) as Hresumed.
  { subst resumed. unfold continueLatest. rewrite Huser'.
    rewrite Hlist in Hdef |- *. cbv beta iota zeta.
    rewrite Hdef, Hid. reflexivity. }
  assert (home_user (home_set loaded.1 true (home_error loaded.1))
          = Some uid) as Huser'' by exact Huser'.
  pose proof (loadSave_store env loaded.2 _ id uid Huser'' Hreset Hactivate)
    as Hstore'.
  destruct (loadSave_view env loaded.2 _ id uid Huser'' Hsession Hselect
              Hreset Hactivate) as (_ & Hsaves' & Hpushed).
  rewrite <- Hresumed in Hstore', Hsaves', Hpushed.
  assert (resumed.2 = loaded.2) as Hsame.
  { apply map_eq. intros k. rewrite Hstore', Hstore.
    destruct (db !! k) as [row0|]; [|reflexivity]. cbn. f_equal.
    destruct (String.eqb k id); [reflexivity|].
    destruct (String.eqb (user_id row0) uid) eqn:Hu; cbn; rewrite Hu;
      reflexivity. }
  split; [exact Hfirst|]. split; [exact Hpushed|]. split.
  - exact Hsame.
  - now rewrite Hsaves', Hsame, Hsaves.
Qed.

Lemma X27_witness :
  let loaded := loadSave (homeEnv None None) homeDb homeView "s2" in
  let resumed := continueLatest (homeEnv None None) loaded.2 loaded.1 in
  home_pushed resumed.1 = ["/game/s2"; "/game/s2"]
  /\ resumed.2 = loaded.2.
Proof.
  assert (keyedById homeDb) as Hkeys.
  { unfold homeDb. repeat apply map_Forall_insert_2; try reflexivity.
    apply map_Forall_empty. }
  assert (keepsRows (order_by_updated_desc (homeEnv None None))) as Horder
    by (intros l row; reflexivity).
  assert (homeDb !! "s2" = Some (saveRow "s2" "alice" false)) as Hsave
    by (vm_compute; reflexivity).
  destruct (X27_continue_resumes_loaded_save (homeEnv None None) homeDb
              homeView "s2" "alice" _ Hkeys Horder eq_refl eq_refl eq_refl
              eq_refl eq_refl Hsave eq_refl)
    as (Hfirst & Hpushed & Hstore & _).
  split; [|exact Hstore].
  cbv zeta. rewrite Hpushed, Hfirst. reflexivity.
Defined.

(** ** Session view *)

(** The updater of the [catch] block finds the message already shown. *)
Lemma keep_user_message_shown (prev : GameTableRow) (message now : string) :
  let entry := {| role := user; text := message; timestamp := now |} in
  keep_user_message (append_local prev entry) entry = append_local prev entry.
Proof.
  cbv zeta. unfold keep_user_message.
  cbn [append_local state push_dialogue dialogueHistory].
  rewrite last_snoc. cbn [role text]. now rewrite String.eqb_refl.
Qed.

(** A submission that is not ignored, with the game and its scenario
    loaded. *)
Lemma handleSubmitAction_run (trim : string -> string)
    (serverAction : string -> string -> Outcome)
    (typeError_message : string -> string)
    (now_message now_updated : string) (st : SessionView)
    (game : GameTableRow) (scenario : DndScenario) :
  String.eqb (trim (userActionInput st)) EmptyString = false ->
  isProcessing st = false -> dmThinking st = false ->
  gameData st = Some game -> scenarioTemplate st = Some scenario ->
  let entry :=
    {| role := user; text := trim (userActionInput st);
       timestamp := now_message |} in
  handleSubmitAction trim serverAction typeError_message now_message
    now_updated st =
  match serverAction (row_id game) (trim (userActionInput st)) with
  | Returned updatedGameState =>
      let updated :=
        set_state (append_local game entry) updatedGameState now_updated in
      match calculateFinalAttributes (baseAttributes updatedGameState)
              (selectedCustomizations updatedGameState) scenario with
      | Normal calculatedFinalAttributes =>
          {| gameData := Some updated;
             scenarioTemplate := Some scenario;
             view_finalAttributes := calculatedFinalAttributes;
             userActionInput := EmptyString;
             isProcessing := false;
             view_error := None;
             dmThinking := false |}
      | TypeError reading =>
          {| gameData := Some (keep_user_message updated entry);
             scenarioTemplate := Some scenario;
             view_finalAttributes := view_finalAttributes st;
             userActionInput := EmptyString;
             isProcessing := false;
             view_error :=
               Some ("处理行动失败: "
                       ++ str_or (Some (typeError_message reading))
                            "未知错误");
             dmThinking := false |}
      end
  | Thrown message =>
      {| gameData := Some (append_local game entry);
         scenarioTemplate := Some scenario;
         view_finalAttributes := view_finalAttributes st;
         userActionInput := EmptyString;
         isProcessing := false;
         view_error :=
           Some ("处理行动失败: " ++ str_or (Some message) "未知错误");
         dmThinking := false |}
  end.
Proof.
  intros Hblank Hproc Hthink Hgame Hscenario. cbv zeta.
  unfold handleSubmitAction.
  rewrite Hblank, Hproc, Hthink, Hgame, Hscenario.
  cbn [orb fmap option_fmap option_map text].
  destruct (serverAction _ _) as [message|updatedGameState].
  - now rewrite keep_user_message_shown.
  - now destruct (calculateFinalAttributes _ _ scenario).
Qed.

(** X28.  When a submission fails, because the scenario is not loaded or
    because the server action throws, the view keeps the game it had with
    the player's message appended exactly once, reports an error, and is
    idle again with the input cleared. *)
Theorem X28_failed_submit_shows_message_once (trim : string -> string)
    (serverAction : string -> string -> Outcome)
    (typeError_message : string -> string)
    (now_message now_updated : string) (st : SessionView)
    (game : GameTableRow) :
  String.eqb (trim (userActionInput st)) EmptyString = false ->
  isProcessing st = false -> dmThinking st = false ->
  gameData st = Some game ->
  scenarioTemplate st = None
  \/ (exists message,
        serverAction (row_id game) (trim (userActionInput st))
        = Thrown message) ->
  let st' :=
    handleSubmitAction trim serverAction typeError_message now_message
      now_updated st in
  gameData st'
  = Some (append_local game
            {| role := user; text := trim (userActionInput st);
               timestamp := now_message |})
  /\ is_Some (view_error st')
  /\ view_finalAttributes st' = view_finalAttributes st
  /\ userActionInput st' = EmptyString
  /\ isProcessing st' = false
  /\ dmThinking st' = false.
Proof.
  intros Hblank Hproc Hthink Hgame Hfail st'. subst st'.
  destruct (scenarioTemplate st) as [scenario|] eqn:Hscenario.
  - destruct Hfail as [|[message Hthrown]]; [discriminate|].
    rewrite (handleSubmitAction_run trim serverAction typeError_message
               now_message now_updated st game scenario) by assumption.
    cbv zeta. rewrite Hthrown.
    cbn [gameData view_error view_finalAttributes userActionInput
         isProcessing dmThinking].
    repeat split. eauto.
  - unfold handleSubmitAction.
    rewrite Hblank, Hproc, Hthink, Hgame, Hscenario.
    cbn [orb fmap option_fmap option_map gameData view_error
         view_finalAttributes userActionInput isProcessing dmThinking].
    repeat split. eauto.
Qed.

Lemma X28_witness :
  (dialogueHistory ∘ state)
    <$> gameData
          (handleSubmitAction (fun s => s) (fun _ _ => Thrown "offline")
             (typeError_message (sampleEnv []))
             "2025-01-02T10:00:00.000Z" "2025-01-02T10:00:06.000Z"
             (sessionView None))
  = Some [sampleIntro;
          {| role := user; text := "open the cellar door";
             timestamp := "2025-01-02T10:00:00.000Z" |}].
Proof.
  destruct (X28_failed_submit_shows_message_once (fun s => s)
              (fun _ _ => Thrown "offline")
              (typeError_message (sampleEnv [])) "2025-01-02T10:00:00.000Z"
              "2025-01-02T10:00:06.000Z" (sessionView None) sampleRow
              eq_refl eq_refl eq_refl eq_refl (or_introl eq_refl))
    as (Hgame & _).
  rewrite Hgame. reflexivity.
Defined.

(** X29.  The session view and the store after a submission that reaches
    the server action: when the action returns, the state returned is the
    state stored, and it is the state shown, with its attributes resolved
    and no error, when the view resolves them (when the view's resolver
    throws instead, the view reports the error and keeps the attributes it
    had); when the action throws, the store is as it was and the view is
    ahead of it by the player's message alone. *)
Theorem X29_view_agrees_with_store (JSON : JsonPrinter)
    (allScenarios : list DndScenario) (env : Env)
    (db : gmap string GameTableRow) (rnd : Random)
    (trim : string -> string) (now_message now_updated : string)
    (st : SessionView) (game : GameTableRow) (scenario : DndScenario) :
  String.eqb (trim (userActionInput st)) EmptyString = false ->
  isProcessing st = false -> dmThinking st = false ->
  gameData st = Some game -> scenarioTemplate st = Some scenario ->
  let call :=
    handleUserAction JSON allScenarios env db rnd (row_id game)
      (trim (userActionInput st)) in
  let st' :=
    handleSubmitAction trim
      (fun sessionId userAction =>
         (handleUserAction JSON allScenarios env db rnd sessionId
            userAction).1.1)
      (typeError_message env) now_message now_updated st in
  (forall final,
      call.1.1 = Returned final ->
      state <$> call.1.2 !! row_id game = Some final
      /\ match calculateFinalAttributes (baseAttributes final)
                 (selectedCustomizations final) scenario with
         | Normal finalAttributes =>
             state <$> gameData st' = Some final
             /\ view_finalAttributes st' = finalAttributes
             /\ view_error st' = None
         | TypeError _ =>
             is_Some (view_error st')
             /\ view_finalAttributes st' = view_finalAttributes st
         end)
  /\ (forall message,
        call.1.1 = Thrown message ->
        call.1.2 = db
        /\ (dialogueHistory ∘ state) <$> gameData st'
           = Some (dialogueHistory (state game)
                     ++ [ {| role := user;
                             text := trim (userActionInput st);
                             timestamp := now_message |} ])%list
        /\ is_Some (view_error st')).
Proof.
  intros Hblank Hproc Hthink Hgame Hscenario call st'. subst st'.
  rewrite (handleSubmitAction_run trim _ (typeError_message env) now_message
             now_updated st game scenario) by assumption.
  cbv zeta. fold call.
  pose proof (handleUserAction_store JSON allScenarios env db rnd
                (row_id game) (trim (userActionInput st))) as Hstore.
  cbv zeta in Hstore. fold call in Hstore.
  split.
  - intros final Hret. rewrite Hret. split.
    + destruct Hstore as [[_ [message Hthrown]]
                         |(row & sc & fa & final' & _ & _ & _ & _ & Hret'
                           & Hdb)];
        [congruence|].
      rewrite Hdb, lookup_insert_eq. cbn. congruence.
    + destruct (calculateFinalAttributes _ _ scenario) as [fa|reading];
        cbn [gameData view_error view_finalAttributes fmap option_fmap
             option_map set_state state].
      * now repeat split.
      * split; [eauto | reflexivity].
  - intros message Hthrown. rewrite Hthrown.
    cbn [gameData view_error fmap option_fmap option_map].
    split; [|split; [reflexivity | eauto]].
    destruct Hstore as [[Hdb _]
                       |(row & sc & fa & final' & _ & _ & _ & _ & Hret' & _)];
      [exact Hdb | congruence].
Qed.

Lemma X29_witness :
  exists final,
    (handleUserAction sampleJson [sampleScenario] (sampleEnv []) sampleDb
       (constantRandom 0) "s1" "open the cellar door").1.1 = Returned final
    /\ state
         <$> gameData
               (handleSubmitAction (fun s => s)
                  (fun sessionId userAction =>
                     (handleUserAction sampleJson [sampleScenario]
                        (sampleEnv []) sampleDb (constantRandom 0) sessionId
                        userAction).1.1)
                  (typeError_message (sampleEnv []))
                  "2025-01-02T10:00:00.000Z" "2025-01-02T10:00:06.000Z"
                  (sessionView (Some sampleScenario)))
       = Some final.
Proof.
  eexists. split; [vm_compute; reflexivity|].
  match goal with
  | |- _ = Some ?g =>
      assert ((handleUserAction sampleJson [sampleScenario] (sampleEnv [])
                 sampleDb (constantRandom 0) "s1"
                 "open the cellar door").1.1 = Returned g) as Hret
        by (vm_compute; reflexivity)
  end.
  destruct (X29_view_agrees_with_store sampleJson [sampleScenario]
              (sampleEnv []) sampleDb (constantRandom 0) (fun s => s)
              "2025-01-02T10:00:00.000Z" "2025-01-02T10:00:06.000Z"
              (sessionView (Some sampleScenario)) sampleRow sampleScenario
              eq_refl eq_refl eq_refl eq_refl eq_refl)
    as [Hreturned _].
  destruct (Hreturned _ Hret) as (_ & Hview).
  vm_compute in Hview. destruct Hview as (Hview & _).
  vm_compute. exact Hview.
Defined.

(** ** Session middleware *)

(** X30.  [updateSession] redirects only requests without a user, and the
    request it redirects to is let through: no redirect is followed by
    another. *)
Theorem X30_redirect_never_loops (currentUser : option string)
    (pathname target : string) :
  updateSession currentUser pathname = Redirect target ->
  currentUser = None
  /\ String.prefix "/login" pathname = false
  /\ String.prefix "/auth" pathname = false
  /\ updateSession currentUser target = Next.
Proof.
  unfold updateSession. destruct currentUser as [uid|]; [discriminate|].
  destruct (String.prefix "/login" pathname) eqn:Hlogin; [discriminate|].
  destruct (String.prefix "/auth" pathname) eqn:Hauth; [discriminate|].
  cbn [negb andb]. intros [= <-]. now repeat split.
Qed.

Lemma X30_witness :
  updateSession None "/game/s1" = Redirect "/login"
  /\ updateSession None "/login" = Next.
Proof.
  split; [reflexivity|].
  apply (X30_redirect_never_loops None "/game/s1" "/login" eq_refl).
Defined.
